(** * Upstream healthcheck module: a shallow embedding

    The definitions below follow [ngx_http_healthcheck_module.c] function by
    function.  Machine integers are integers of [Z] with their wrap-around
    written out, the peer's socket is a script of what [recv] will deliver, and
    everything a handler does to the outside (timers, the spinlock, the
    connection, log lines) is appended to a trace. *)

From Stdlib Require Import ZArith List Bool Lia.
From Stdlib Require Import Strings.Byte Strings.String.
From stdpp Require Import base list.

Open Scope Z_scope.

(** ** Machine integers *)

(** nginx builds with a pointer size of 4 or 8 bytes; [ngx_int_t] and
    [ngx_uint_t] are [intptr_t] and [uintptr_t], [ngx_msec_t] and
    [ngx_atomic_t] are as wide. *)
Inductive ptr_size : Set := PTR4 | PTR8.

Definition NGX_PTR_SIZE (P : ptr_size) : Z :=
  match P with PTR4 => 4 | PTR8 => 8 end.

Definition word_bits (P : ptr_size) : Z := 8 * NGX_PTR_SIZE P.

Definition word_modulus (P : ptr_size) : Z := 2 ^ word_bits P.

(** Conversion to [ngx_uint_t] (and [ngx_msec_t], [size_t]). *)
Definition to_uint (P : ptr_size) (x : Z) : Z := x mod word_modulus P.

(** Conversion to [ngx_int_t] (and [ssize_t]), two's complement. *)
Definition to_int (P : ptr_size) (x : Z) : Z :=
  (x + word_modulus P / 2) mod word_modulus P - word_modulus P / 2.

Definition NGX_MAX_INT_T_VALUE (P : ptr_size) : Z := word_modulus P / 2 - 1.

Definition NGX_OK : Z := 0.
Definition NGX_ERROR : Z := -1.
Definition NGX_AGAIN : Z := -2.
Definition NGX_HTTP_OK : Z := 200.

(** ** Bytes *)

(** The value of a [u_char] after integer promotion. *)
Definition uc (ch : byte) : Z := Z.of_N (Byte.to_N ch).

Definition SP : byte := " "%byte.
Definition CR : byte := x0d.
Definition LF : byte := x0a.

Definition bytes (s : string) : list byte := String.list_byte_of_string s.

(** ** The state enumeration *)

Inductive ngx_http_health_state : Set :=
  (* in progress *)
  | NGX_HEALTH_UNINIT_STATE
  | NGX_HEALTH_WAITING
  | NGX_HEALTH_SENDING_CHECK
  | NGX_HEALTH_READING_STAT_LINE
  | NGX_HEALTH_READING_STAT_CODE
  | NGX_HEALTH_READING_HEADER
  | NGX_HEALTH_HEADER_ALMOST_DONE
  | NGX_HEALTH_READING_BODY
  (* good and final *)
  | NGX_HEALTH_OK
  (* bad and final *)
  | NGX_HEALTH_BAD_HEADER
  | NGX_HEALTH_BAD_STATUS
  | NGX_HEALTH_BAD_BODY
  | NGX_HEALTH_BAD_STATE
  | NGX_HEALTH_BAD_CONN
  | NGX_HEALTH_BAD_CODE
  | NGX_HEALTH_TIMEOUT
  | NGX_HEALTH_FULL_BUFFER.

Definition health_state_value (s : ngx_http_health_state) : Z :=
  match s with
  | NGX_HEALTH_UNINIT_STATE => 0
  | NGX_HEALTH_WAITING => 1
  | NGX_HEALTH_SENDING_CHECK => 2
  | NGX_HEALTH_READING_STAT_LINE => 3
  | NGX_HEALTH_READING_STAT_CODE => 4
  | NGX_HEALTH_READING_HEADER => 5
  | NGX_HEALTH_HEADER_ALMOST_DONE => 6
  | NGX_HEALTH_READING_BODY => 7
  | NGX_HEALTH_OK => 100
  | NGX_HEALTH_BAD_HEADER => 200
  | NGX_HEALTH_BAD_STATUS => 201
  | NGX_HEALTH_BAD_BODY => 202
  | NGX_HEALTH_BAD_STATE => 203
  | NGX_HEALTH_BAD_CONN => 204
  | NGX_HEALTH_BAD_CODE => 205
  | NGX_HEALTH_TIMEOUT => 206
  | NGX_HEALTH_FULL_BUFFER => 207
  end.

(** [a == b] on the enumeration. *)
Definition state_eqb (a b : ngx_http_health_state) : bool :=
  health_state_value a =? health_state_value b.

(** ** Configuration and the two per-peer records *)

(** The healthcheck fields of [ngx_http_upstream_srv_conf_t].  The structure
    is declared by the patched nginx tree; the fields are the ones this
    module reads and writes.  [health_expected] is [None] while its length
    is [NGX_CONF_UNSET_SIZE] (no [healthcheck_expected] directive) and
    [Some data] once the directive stored [data] and its length. *)
Record ngx_http_upstream_srv_conf_t : Type := {
  healthcheck_enabled : bool;
  health_delay : Z;
  health_timeout : Z;
  health_failcount : Z;
  health_buffersize : Z;
  health_send : list byte;
  health_expected : option (list byte)
}.

(** [ngx_http_healthcheck_status_shm_t]: the slot in shared memory. *)
Module Shm.
Record t : Type := mk {
  owner : Z;
  index : Z;
  action_time : Z;
  concurrent : Z;
  since : Z;
  last_down : bool;
  down_code : ngx_http_health_state;
  lock : Z;
  down : Z
}.

Definition set_owner (v : Z) (s : t) : t :=
  mk v (index s) (action_time s) (concurrent s) (since s) (last_down s)
     (down_code s) (lock s) (down s).
Definition set_index (v : Z) (s : t) : t :=
  mk (owner s) v (action_time s) (concurrent s) (since s) (last_down s)
     (down_code s) (lock s) (down s).
Definition set_action_time (v : Z) (s : t) : t :=
  mk (owner s) (index s) v (concurrent s) (since s) (last_down s)
     (down_code s) (lock s) (down s).
Definition set_concurrent (v : Z) (s : t) : t :=
  mk (owner s) (index s) (action_time s) v (since s) (last_down s)
     (down_code s) (lock s) (down s).
Definition set_since (v : Z) (s : t) : t :=
  mk (owner s) (index s) (action_time s) (concurrent s) v (last_down s)
     (down_code s) (lock s) (down s).
Definition set_last_down (v : bool) (s : t) : t :=
  mk (owner s) (index s) (action_time s) (concurrent s) (since s) v
     (down_code s) (lock s) (down s).
Definition set_down_code (v : ngx_http_health_state) (s : t) : t :=
  mk (owner s) (index s) (action_time s) (concurrent s) (since s)
     (last_down s) v (lock s) (down s).
Definition set_lock (v : Z) (s : t) : t :=
  mk (owner s) (index s) (action_time s) (concurrent s) (since s)
     (last_down s) (down_code s) v (down s).
Definition set_down (v : Z) (s : t) : t :=
  mk (owner s) (index s) (action_time s) (concurrent s) (since s)
     (last_down s) (down_code s) (lock s) v.
End Shm.

(** [ngx_buf_t] as the module uses it: [received] are the bytes between
    [start] and [pos] (the write cursor), [capacity] is [end - start]. *)
Record ngx_buf_t : Type := {
  received : list byte;
  capacity : Z
}.

Definition buf_pos (rb : ngx_buf_t) : Z := Z.of_nat (length (received rb)).

(** [ngx_http_healthcheck_status_t]: the worker-private entry.  The peer
    connection [pc] and the two events are kept in the [world] below; [shm]
    points to the shared slot of the same index. *)
Module Stat.
Record t : Type := mk {
  conf : ngx_http_upstream_srv_conf_t;
  index : nat;
  state : ngx_http_health_state;
  check_start_time : Z;
  read_buffer : ngx_buf_t;
  read_pos : Z;
  body_read_pos : Z;
  send_pos : Z;
  stat_code : Z
}.

Definition set_state (v : ngx_http_health_state) (s : t) : t :=
  mk (conf s) (index s) v (check_start_time s) (read_buffer s) (read_pos s)
     (body_read_pos s) (send_pos s) (stat_code s).
Definition set_read_buffer (v : ngx_buf_t) (s : t) : t :=
  mk (conf s) (index s) (state s) (check_start_time s) v (read_pos s)
     (body_read_pos s) (send_pos s) (stat_code s).
Definition set_read_pos (v : Z) (s : t) : t :=
  mk (conf s) (index s) (state s) (check_start_time s) (read_buffer s) v
     (body_read_pos s) (send_pos s) (stat_code s).
Definition set_body_read_pos (v : Z) (s : t) : t :=
  mk (conf s) (index s) (state s) (check_start_time s) (read_buffer s)
     (read_pos s) v (send_pos s) (stat_code s).
Definition set_stat_code (v : Z) (s : t) : t :=
  mk (conf s) (index s) (state s) (check_start_time s) (read_buffer s)
     (read_pos s) (body_read_pos s) (send_pos s) v.
End Stat.

(** ** The response recognizer: [ngx_http_healthcheck_process_recv] *)

(** What one turn of the [while] loop leaves: either the function returned
    from inside the [switch], or the loop goes on. *)
Inductive loop_result : Type :=
  | Returned (rc : Z) (st : Stat.t)
  | Running (st : Stat.t).

Section Recognizer.
Variable P : ptr_size.

(** [(ssize_t) health_expected->len] and the bytes of
    [health_expected->data]. *)
Definition expected_len (cf : ngx_http_upstream_srv_conf_t) : Z :=
  match health_expected cf with
  | None => -1 (* (ssize_t) NGX_CONF_UNSET_SIZE *)
  | Some data => Z.of_nat (length data)
  end.

Definition expected_data (cf : ngx_http_upstream_srv_conf_t) : list byte :=
  default [] (health_expected cf).

(** The body of the [while] loop for the byte [ch] read at [read_pos]:
    [stat->read_pos++], then the [switch] on [stat->state].  In
    [NGX_HEALTH_READING_BODY] the byte is compared with
    [health_expected->data[body_read_pos]]; a position outside the
    expected bytes holds no byte to agree with. *)
Definition process_byte (st0 : Stat.t) (ch : byte) : loop_result :=
  let st := Stat.set_read_pos (Stat.read_pos st0 + 1) st0 in
  match Stat.state st with
  | NGX_HEALTH_READING_STAT_LINE =>
      if uc ch =? uc SP then
        Running (Stat.set_stat_code 0
                   (Stat.set_state NGX_HEALTH_READING_STAT_CODE st))
      else if (uc ch =? uc CR) || (uc ch =? uc LF) then
        Returned NGX_ERROR (Stat.set_state NGX_HEALTH_BAD_STATUS st)
      else Running st
  | NGX_HEALTH_READING_STAT_CODE =>
      if uc ch =? uc SP then
        if negb (Stat.stat_code st =? NGX_HTTP_OK) then
          Returned NGX_ERROR (Stat.set_state NGX_HEALTH_BAD_CODE st)
        else Running (Stat.set_state NGX_HEALTH_READING_HEADER st)
      else if (uc ch <? uc "0"%byte) || (uc ch >? uc "9"%byte) then
        Returned NGX_ERROR (Stat.set_state NGX_HEALTH_BAD_STATUS st)
      else
        Running (Stat.set_stat_code
                   (to_uint P (Stat.stat_code st * 10
                               + (uc ch - uc "0"%byte))) st)
  | NGX_HEALTH_READING_HEADER =>
      if uc ch =? uc LF then
        Running (Stat.set_state NGX_HEALTH_HEADER_ALMOST_DONE st)
      else Running st
  | NGX_HEALTH_HEADER_ALMOST_DONE =>
      if uc ch =? uc LF then
        match health_expected (Stat.conf st) with
        | None => Returned NGX_OK (Stat.set_state NGX_HEALTH_OK st)
        | Some _ => Running (Stat.set_state NGX_HEALTH_READING_BODY st)
        end
      else if negb (uc ch =? uc CR) then
        Running (Stat.set_state NGX_HEALTH_READING_HEADER st)
      else Running st
  | NGX_HEALTH_READING_BODY =>
      if Stat.body_read_pos st =? expected_len (Stat.conf st) then
        Returned NGX_ERROR (Stat.set_state NGX_HEALTH_BAD_BODY st)
      else
        match expected_data (Stat.conf st)
                !! Z.to_nat (Stat.body_read_pos st) with
        | Some e =>
            if negb (uc ch =? uc e) then
              Returned NGX_ERROR (Stat.set_state NGX_HEALTH_BAD_BODY st)
            else
              Running (Stat.set_body_read_pos (Stat.body_read_pos st + 1) st)
        | None =>
            Returned NGX_ERROR (Stat.set_state NGX_HEALTH_BAD_BODY st)
        end
  | _ => Returned NGX_ERROR (Stat.set_state NGX_HEALTH_BAD_STATE st)
  end.

(** The [while (rb->start + stat->read_pos < rb->pos)] loop over the bytes
    that lie between [read_pos] and the write cursor. *)
Fixpoint process_bytes (st : Stat.t) (bs : list byte) : loop_result :=
  match bs with
  | [] => Running st
  | ch :: bs' =>
      match process_byte st ch with
      | Returned rc st' => Returned rc st'
      | Running st' => process_bytes st' bs'
      end
  end.

(** The test after the loop. *)
Definition after_loop (st : Stat.t) : Z * Stat.t :=
  if state_eqb (Stat.state st) NGX_HEALTH_READING_BODY
     && (Stat.body_read_pos st =? expected_len (Stat.conf st))
  then (NGX_OK, Stat.set_state NGX_HEALTH_OK st)
  else if state_eqb (Stat.state st) NGX_HEALTH_OK then (NGX_OK, st)
  else (NGX_AGAIN, st).

Definition ngx_http_healthcheck_process_recv (st : Stat.t) : Z * Stat.t :=
  let rb := Stat.read_buffer st in
  match process_bytes st (drop (Z.to_nat (Stat.read_pos st)) (received rb))
  with
  | Returned rc st' => (rc, st')
  | Running st' => after_loop st'
  end.

End Recognizer.

(** ** The worker's view of one peer *)

(** The two per-peer events and the read event of the probe connection. *)
Inductive ngx_event_t : Set :=
  | health_ev (i : nat)
  | ownership_ev (i : nat)
  | read_ev (i : nat).

(** What a handler does to the outside, in program order.  [log_finished]
    is the debug line that [ngx_http_healthcheck_mark_finished] writes on
    entry, with the state the probe ended in; [recv_call] records the size
    asked for and the result. *)
Inductive event : Type :=
  | ngx_add_timer (ev : ngx_event_t) (timer : Z)
  | ngx_del_timer (ev : ngx_event_t)
  | ngx_spinlock (value : Z)
  | ngx_atomic_cmp_set (old set : Z) (swapped : bool)
  | lock_reset
  | recv_call (size : Z) (result : Z)
  | ngx_close_connection
  | log_finished (state : ngx_http_health_state)
  | log_crit
  | log_warn.

(** What the next [c->recv] call meets on the socket: an error, nothing
    (it would block), or the bytes that have come in by then ([segment []]
    is the peer's close and makes [recv] return 0). *)
Inductive recv_event : Type :=
  | recv_error
  | recv_again
  | segment (bs : list byte).

(** The process-wide variables the handlers read. *)
Record process : Type := {
  ngx_pid : Z;
  ngx_current_msec : Z;
  ngx_terminate : bool;
  ngx_exiting : bool;
  ngx_quit : bool;
  nelts : nat (* ngx_http_healthchecks_arr->nelts *)
}.

Definition shutting_down (p : process) : bool :=
  ngx_terminate p || ngx_exiting p || ngx_quit p.

Record world : Type := {
  stat : Stat.t;
  shm : Shm.t;
  socket : list recv_event;
  trace : list event
}.

Definition with_stat (f : Stat.t -> Stat.t) (w : world) : world :=
  {| stat := f (stat w); shm := shm w; socket := socket w; trace := trace w |}.

Definition with_shm (f : Shm.t -> Shm.t) (w : world) : world :=
  {| stat := stat w; shm := f (shm w); socket := socket w; trace := trace w |}.

Definition with_socket (c : list recv_event) (w : world) : world :=
  {| stat := stat w; shm := shm w; socket := c; trace := trace w |}.

Definition emit (e : event) (w : world) : world :=
  {| stat := stat w; shm := shm w; socket := socket w;
     trace := trace w ++ [e] |}.

(** The events a handler added when it took [w] to [w']. *)
Definition emitted (w w' : world) : list event :=
  drop (length (trace w)) (trace w').

(** [c->recv(c, buf, size)]: the result, the bytes stored at [buf] and what
    the later calls will meet.  A call takes at most [size] bytes; what
    does not fit stays on the socket. *)
Definition recv (size : Z) (c : list recv_event)
  : Z * list byte * list recv_event :=
  match c with
  | [] => (NGX_AGAIN, [], [])
  | recv_error :: c' => (NGX_ERROR, [], c')
  | recv_again :: c' => (NGX_AGAIN, [], c')
  | segment bs :: c' =>
      let got := take (Z.to_nat size) bs in
      let rest := drop (Z.to_nat size) bs in
      (Z.of_nat (length got), got,
       match rest with [] => c' | _ => segment rest :: c' end)
  end.

Definition buf_append (got : list byte) (rb : ngx_buf_t) : ngx_buf_t :=
  {| received := received rb ++ got; capacity := capacity rb |}.

Section Handlers.
Variable P : ptr_size.
Variable p : process.

(** [ngx_http_healthcheck_clear_events]. *)
Definition ngx_http_healthcheck_clear_events (w : world) : world :=
  foldl (fun w i => emit (ngx_del_timer (ownership_ev i))
                      (emit (ngx_del_timer (health_ev i)) w))
        w (seq 0 (nelts p)).

(** The first [if] of [ngx_http_healthcheck_mark_finished]: the run of
    like verdicts.  [concurrent++] is an increment of an [ngx_int_t]. *)
Definition count_verdict (st : ngx_http_health_state) (s : Shm.t) : Shm.t :=
  if state_eqb st NGX_HEALTH_OK then
    if Shm.last_down s then
      Shm.set_since (ngx_current_msec p)
        (Shm.set_concurrent 1 (Shm.set_last_down false s))
    else Shm.set_concurrent (to_int P (Shm.concurrent s + 1)) s
  else
    if Shm.last_down s then
      Shm.set_concurrent (to_int P (Shm.concurrent s + 1)) s
    else
      Shm.set_since (ngx_current_msec p)
        (Shm.set_concurrent 1 (Shm.set_last_down true s)).

(** The second [if]: publish once the run is long enough. *)
Definition publish_down (failcount : Z) (s : Shm.t) : Shm.t :=
  if Shm.concurrent s >=? failcount
  then Shm.set_down (Z.b2z (Shm.last_down s)) s
  else s.

Definition ngx_http_healthcheck_mark_finished (w0 : world) : world :=
  let t := Stat.state (stat w0) in
  let cf := Stat.conf (stat w0) in
  let w := emit (log_finished t) w0 in
  let w := with_shm (count_verdict t) w in
  let w := with_shm (publish_down (health_failcount cf)) w in
  let w := with_shm (Shm.set_down_code t) w in
  let w := emit ngx_close_connection w in
  let w := with_stat (Stat.set_state NGX_HEALTH_WAITING) w in
  let w :=
    if negb (shutting_down p) then
      emit (ngx_add_timer (health_ev (Stat.index (stat w))) (health_delay cf)) w
    else ngx_http_healthcheck_clear_events w in
  with_shm (Shm.set_action_time (ngx_current_msec p)) w.

(** The [do ... while (rb->end < rb->pos)] loop of the read handler, with
    [fuel] for its turns; the handler gives it more turns than the buffer
    has bytes, and [read_loop_once] shows that it never takes a second
    one. *)
Fixpoint read_loop (fuel : nat) (w : world) : world :=
  match fuel with
  | O => w
  | S fuel' =>
      let rb := Stat.read_buffer (stat w) in
      let want := capacity rb - buf_pos rb in
      let '(size, got, c') := recv want (socket w) in
      let w := emit (recv_call want size) (with_socket c' w) in
      if size =? NGX_ERROR then
        with_stat (Stat.set_state NGX_HEALTH_BAD_CONN) w
      else if size =? NGX_AGAIN then w
      else if size =? 0 then
        with_stat (Stat.set_state NGX_HEALTH_BAD_CONN) w
      else
        let w := with_stat (Stat.set_read_buffer (buf_append got rb)) w in
        let rb := Stat.read_buffer (stat w) in
        if capacity rb <? buf_pos rb then read_loop fuel' w else w
  end.

Definition buffer_full (w : world) : bool :=
  capacity (Stat.read_buffer (stat w)) =? buf_pos (Stat.read_buffer (stat w)).

Definition timed_out (w : world) : bool :=
  to_uint P (ngx_current_msec p - Stat.check_start_time (stat w))
  >=? health_timeout (Stat.conf (stat w)).

(** The part of the read handler after the receive loop. *)
Definition judge (w : world) : world :=
  if negb (state_eqb (Stat.state (stat w)) NGX_HEALTH_BAD_CONN) then
    let '(rc, st') := ngx_http_healthcheck_process_recv P (stat w) in
    let w := with_stat (fun _ => st') w in
    if rc =? NGX_AGAIN then
      if buffer_full w then
        ngx_http_healthcheck_mark_finished
          (with_stat (Stat.set_state NGX_HEALTH_FULL_BUFFER) w)
      else w
    else if rc =? NGX_ERROR then ngx_http_healthcheck_mark_finished w
    else if rc =? NGX_OK then ngx_http_healthcheck_mark_finished w
    else emit log_warn w
  else ngx_http_healthcheck_mark_finished w.

Definition ngx_http_healthcheck_read_handler (w0 : world) : world :=
  let w := with_shm (Shm.set_action_time (ngx_current_msec p)) w0 in
  if timed_out w then
    ngx_http_healthcheck_mark_finished
      (with_stat (Stat.set_state NGX_HEALTH_TIMEOUT) w)
  else
    judge (read_loop (S (Z.to_nat (capacity (Stat.read_buffer (stat w))))) w).

(** [ngx_spinlock(&stat->shm->lock, ngx_pid, 1024)] returns once it has
    swapped the lock from 0 to [ngx_pid]; while another worker holds the
    lock it keeps spinning, and the handler has no result. *)
Definition spin (w : world) : option world :=
  if Shm.lock (shm w) =? 0
  then Some (emit (ngx_spinlock (ngx_pid p))
               (with_shm (Shm.set_lock (ngx_pid p)) w))
  else None.

Definition stale (w : world) : bool :=
  to_uint P (ngx_current_msec p - Shm.action_time (shm w))
  >=? to_uint P (to_uint P (health_delay (Stat.conf (stat w))
                            + health_timeout (Stat.conf (stat w))) * 3).

(** The critical section: the new world and [i_own_it]. *)
Definition claim (w : world) : world * bool :=
  if Shm.owner (shm w) =? ngx_pid p then (w, true)
  else if stale w then
    let w := with_shm (Shm.set_owner (ngx_pid p)) w in
    let w := with_shm (Shm.set_action_time (ngx_current_msec p)) w in
    let w := with_stat (Stat.set_state NGX_HEALTH_WAITING) w in
    let w := emit (ngx_add_timer (health_ev (Stat.index (stat w)))
                     (health_delay (Stat.conf (stat w)))) w in
    (w, true)
  else (w, false).

(** [ngx_atomic_cmp_set(&lock, ngx_pid, 0)] and the fallback. *)
Definition release (w : world) : world :=
  if Shm.lock (shm w) =? ngx_pid p then
    emit (ngx_atomic_cmp_set (ngx_pid p) 0 true)
      (with_shm (Shm.set_lock 0) w)
  else
    let w := emit (ngx_atomic_cmp_set (ngx_pid p) 0 false) w in
    let w := emit log_crit w in
    emit lock_reset (with_shm (Shm.set_lock 0) w).

Definition ngx_http_healthcheck_try_for_ownership (w : world)
  : option world :=
  if shutting_down p then Some (ngx_http_healthcheck_clear_events w)
  else
    match spin w with
    | None => None
    | Some w =>
        let '(w, i_own_it) := claim w in
        let w := release w in
        if negb i_own_it then
          Some (emit (ngx_add_timer (ownership_ev (Stat.index (stat w)))
                        (to_uint P (health_delay (Stat.conf (stat w)) * 10)))
                  w)
        else Some w
    end.

End Handlers.

(** ** The shared zone and the status query *)

(** The four stores of the loop of [ngx_http_healthcheck_init_zone]. *)
Definition init_slot (now : Z) (i : nat) (s : Shm.t) : Shm.t :=
  Shm.set_since now
    (Shm.set_down 0 (Shm.set_action_time 0 (Shm.set_index (Z.of_nat i) s))).

(** [for (i = 0; i < nelts; i++)] over the allocated array. *)
Fixpoint init_slots (now : Z) (n : nat) (fuel i : nat) (tbl : list Shm.t)
  : list Shm.t :=
  match fuel with
  | O => tbl
  | S fuel' =>
      if (i <? n)%nat
      then init_slots now n fuel' (S i) (alter (init_slot now i) i tbl)
      else tbl
  end.

(** The module's pointer to the shared table and the zone's [data]. *)
Record zone : Type := {
  ngx_http_healthchecks_shm : option (list Shm.t);
  zone_data : option (list Shm.t)
}.

(** [ngx_http_healthcheck_init_zone].  [data] is the callback's argument
    (the table of the previous cycle on a reload, [None] on the first
    mapping); [slab] is what [ngx_slab_alloc] returns: [None] for [NULL],
    or the allocated slots with whatever the memory holds. *)
Definition ngx_http_healthcheck_init_zone (now : Z) (n : nat)
    (data slab : option (list Shm.t)) (z : zone) : Z * zone :=
  match data with
  | Some d =>
      (NGX_OK, {| ngx_http_healthchecks_shm := ngx_http_healthchecks_shm z;
                  zone_data := Some d |})
  | None =>
      match slab with
      | None =>
          (NGX_ERROR, {| ngx_http_healthchecks_shm := None;
                         zone_data := zone_data z |})
      | Some raw =>
          let tbl := init_slots now n n 0 raw in
          (NGX_OK, {| ngx_http_healthchecks_shm := Some tbl;
                      zone_data := Some tbl |})
      end
  end.

(** [ngx_http_healthcheck_is_down]: [arr] is the worker's array of private
    entries, [tbl] the shared table; after [ngx_http_healthcheck_procinit]
    entry [i] points to slot [i].  The three operands of [&&] are evaluated
    from left to right, each only if the ones before it hold. *)
Definition ngx_http_healthcheck_is_down (arr : list Stat.t)
    (tbl : list Shm.t) (index : nat) : Z :=
  if (index <? length arr)%nat then
    match arr !! index with
    | Some st =>
        if healthcheck_enabled (Stat.conf st) then
          match tbl !! index with
          | Some s => if Shm.down s =? 0 then 0 else 1
          | None => 0
          end
        else 0
    | None => 0
    end
  else 0.

(** ** Feeding a response to the recognizer *)

(** A probe that has sent its request and has received nothing yet. *)
Definition fresh (st : Stat.t) : Prop :=
  Stat.state st = NGX_HEALTH_READING_STAT_LINE
  /\ Stat.read_pos st = 0
  /\ Stat.body_read_pos st = 0
  /\ received (Stat.read_buffer st) = [].

(** [bs] arrives in the read buffer. *)
Definition deliver (bs : list byte) (st : Stat.t) : Stat.t :=
  Stat.set_read_buffer (buf_append bs (Stat.read_buffer st)) st.

(** One readable event with [bs]: the bytes arrive and the recognizer runs. *)
Definition feed (P : ptr_size) (st : Stat.t) (bs : list byte) : Z * Stat.t :=
  ngx_http_healthcheck_process_recv P (deliver bs st).

(** Two readable events in sequence; the probe is over, and the second
    chunk is never looked at, when the first one gives a verdict. *)
Definition feed_twice (P : ptr_size) (st : Stat.t) (xs ys : list byte)
  : Z * Stat.t :=
  let '(rc, st1) := feed P st xs in
  if rc =? NGX_AGAIN then feed P st1 ys else (rc, st1).

Definition verdict (r : Z * Stat.t) : Z * ngx_http_health_state :=
  (fst r, Stat.state (snd r)).

(** The recognizer stands, after the bytes [bs], in
    [NGX_HEALTH_READING_BODY] with the whole expected body matched. *)
Definition matched_at_end (P : ptr_size) (st : Stat.t) (bs : list byte)
  : bool :=
  match process_bytes P st bs with
  | Running s =>
      state_eqb (Stat.state s) NGX_HEALTH_READING_BODY
      && (Stat.body_read_pos s =? expected_len (Stat.conf s))
  | Returned _ _ => false
  end.

(** Where [body_read_pos] stands during a probe: at 0 until the body is read,
    and then within the expected bytes, which are set. *)
Definition body_cursor_ok (st : Stat.t) : Prop :=
  if state_eqb (Stat.state st) NGX_HEALTH_READING_BODY
  then exists e, health_expected (Stat.conf st) = Some e
                 /\ 0 <= Stat.body_read_pos st <= Z.of_nat (length e)
  else Stat.body_read_pos st = 0.

(** The recognizer has consumed all the bytes of the read buffer. *)
Definition caught_up (st : Stat.t) : Prop :=
  Stat.read_pos st = buf_pos (Stat.read_buffer st).

(** The five states in which the recognizer reads on. *)
Definition parsing (s : ngx_http_health_state) : bool :=
  match s with
  | NGX_HEALTH_READING_STAT_LINE | NGX_HEALTH_READING_STAT_CODE
  | NGX_HEALTH_READING_HEADER | NGX_HEALTH_HEADER_ALMOST_DONE
  | NGX_HEALTH_READING_BODY => true
  | _ => false
  end.

Definition on_result (f : Stat.t -> Stat.t) (r : loop_result) : loop_result :=
  match r with
  | Returned rc st => Returned rc (f st)
  | Running st => Running (f st)
  end.

(** How [ngx_http_healthcheck_process_recv] ends after its loop. *)
Definition finish (r : loop_result) : Z * Stat.t :=
  match r with
  | Returned rc st => (rc, st)
  | Running st => after_loop st
  end.

(** A configuration, a probe that has just sent its request, and a reply,
    used where a statement is tried on concrete data. *)
Definition sample_conf (size : Z) : ngx_http_upstream_srv_conf_t :=
  {| healthcheck_enabled := true;
     health_delay := 1000;
     health_timeout := 500;
     health_failcount := 2;
     health_buffersize := size;
     health_send := bytes "GET /health HTTP/1.0" ++ [CR; LF; CR; LF];
     health_expected := Some (bytes "pong") |}.

Definition sample_stat (size : Z) : Stat.t :=
  {| Stat.conf := sample_conf size;
     Stat.index := 0;
     Stat.state := NGX_HEALTH_READING_STAT_LINE;
     Stat.check_start_time := 5000;
     Stat.read_buffer := {| received := []; capacity := size |};
     Stat.read_pos := 0;
     Stat.body_read_pos := 0;
     Stat.send_pos := 24;
     Stat.stat_code := 0 |}.

Definition sample_reply : list byte :=
  bytes "HTTP/1.1 200 OK" ++ [CR; LF; CR; LF] ++ bytes "pong".

(** One turn of the receive loop, without the test that follows it. *)
Definition read_once (w : world) : world :=
  let rb := Stat.read_buffer (stat w) in
  let want := capacity rb - buf_pos rb in
  let '(size, got, c') := recv want (socket w) in
  let w := emit (recv_call want size) (with_socket c' w) in
  if size =? NGX_ERROR then with_stat (Stat.set_state NGX_HEALTH_BAD_CONN) w
  else if size =? NGX_AGAIN then w
  else if size =? 0 then with_stat (Stat.set_state NGX_HEALTH_BAD_CONN) w
  else with_stat (Stat.set_read_buffer (buf_append got rb)) w.

(** What [ngx_http_healthcheck_mark_finished] adds to the trace. *)
Definition finished_events (p : process) (st : Stat.t) : list event :=
  log_finished (Stat.state st) :: ngx_close_connection
  :: (if shutting_down p
      then flat_map (fun i => [ngx_del_timer (health_ev i);
                               ngx_del_timer (ownership_ev i)])
             (seq 0 (nelts p))
      else [ngx_add_timer (health_ev (Stat.index st))
              (health_delay (Stat.conf st))]).

Definition sample_process (quit : bool) : process :=
  {| ngx_pid := 4242;
     ngx_current_msec := 5100;
     ngx_terminate := false;
     ngx_exiting := false;
     ngx_quit := quit;
     nelts := 1 |}.

Definition sample_shm (pid : Z) : Shm.t :=
  {| Shm.owner := pid;
     Shm.index := 0;
     Shm.action_time := 100;
     Shm.concurrent := 3;
     Shm.since := 40;
     Shm.last_down := false;
     Shm.down_code := NGX_HEALTH_OK;
     Shm.lock := 0;
     Shm.down := 0 |}.

Definition sample_world (size owner : Z) (c : list recv_event) : world :=
  {| stat := sample_stat size;
     shm := sample_shm owner;
     socket := c;
     trace := [] |}.

(** A probe in the middle of the status code, [code] accumulated so far. *)
Definition sample_code_stat (code : Z) : Stat.t :=
  Stat.set_stat_code code
    (Stat.set_read_pos 12
       (Stat.set_state NGX_HEALTH_READING_STAT_CODE
          (deliver (bytes "HTTP/1.1 200") (sample_stat 64)))).

(** A reply of which two successive [recv] calls would each return a part,
    a third call finding nothing more. *)
Definition sample_segments : list recv_event :=
  [segment (bytes "HTTP/1.1 ");
   segment (bytes "200 OK" ++ [CR; LF; CR; LF] ++ bytes "pong");
   recv_again].

(** Slots as the allocator may hand them out. *)
Definition sample_raw : list Shm.t :=
  [ {| Shm.owner := 7; Shm.index := 99; Shm.action_time := 12345;
       Shm.concurrent := -4; Shm.since := 1; Shm.last_down := true;
       Shm.down_code := NGX_HEALTH_BAD_HEADER; Shm.lock := 31;
       Shm.down := 1 |};
    {| Shm.owner := 8; Shm.index := 98; Shm.action_time := 54321;
       Shm.concurrent := 17; Shm.since := 2; Shm.last_down := false;
       Shm.down_code := NGX_HEALTH_TIMEOUT; Shm.lock := 0;
       Shm.down := 5 |} ].

(** The value of a string of decimal digits. *)
Definition decimal (ds : list byte) : Z :=
  foldl (fun acc d => acc * 10 + (uc d - uc "0"%byte)) 0 ds.

(** What [stat_code = stat_code * 10 + (ch - '0')] leaves in the
    [ngx_uint_t] after the digits [ds], starting from [c]. *)
Definition accumulate (P : ptr_size) (c : Z) (ds : list byte) : Z :=
  foldl (fun acc d => to_uint P (acc * 10 + (uc d - uc "0"%byte))) c ds.

Definition is_digit (ch : byte) : Prop := uc "0"%byte <= uc ch <= uc "9"%byte.

(** The events of a trace during which the slot's lock is held: after an
    [ngx_spinlock] and before the compare-and-set that swaps the lock back
    (or the reset). *)
Fixpoint while_locked (held : bool) (tr : list event) : list event :=
  match tr with
  | [] => []
  | ngx_spinlock _ :: tr' => while_locked true tr'
  | ngx_atomic_cmp_set _ _ true :: tr' => while_locked false tr'
  | lock_reset :: tr' => while_locked false tr'
  | e :: tr' => if held then e :: while_locked held tr' else while_locked held tr'
  end.

Definition timer_or_io (e : event) : bool :=
  match e with
  | ngx_add_timer _ _ | ngx_del_timer _ | recv_call _ _
  | ngx_close_connection | log_finished _ | log_crit | log_warn => true
  | _ => false
  end.

(** ** The write side and the start of a probe *)

(** What the next [c->send] call meets: an error, a socket that would
    block, or room for [n] bytes ([accept 0] makes [send] return 0). *)
Inductive send_event : Type :=
  | send_error
  | send_again
  | accept (n : nat).

(** The outgoing side of the probe connection: the results of the coming
    [send] calls and the bytes the peer has been sent so far. *)
Record outgoing : Type := {
  sends : list send_event;
  wire : list byte
}.

(** [c->send(c, data, size)], with [data] the [size] bytes offered. *)
Definition send (data : list byte) (c : outgoing) : Z * outgoing :=
  match sends c with
  | [] => (NGX_AGAIN, c)
  | send_error :: s => (NGX_ERROR, {| sends := s; wire := wire c |})
  | send_again :: s => (NGX_AGAIN, {| sends := s; wire := wire c |})
  | accept n :: s =>
      (Z.of_nat (length (take n data)),
       {| sends := s; wire := wire c ++ take n data |})
  end.

Definition set_send_pos (v : Z) (s : Stat.t) : Stat.t :=
  Stat.mk (Stat.conf s) (Stat.index s) (Stat.state s)
    (Stat.check_start_time s) (Stat.read_buffer s) (Stat.read_pos s)
    (Stat.body_read_pos s) v (Stat.stat_code s).

Definition set_check_start_time (v : Z) (s : Stat.t) : Stat.t :=
  Stat.mk (Stat.conf s) (Stat.index s) (Stat.state s) v
    (Stat.read_buffer s) (Stat.read_pos s) (Stat.body_read_pos s)
    (Stat.send_pos s) (Stat.stat_code s).

(** [health_send.len] and the bytes [health_send.data + send_pos] of
    length [health_send.len - send_pos]. *)
Definition send_len (st : Stat.t) : Z :=
  Z.of_nat (length (health_send (Stat.conf st))).

Definition unsent (st : Stat.t) : list byte :=
  drop (Z.to_nat (Stat.send_pos st)) (health_send (Stat.conf st)).

Section WriteSide.
Variable P : ptr_size.
Variable p : process.

(** The [do ... while (stat->send_pos < (ssize_t)stat->conf->health_send.len)]
    loop of [ngx_http_healthcheck_write_handler]. *)
Fixpoint write_loop (fuel : nat) (w : world) (c : outgoing)
  : world * outgoing :=
  match fuel with
  | O => (w, c)
  | S fuel' =>
      let '(size, c) := send (unsent (stat w)) c in
      if (size =? NGX_ERROR) || (size =? 0) then
        let w := with_stat (Stat.set_state NGX_HEALTH_BAD_CONN) w in
        let w := ngx_http_healthcheck_mark_finished P p w in
        (with_shm (Shm.set_action_time (ngx_current_msec p)) w, c)
      else if size =? NGX_AGAIN then (w, c)
      else
        let w := with_shm (Shm.set_action_time (ngx_current_msec p)) w in
        let w := with_stat (set_send_pos (Stat.send_pos (stat w) + size)) w in
        if Stat.send_pos (stat w) <? send_len (stat w)
        then write_loop fuel' w c
        else (w, c)
  end.

(** [ngx_http_healthcheck_write_handler].  Every turn of the loop but the
    last moves [send_pos] forward, so the loop is given one turn more than
    there are bytes left to send. *)
Definition ngx_http_healthcheck_write_handler (w : world) (c : outgoing)
  : world * outgoing :=
  if negb (state_eqb (Stat.state (stat w)) NGX_HEALTH_SENDING_CHECK)
  then (w, c)
  else
    let '(w, c) :=
      write_loop (S (Z.to_nat (send_len (stat w) - Stat.send_pos (stat w))))
        w c in
    if Stat.send_pos (stat w) >? send_len (stat w) then (emit log_warn w, c)
    else if Stat.send_pos (stat w) =? send_len (stat w) then
      (with_stat (Stat.set_state NGX_HEALTH_READING_STAT_LINE) w, c)
    else (w, c).

(** [ngx_http_healthcheck_begin_healthcheck].  [ngx_event_connect_peer]
    gives the probe a new connection: [fresh_socket] is what its [recv]
    calls will meet and [fresh_sends] what its [send] calls will. *)
Definition ngx_http_healthcheck_begin_healthcheck
    (fresh_socket : list recv_event) (fresh_sends : list send_event)
    (w : world) : world * outgoing :=
  let w :=
    if negb (state_eqb (Stat.state (stat w)) NGX_HEALTH_WAITING)
    then emit log_warn w else w in
  let w := with_socket fresh_socket w in
  let w := with_stat (Stat.set_state NGX_HEALTH_SENDING_CHECK) w in
  let w := with_shm (Shm.set_action_time (ngx_current_msec p)) w in
  let w := with_stat (Stat.set_read_pos 0) w in
  let w := with_stat (set_send_pos 0) w in
  let w := with_stat (Stat.set_body_read_pos 0) w in
  let w := with_stat
             (fun st => Stat.set_read_buffer
                          {| received := [];
                             capacity := capacity (Stat.read_buffer st) |} st)
             w in
  let w := with_stat (set_check_start_time (ngx_current_msec p)) w in
  let w := emit (ngx_add_timer (read_ev (Stat.index (stat w)))
                   (health_timeout (Stat.conf (stat w)))) w in
  (w, {| sends := fresh_sends; wire := [] |}).

End WriteSide.

(** What the write handler keeps between two writable notifications of a
    probe: [send_pos] lies within the payload and the peer has been sent
    exactly the bytes before it. *)
Definition sent_so_far (w : world) (c : outgoing) : Prop :=
  0 <= Stat.send_pos (stat w) <= send_len (stat w)
  /\ wire c = take (Z.to_nat (Stat.send_pos (stat w)))
                (health_send (Stat.conf (stat w))).

(** How the loop of the write handler leaves a probe [w] that was sending:
    the private entry differs in its state and [send_pos] at most, the
    bytes before [send_pos] are on the wire, and either the probe is still
    sending and nothing but the slot's [action_time] was touched, or the
    probe was finished as a bad connection before the payload was out. *)
Definition write_post (p : process) (w w' : world) (c' : outgoing) : Prop :=
  set_send_pos (Stat.send_pos (stat w'))
    (Stat.set_state (Stat.state (stat w')) (stat w)) = stat w'
  /\ socket w' = socket w
  /\ sent_so_far w' c'
  /\ Stat.send_pos (stat w) <= Stat.send_pos (stat w')
  /\ ((Stat.state (stat w') = NGX_HEALTH_SENDING_CHECK
       /\ trace w' = trace w
       /\ Shm.set_action_time (Shm.action_time (shm w')) (shm w) = shm w')
      \/ (Stat.state (stat w') = NGX_HEALTH_WAITING
          /\ Stat.send_pos (stat w') < send_len (stat w')
          /\ trace w'
             = trace w
               ++ finished_events p
                    (Stat.set_state NGX_HEALTH_BAD_CONN (stat w))
          /\ Shm.down_code (shm w') = NGX_HEALTH_BAD_CONN)).

(** ** The shape of a reply *)

(** The protocol token before the first space: no space, no line end. *)
Definition token (l : list byte) : Prop :=
  Forall (fun ch => ch <> SP /\ ch <> CR /\ ch <> LF) l.

(** The bytes of a line, up to its [\n]. *)
Definition line (l : list byte) : Prop := Forall (fun ch => ch <> LF) l.

(** A line of carriage returns only: with its [\n] it ends the headers. *)
Definition blank (l : list byte) : Prop := Forall (fun ch => ch = CR) l.

(** A reply up to the end of its headers: the token, the status code, the
    rest of the status line, the header lines and the blank line. *)
Definition reply_head (proto ds reason : list byte)
    (headers : list (list byte)) (crs : list byte) : list byte :=
  proto ++ [SP] ++ ds ++ [SP] ++ reason ++ [LF]
  ++ concat (map (fun h => h ++ [LF]) headers) ++ crs ++ [LF].

(** ** The read buffer and its cursors *)

(** The recognizer's cursor lies within the received bytes and these
    within the buffer. *)
Definition buffer_ok (st : Stat.t) : Prop :=
  0 <= Stat.read_pos st <= buf_pos (Stat.read_buffer st)
  /\ buf_pos (Stat.read_buffer st) <= capacity (Stat.read_buffer st).

(** The [recv] calls of a trace. *)
Definition recv_calls (tr : list event) : list event :=
  List.filter
    (fun e => match e with recv_call _ _ => true | _ => false end) tr.

(** ** Probes in a row *)

(** A probe ends: a handler stores the state [t] the probe ended in and
    calls [ngx_http_healthcheck_mark_finished], in the process state [p]
    of that moment. *)
Definition finish_probe (P : ptr_size) (w : world)
    (end_ : process * ngx_http_health_state) : world :=
  ngx_http_healthcheck_mark_finished P (fst end_)
    (with_stat (Stat.set_state (snd end_)) w).

(** Probes of one peer ending one after the other. *)
Definition finish_probes (P : ptr_size) (w : world)
    (ends : list (process * ngx_http_health_state)) : world :=
  foldl (finish_probe P) w ends.

(** The probe ended badly. *)
Definition bad_end (t : ngx_http_health_state) : bool :=
  negb (state_eqb t NGX_HEALTH_OK).

(** ** Registration, directives and the status page *)

Definition set_conf (v : ngx_http_upstream_srv_conf_t) (s : Stat.t) : Stat.t :=
  Stat.mk v (Stat.index s) (Stat.state s) (Stat.check_start_time s)
    (Stat.read_buffer s) (Stat.read_pos s) (Stat.body_read_pos s)
    (Stat.send_pos s) (Stat.stat_code s).

Definition set_index (v : nat) (s : Stat.t) : Stat.t :=
  Stat.mk (Stat.conf s) v (Stat.state s) (Stat.check_start_time s)
    (Stat.read_buffer s) (Stat.read_pos s) (Stat.body_read_pos s)
    (Stat.send_pos s) (Stat.stat_code s).

(** [ngx_http_healthcheck_add_peer] on the array of private entries.
    [pushed] is what [ngx_array_push] returns: [None] for [NULL], or the
    new element with whatever its memory holds; [pc_ok] says whether the
    allocation of the peer connection succeeds.  The peer's address and
    the connection are not part of [Stat.t]. *)
Definition ngx_http_healthcheck_add_peer (uscf : ngx_http_upstream_srv_conf_t)
    (pushed : option Stat.t) (pc_ok : bool) (arr : list Stat.t)
  : Z * list Stat.t :=
  match pushed with
  | None => (NGX_ERROR, arr)
  | Some raw =>
      let arr' := arr ++ [raw] in
      let status := set_index (length arr' - 1) (set_conf uscf raw) in
      let arr' := <[(length arr' - 1)%nat := status]> arr' in
      if pc_ok then (Z.of_nat (length arr' - 1), arr')
      else (NGX_ERROR, arr')
  end.

(** Every entry of the array carries its own position. *)
Definition indexed (arr : list Stat.t) : Prop :=
  forall (i : nat) (st : Stat.t), arr !! i = Some st -> Stat.index st = i.

(** [ngx_memcpy(data + at, src, n)] into an allocated block [data]; a
    copy that would leave the block has no defined result. *)
Definition memcpy_at (data : list byte) (at_ : nat) (src : list byte)
  : option (list byte) :=
  if (at_ + length src <=? length data)%nat
  then Some (take at_ data ++ src ++ drop (at_ + length src) data)
  else None.

(** The two loops of [ngx_http_healthcheck_send] over the arguments
    [value[i]], [i] from 1: the one that adds up [health_send.len] and the
    one that copies into the block at the offset [at].  Lengths are those
    of strings held in memory, far below the range of [size_t]. *)
Fixpoint send_length (i : nat) (value : list (list byte)) (len : nat) : nat :=
  match value with
  | [] => len
  | v :: value' =>
      let len := if negb (i =? 1)%nat then (len + 2)%nat else len in
      send_length (S i) value' (len + length v)%nat
  end.

Fixpoint send_copy (i : nat) (value : list (list byte))
    (data : list byte) (at_ : nat) : option (list byte * nat) :=
  match value with
  | [] => Some (data, at_)
  | v :: value' =>
      match
        (if negb (i =? 1)%nat
         then match memcpy_at data at_ [CR; LF] with
              | Some data => Some (data, (at_ + 2)%nat)
              | None => None
              end
         else Some (data, at_))
      with
      | None => None
      | Some (data, at_) =>
          match memcpy_at data at_ v with
          | Some data => send_copy (S i) value' data (at_ + length v)%nat
          | None => None
          end
      end
  end.

Inductive conf_result : Type :=
  | NGX_CONF_OK
  | conf_error (message : string).

(** [ngx_http_healthcheck_send]: [args] are the directive's arguments
    [value[1]], [value[2]], ...; [block] is what [ngx_pnalloc] returns for
    [health_send.len + 1] bytes, [None] for [NULL].  The result is the
    directive's answer, [health_send.len] and the block [health_send.data]
    points to; there is none when a write would leave the block. *)
Definition ngx_http_healthcheck_send (args : list (list byte))
    (block : option (list byte))
  : option (conf_result * nat * option (list byte)) :=
  let len := send_length 1 args 0 in
  let len := (len + 2 * 2)%nat in
  match block with
  | None => Some (conf_error "Unable to alloc data to send", len, None)
  | Some data =>
      match send_copy 1 args data 0 with
      | None => None
      | Some (data, at_) =>
          match memcpy_at data at_ [CR; LF; CR; LF] with
          | None => None
          | Some data =>
              let at_ := (at_ + 2 * 2)%nat in
              if (at_ <? length data)%nat then
                let data := <[at_ := x00]> data in
                if negb (at_ =? len)%nat
                then Some (conf_error
                             "healthcheck: Logic error.  Length doesn't match",
                           len, Some data)
                else Some (NGX_CONF_OK, len, Some data)
              else None
          end
      end
  end.

(** The arguments as lines of a request: a line break between one and the
    next. *)
Fixpoint joined (args : list (list byte)) : list byte :=
  match args with
  | [] => []
  | [v] => v
  | v :: rest => v ++ [CR; LF] ++ joined rest
  end.

(** The 32-bit [int] that [abs] takes. *)
Definition to_int32 (x : Z) : Z := (x + 2 ^ 31) mod 2 ^ 32 - 2 ^ 31.

(** The loop of [ngx_http_healthcheck_procinit] from entry [i] on.
    [random k] is the result of the [k]-th call of [ngx_random()] after
    [srand(ngx_pid)]; the remainder is taken in [ngx_msec_t], goes through
    [abs] as an [int] and back into [ngx_msec_t].  A delay of zero makes
    the remainder undefined. *)
Fixpoint procinit_loop (P : ptr_size) (random : nat -> Z) (i k : nat)
    (arr : list Stat.t) : option (list event) :=
  match arr with
  | [] => Some []
  | st :: rest =>
      if healthcheck_enabled (Stat.conf st) then
        if health_delay (Stat.conf st) =? 0 then None
        else
          let t := to_uint P (Z.abs (to_int32
                     (to_uint P (random k) mod health_delay (Stat.conf st)))) in
          match procinit_loop P random (S i) (S k) rest with
          | Some tr => Some (ngx_add_timer (ownership_ev i) t :: tr)
          | None => None
          end
      else procinit_loop P random (S i) k rest
  end.

Definition ngx_http_healthcheck_procinit (P : ptr_size) (random : nat -> Z)
    (arr : list Stat.t) : option (list event) :=
  if (length arr =? 0)%nat then Some []
  else procinit_loop P random 0 0 arr.

(** A buffer of the status page: [written] are the bytes between [pos]
    and [last], [lead] is [pos - start] and [size] is [end - start]. *)
Record page_buf : Type := {
  lead : Z;
  written : list byte;
  size : Z
}.

Definition page_last (b : page_buf) : Z :=
  lead b + Z.of_nat (length (written b)).

(** [ngx_create_temp_buf(pool, size)], when it succeeds. *)
Definition temp_buf (n : Z) : page_buf :=
  {| lead := 0; written := []; size := n |}.

(** [ngx_http_healthcheck_buf_append]; [alloc n] says whether a temporary
    buffer of [n] bytes can be had.  [None] is the [NULL] result. *)
Definition ngx_http_healthcheck_buf_append (alloc : Z -> bool)
    (dst src : page_buf) : option page_buf :=
  let n := Z.of_nat (length (written src)) in
  if page_last dst + n >? size dst then
    let want := (Z.of_nat (length (written dst)) + n) * 2 + 1 in
    if alloc want then
      let new_buf :=
        {| lead := 0; written := written dst; size := want |} in
      Some {| lead := lead new_buf;
              written := written new_buf ++ written src;
              size := size new_buf |}
    else None
  else
    Some {| lead := lead dst;
            written := written dst ++ written src;
            size := size dst |}.

(** The bytes lie within the buffer. *)
Definition page_ok (b : page_buf) : Prop :=
  0 <= lead b /\ page_last b <= size b.

(** The body of the status page as [ngx_http_healthcheck_status_handler]
    builds it: starting from a buffer of 10 bytes, every piece that
    [ngx_snprintf] left in [tmp] (the head of the table, a row for each
    peer, the foot) is appended in turn; the first failure ends the
    handler with an internal server error. *)
Fixpoint append_all (alloc : Z -> bool) (b : page_buf)
    (pieces : list (list byte)) : option page_buf :=
  match pieces with
  | [] => Some b
  | piece :: rest =>
      match ngx_http_healthcheck_buf_append alloc b
              {| lead := 0; written := piece; size := 1000 |} with
      | None => None
      | Some b' => append_all alloc b' rest
      end
  end.

(** [ngx_http_healthcheck_statestr]. *)
Definition ngx_http_healthcheck_statestr (s : ngx_http_health_state)
  : string :=
  match s with
  | NGX_HEALTH_OK => "OK"
  | NGX_HEALTH_BAD_HEADER => "Malformed header"
  | NGX_HEALTH_BAD_STATUS => "Bad status line.  Maybe not HTTP"
  | NGX_HEALTH_BAD_BODY => "Bad HTTP body contents"
  | NGX_HEALTH_BAD_STATE => "Internal error.  Bad healthcheck state"
  | NGX_HEALTH_BAD_CONN => "Error reading contents.  Bad connection"
  | NGX_HEALTH_BAD_CODE => "Non 200 HTTP status code"
  | NGX_HEALTH_TIMEOUT => "Healthcheck timed out"
  | NGX_HEALTH_FULL_BUFFER => "Contents could not fit read buffer"
  | _ => "Unknown state"
  end.

(** The states a probe can end in. *)
Definition terminal (s : ngx_http_health_state) : bool :=
  100 <=? health_state_value s.

(** What the loop leaves when every enabled peer from [i] on has a delay. *)
Definition start_timers (random : nat -> Z) : nat -> nat -> list Stat.t ->
    list event :=
  fix go (i k : nat) (arr : list Stat.t) : list event :=
    match arr with
    | [] => []
    | st :: rest =>
        if healthcheck_enabled (Stat.conf st)
        then ngx_add_timer (ownership_ev i)
               (random k mod health_delay (Stat.conf st))
             :: go (S i) (S k) rest
        else go (S i) k rest
    end.

(** Every argument after the first is copied behind a line break. *)
Definition continued (value : list (list byte)) : list byte :=
  concat (map (fun v => [CR; LF] ++ v) value).

(** ** More concrete data *)

(** A probe that is about to send its request, and a connection that
    takes ten bytes and then the rest. *)
Definition sample_sending : world :=
  with_stat (fun st => set_send_pos 0
                         (Stat.set_state NGX_HEALTH_SENDING_CHECK st))
    (sample_world 64 4242 []).

Definition sample_outgoing : outgoing :=
  {| sends := [accept 10; accept 100]; wire := [] |}.

(** What a finished probe leaves behind: a waiting entry with the cursors
    and the buffer of the last reply. *)
Definition sample_waiting : world :=
  {| stat := Stat.set_state NGX_HEALTH_WAITING (sample_code_stat 20);
     shm := sample_shm 4242;
     socket := [];
     trace := [] |}.

(** Another worker, a tenth of a second later. *)
Definition sample_rival : process :=
  {| ngx_pid := 5000;
     ngx_current_msec := 5200;
     ngx_terminate := false;
     ngx_exiting := false;
     ngx_quit := false;
     nelts := 1 |}.

(** The rival's view of the peer once the owner has read a part of the
    reply. *)
Definition sample_rival_world : world :=
  {| stat := Stat.set_state NGX_HEALTH_UNINIT_STATE (sample_stat 64);
     shm := shm (ngx_http_healthcheck_read_handler PTR8 (sample_process false)
                   (sample_world 64 4242 sample_segments));
     socket := [];
     trace := [] |}.

(** The rival's view of a peer that the worker 4242 has just taken from
    the owner 7. *)
Definition sample_taken_world : world :=
  {| stat := Stat.set_state NGX_HEALTH_UNINIT_STATE (sample_stat 64);
     shm := Shm.set_action_time 5100 (Shm.set_owner 4242 (sample_shm 7));
     socket := [];
     trace := [] |}.

(** A peer without healthchecks and one with a delay of zero. *)
Definition sample_disabled : Stat.t :=
  set_conf {| healthcheck_enabled := false;
              health_delay := 0;
              health_timeout := 0;
              health_failcount := 0;
              health_buffersize := 0;
              health_send := [];
              health_expected := None |} (sample_stat 32).

Definition sample_no_delay : Stat.t :=
  set_conf {| healthcheck_enabled := true;
              health_delay := 0;
              health_timeout := 500;
              health_failcount := 2;
              health_buffersize := 64;
              health_send := [];
              health_expected := None |} (sample_stat 64).

Definition sample_random (k : nat) : Z :=
  if Nat.even k then 1804289383 else 846930886.

(** A probe of a peer that has no request configured. *)
Definition sample_silent : world :=
  {| stat := set_send_pos 0
               (Stat.set_state NGX_HEALTH_SENDING_CHECK sample_no_delay);
     shm := sample_shm 4242;
     socket := [];
     trace := [] |}.

(** * Properties *)

(** ** Arithmetic and bytes *)

Lemma word_modulus_pos (P : ptr_size) : 0 < word_modulus P.
Proof. destruct P; reflexivity. Qed.

Lemma word_modulus_large (P : ptr_size) : 2 ^ 32 <= word_modulus P.
Proof. destruct P; unfold word_modulus, word_bits; simpl; lia. Qed.

Lemma to_uint_small (P : ptr_size) (x : Z) :
  0 <= x < 2 ^ 32 -> to_uint P x = x.
Proof.
  intros Hx. unfold to_uint. apply Z.mod_small.
  pose proof (word_modulus_large P). lia.
Qed.

Lemma to_int_small (P : ptr_size) (x : Z) :
  - (word_modulus P / 2) <= x <= NGX_MAX_INT_T_VALUE P -> to_int P x = x.
Proof.
  unfold to_int, NGX_MAX_INT_T_VALUE. intros Hx.
  assert (Hm : word_modulus P = 2 * (word_modulus P / 2)).
  { destruct P; reflexivity. }
  set (h := word_modulus P / 2) in *.
  rewrite Z.mod_small; lia.
Qed.

Lemma uc_inj (a b : byte) : uc a = uc b -> a = b.
Proof.
  unfold uc. intros H. apply N2Z.inj in H.
  pose proof (Byte.of_to_N a) as Ha. rewrite H, Byte.of_to_N in Ha.
  congruence.
Qed.

Lemma uc_eqb (a b : byte) : (uc a =? uc b) = true <-> a = b.
Proof.
  rewrite Z.eqb_eq. split; [apply uc_inj | congruence].
Qed.

Lemma state_eqb_eq (a b : ngx_http_health_state) :
  state_eqb a b = true <-> a = b.
Proof.
  unfold state_eqb. rewrite Z.eqb_eq.
  split; [| congruence]. destruct a, b; simpl; congruence.
Qed.

Lemma state_eq_dec (a b : ngx_http_health_state) : {a = b} + {a <> b}.
Proof. decide equality. Defined.

Lemma state_eqb_refl (a : ngx_http_health_state) : state_eqb a a = true.
Proof. by apply state_eqb_eq. Qed.

Lemma state_eqb_neq (a b : ngx_http_health_state) :
  state_eqb a b = false <-> a <> b.
Proof.
  rewrite <- state_eqb_eq. destruct (state_eqb a b); split; congruence.
Qed.

(** ** The verdict filter *)

Section VerdictFilter.
Variable P : ptr_size.
Variable p : process.

Lemma clear_events_frame (w : world) :
  shm (ngx_http_healthcheck_clear_events p w) = shm w
  /\ stat (ngx_http_healthcheck_clear_events p w) = stat w
  /\ socket (ngx_http_healthcheck_clear_events p w) = socket w.
Proof.
  unfold ngx_http_healthcheck_clear_events.
  generalize (seq 0 (nelts p)). intros l. revert w.
  induction l as [| i l IH]; intros w; simpl; [done |].
  destruct (IH (emit (ngx_del_timer (ownership_ev i))
                  (emit (ngx_del_timer (health_ev i)) w))) as (-> & -> & ->).
  done.
Qed.

(** The shared slot after [ngx_http_healthcheck_mark_finished]. *)
Lemma mark_finished_shm (w : world) :
  shm (ngx_http_healthcheck_mark_finished P p w)
  = Shm.set_action_time (ngx_current_msec p)
      (Shm.set_down_code (Stat.state (stat w))
         (publish_down (health_failcount (Stat.conf (stat w)))
            (count_verdict P p (Stat.state (stat w)) (shm w)))).
Proof.
  unfold ngx_http_healthcheck_mark_finished.
  destruct (negb (shutting_down p)); simpl; [done |].
  match goal with
  | |- context [ngx_http_healthcheck_clear_events p ?x] =>
      destruct (clear_events_frame x) as (-> & _)
  end.
  done.
Qed.

Lemma mark_finished_state (w : world) :
  Stat.state (stat (ngx_http_healthcheck_mark_finished P p w))
  = NGX_HEALTH_WAITING.
Proof.
  unfold ngx_http_healthcheck_mark_finished.
  destruct (negb (shutting_down p)); simpl; [done |].
  match goal with
  | |- context [ngx_http_healthcheck_clear_events p ?x] =>
      destruct (clear_events_frame x) as (_ & -> & _)
  end.
  done.
Qed.

(** C1: the verdict filter.  With [bad] saying that the probe's terminal
    state is not [NGX_HEALTH_OK]: a verdict like the stored one increments
    [concurrent] (the machine increment of an [ngx_int_t]; below the
    largest value it adds one) and leaves [since]; a verdict unlike it is
    stored, with [concurrent] at 1 and [since] at the current time; then,
    on every probe that leaves [concurrent] at [health_failcount] or more,
    [down] becomes [bad], and on every other probe it stays; [down_code]
    becomes the terminal state.  Owner, index and lock are not touched. *)
Theorem mark_finished_verdict_filter (w : world) :
  let t := Stat.state (stat w) in
  let bad := negb (state_eqb t NGX_HEALTH_OK) in
  let s := shm w in
  let s' := shm (ngx_http_healthcheck_mark_finished P p w) in
  let failcount := health_failcount (Stat.conf (stat w)) in
  Shm.last_down s' = bad
  /\ (bad = Shm.last_down s ->
      Shm.concurrent s' = to_int P (Shm.concurrent s + 1)
      /\ (Shm.concurrent s < NGX_MAX_INT_T_VALUE P ->
          - (word_modulus P / 2) <= Shm.concurrent s ->
          Shm.concurrent s' = Shm.concurrent s + 1)
      /\ Shm.since s' = Shm.since s)
  /\ (bad <> Shm.last_down s ->
      Shm.concurrent s' = 1 /\ Shm.since s' = ngx_current_msec p)
  /\ (failcount <= Shm.concurrent s' -> Shm.down s' = Z.b2z bad)
  /\ (Shm.concurrent s' < failcount -> Shm.down s' = Shm.down s)
  /\ Shm.down_code s' = t
  /\ Shm.owner s' = Shm.owner s
  /\ Shm.index s' = Shm.index s
  /\ Shm.lock s' = Shm.lock s.
Proof.
  intros t bad s s' failcount. subst s'.
  rewrite mark_finished_shm. fold t s failcount.
  unfold publish_down, count_verdict. subst bad.
  destruct (state_eqb t NGX_HEALTH_OK), (Shm.last_down s) eqn:Hld; simpl;
    match goal with
    | |- context [?a >=? ?b] => destruct (Z.geb_spec a b)
    end; simpl; rewrite ?Hld;
    repeat split; intros; try congruence; try lia;
    try (apply to_int_small; unfold NGX_MAX_INT_T_VALUE in *; lia).
Qed.

End VerdictFilter.

(** ** The recognizer *)

Section RecognizerFacts.
Variable P : ptr_size.

Lemma process_bytes_app (xs ys : list byte) : forall st : Stat.t,
  process_bytes P st (xs ++ ys)
  = match process_bytes P st xs with
    | Returned rc st' => Returned rc st'
    | Running st' => process_bytes P st' ys
    end.
Proof.
  induction xs as [| x xs IH]; intros st; [done |].
  rewrite <- app_comm_cons. cbn [process_bytes].
  destruct (process_byte P st x); [done | apply IH].
Qed.

(** The space that ends the status code. *)
Lemma process_space (st : Stat.t) :
  Stat.state st = NGX_HEALTH_READING_STAT_CODE ->
  process_byte P st SP
  = if Stat.stat_code st =? 200
    then Running (Stat.set_state NGX_HEALTH_READING_HEADER
                    (Stat.set_read_pos (Stat.read_pos st + 1) st))
    else Returned NGX_ERROR
           (Stat.set_state NGX_HEALTH_BAD_CODE
              (Stat.set_read_pos (Stat.read_pos st + 1) st)).
Proof.
  intros Hst. unfold process_byte.
  replace (Stat.state (Stat.set_read_pos (Stat.read_pos st + 1) st))
    with NGX_HEALTH_READING_STAT_CODE by done.
  rewrite Z.eqb_refl. unfold NGX_HTTP_OK. simpl.
  by destruct (Stat.stat_code st =? 200).
Qed.

Lemma congruent_200 (v : Z) :
  (v - 200) mod word_modulus P = 0 <-> v mod word_modulus P = 200.
Proof.
  pose proof (word_modulus_large P) as HM.
  assert (HM' : 200 < word_modulus P) by lia. clear HM.
  pose proof (Z.div_mod v (word_modulus P)).
  pose proof (Z.div_mod (v - 200) (word_modulus P)).
  pose proof (Z.mod_pos_bound v (word_modulus P)).
  pose proof (Z.mod_pos_bound (v - 200) (word_modulus P)).
  set (M := word_modulus P) in *.
  set (q1 := v / M) in *. set (r1 := v mod M) in *.
  set (q2 := (v - 200) / M) in *. set (r2 := (v - 200) mod M) in *.
  split; intros Hr.
  - assert (M * (q1 - q2) = r2 + 200 - r1) by lia.
    assert (q1 - q2 = 0) by nia. lia.
  - assert (M * (q1 - q2) = r2 + 200 - r1) by lia.
    assert (q1 - q2 = 0) by nia. lia.
Qed.

(** A digit in the status code. *)
Lemma process_digit (st : Stat.t) (ch : byte) :
  Stat.state st = NGX_HEALTH_READING_STAT_CODE ->
  is_digit ch ->
  process_byte P st ch
  = Running (Stat.set_stat_code
               (to_uint P (Stat.stat_code st * 10 + (uc ch - uc "0"%byte)))
               (Stat.set_read_pos (Stat.read_pos st + 1) st))
  /\ Stat.state (Stat.set_stat_code
               (to_uint P (Stat.stat_code st * 10 + (uc ch - uc "0"%byte)))
               (Stat.set_read_pos (Stat.read_pos st + 1) st))
     = NGX_HEALTH_READING_STAT_CODE.
Proof.
  intros Hst Hd. split; [| done]. unfold process_byte.
  replace (Stat.state (Stat.set_read_pos (Stat.read_pos st + 1) st))
    with NGX_HEALTH_READING_STAT_CODE by done.
  unfold is_digit in Hd.
  destruct (Z.eqb_spec (uc ch) (uc SP)) as [Hsp | Hsp].
  { rewrite Hsp in Hd. vm_compute in Hd. destruct Hd as [Hd _]. by destruct Hd. }
  destruct (Z.ltb_spec (uc ch) (uc "0"%byte)); [lia |].
  destruct (Z.gtb_spec (uc ch) (uc "9"%byte)); [lia |]. done.
Qed.

(** C5: the status-code state.  On the space that ends the code the
    recognizer goes on in [NGX_HEALTH_READING_HEADER] exactly when the
    accumulated [stat_code] is 200 and returns with
    [NGX_HEALTH_BAD_CODE] otherwise; a byte that is neither a space nor a
    digit returns with [NGX_HEALTH_BAD_STATUS]; a digit is accumulated. *)
Theorem status_code_accepts_only_200 (st : Stat.t) (ch : byte) :
  Stat.state st = NGX_HEALTH_READING_STAT_CODE ->
  let st1 := Stat.set_read_pos (Stat.read_pos st + 1) st in
  (ch = SP -> Stat.stat_code st = 200 ->
   process_byte P st ch
   = Running (Stat.set_state NGX_HEALTH_READING_HEADER st1))
  /\ (ch = SP -> Stat.stat_code st <> 200 ->
      process_byte P st ch
      = Returned NGX_ERROR (Stat.set_state NGX_HEALTH_BAD_CODE st1))
  /\ (ch <> SP -> ~ is_digit ch ->
      process_byte P st ch
      = Returned NGX_ERROR (Stat.set_state NGX_HEALTH_BAD_STATUS st1))
  /\ (is_digit ch ->
      process_byte P st ch
      = Running (Stat.set_stat_code
                   (to_uint P (Stat.stat_code st * 10 + (uc ch - uc "0"%byte)))
                   st1))
  /\ (forall st', process_byte P st ch = Running st' ->
      Stat.state st' = NGX_HEALTH_READING_HEADER ->
      ch = SP /\ Stat.stat_code st = 200).
Proof.
  intros Hst st1. unfold process_byte. fold st1.
  replace (Stat.state st1) with NGX_HEALTH_READING_STAT_CODE by done.
  replace (Stat.stat_code st1) with (Stat.stat_code st) by done.
  unfold NGX_HTTP_OK, is_digit.
  destruct (uc ch =? uc SP) eqn:Hsp.
  - apply uc_eqb in Hsp. subst ch.
    assert (Hnd : ~ (uc "0"%byte <= uc SP <= uc "9"%byte)).
    { vm_compute. intros [H _]. by apply H. }
    destruct (Z.eqb_spec (Stat.stat_code st) 200) as [H200 | H200]; simpl.
    + split; [done |]. split; [done |]. split; [done |].
      split; [intros H; by destruct Hnd |]. done.
    + split; [done |]. split; [done |]. split; [done |].
      split; [intros H; by destruct Hnd |]. intros st' H; discriminate H.
  - assert (Hne : ch <> SP).
    { intros ->. by rewrite Z.eqb_refl in Hsp. }
    split; [done |]. split; [done |].
    destruct (Z.ltb_spec (uc ch) (uc "0"%byte)) as [Hlo | Hlo]; simpl.
    { split; [done |]. split; [intros H; exfalso; lia |].
      intros st' H; discriminate H. }
    destruct (Z.gtb_spec (uc ch) (uc "9"%byte)) as [Hhi | Hhi]; simpl.
    { split; [done |]. split; [intros H; exfalso; lia |].
      intros st' H; discriminate H. }
    split; [intros _ H; exfalso; apply H; lia |]. split; [done |].
    intros st' H Hs. injection H as <-. simpl in Hs.
    rewrite Hst in Hs. discriminate Hs.
Qed.

(** A run of digits in the status code is accumulated and nothing else. *)
Lemma process_digits (ds : list byte) : forall st : Stat.t,
  Stat.state st = NGX_HEALTH_READING_STAT_CODE ->
  Forall is_digit ds ->
  process_bytes P st ds
  = Running (Stat.set_stat_code (accumulate P (Stat.stat_code st) ds)
               (Stat.set_read_pos
                  (Stat.read_pos st + Z.of_nat (length ds)) st)).
Proof.
  induction ds as [| d ds IH]; intros st Hst Hds.
  - simpl. destruct st; simpl. unfold Stat.set_stat_code, Stat.set_read_pos.
    simpl. by rewrite Z.add_0_r.
  - inversion Hds as [| ? ? Hd Hds']; subst.
    destruct (process_digit st d Hst Hd) as [Hstep Hst'].
    cbn [process_bytes]. rewrite Hstep, IH; [| done | done].
    destruct st; unfold Stat.set_stat_code, Stat.set_read_pos; simpl.
    do 2 f_equal. rewrite Nat2Z.inj_succ. lia.
Qed.

Lemma accumulate_decimal_gen (ds : list byte) : forall c c' : Z,
  c mod word_modulus P = c' mod word_modulus P ->
  accumulate P (c mod word_modulus P) ds
  = foldl (fun acc d => acc * 10 + (uc d - uc "0"%byte)) c' ds
    mod word_modulus P.
Proof.
  pose proof (word_modulus_pos P) as HM.
  induction ds as [| d ds IH]; intros c c' Hc; [done |].
  apply (IH (c mod word_modulus P * 10 + (uc d - uc "0"%byte))
            (c' * 10 + (uc d - uc "0"%byte))).
  rewrite (Z.add_mod (c mod _ * 10)), (Z.add_mod (c' * 10)) by lia.
  rewrite Z.mul_mod_idemp_l by lia.
  rewrite (Z.mul_mod c'), <- Hc, <- Z.mul_mod by lia. done.
Qed.

Lemma accumulate_decimal (ds : list byte) :
  accumulate P 0 ds = decimal ds mod word_modulus P.
Proof.
  pose proof (word_modulus_pos P) as HM.
  rewrite <- (Z.mod_0_l (word_modulus P)) at 1 by lia.
  by apply accumulate_decimal_gen.
Qed.

Lemma digits_then_space (st : Stat.t) (ds : list byte) :
  Stat.state st = NGX_HEALTH_READING_STAT_CODE ->
  Stat.stat_code st = 0 ->
  Forall is_digit ds ->
  process_bytes P st (ds ++ [SP])
  = let st1 :=
      Stat.set_stat_code (decimal ds mod word_modulus P)
        (Stat.set_read_pos (Stat.read_pos st + Z.of_nat (length ds) + 1) st) in
    if decimal ds mod word_modulus P =? 200
    then Running (Stat.set_state NGX_HEALTH_READING_HEADER st1)
    else Returned NGX_ERROR (Stat.set_state NGX_HEALTH_BAD_CODE st1).
Proof.
  intros Hst H0 Hds.
  rewrite process_bytes_app, process_digits by done.
  cbn [process_bytes]. rewrite process_space by done.
  rewrite H0, accumulate_decimal.
  destruct st; unfold Stat.set_stat_code, Stat.set_read_pos, Stat.set_state;
    simpl.
  by destruct (decimal ds mod word_modulus P =? 200).
Qed.

(** C10: the code is accumulated in an [ngx_uint_t], digit after digit
    and without a bound on their number, so what decides is the value of
    the digit string modulo [2 ^ w] (with [w] the width of the word):
    after the digits [ds] and the space, the recognizer goes on in
    [NGX_HEALTH_READING_HEADER] when that residue is 200, and returns with
    [NGX_HEALTH_BAD_CODE] when it is not.  Every digit string congruent to
    200 is so accepted, [0200] among them. *)
Theorem status_code_modulo_word (st : Stat.t) (ds : list byte) :
  Stat.state st = NGX_HEALTH_READING_STAT_CODE ->
  Stat.stat_code st = 0 ->
  Forall is_digit ds ->
  let st1 :=
    Stat.set_stat_code (decimal ds mod 2 ^ word_bits P)
      (Stat.set_read_pos (Stat.read_pos st + Z.of_nat (length ds) + 1) st) in
  ((decimal ds - 200) mod 2 ^ word_bits P = 0 ->
   process_bytes P st (ds ++ [SP])
   = Running (Stat.set_state NGX_HEALTH_READING_HEADER st1))
  /\ ((decimal ds - 200) mod 2 ^ word_bits P <> 0 ->
      process_bytes P st (ds ++ [SP])
      = Returned NGX_ERROR (Stat.set_state NGX_HEALTH_BAD_CODE st1))
  /\ process_bytes P st (bytes "0200" ++ [SP])
     = Running (Stat.set_state NGX_HEALTH_READING_HEADER
                  (Stat.set_stat_code 200
                     (Stat.set_read_pos (Stat.read_pos st + 5) st))).
Proof.
  intros Hst H0 Hds st1. fold (word_modulus P) in *.
  rewrite !congruent_200.
  split; [| split].
  - intros H. rewrite digits_then_space by done. fold st1. by rewrite H.
  - intros H. rewrite digits_then_space by done. fold st1.
    by destruct (Z.eqb_spec (decimal ds mod word_modulus P) 200).
  - rewrite digits_then_space; [| done | done |].
    + change (decimal (bytes "0200")) with 200.
      replace (200 mod word_modulus P) with 200
        by (symmetry; apply (to_uint_small P); lia).
      simpl. do 4 f_equal. lia.
    + unfold bytes, is_digit. simpl. repeat constructor; by vm_compute.
Qed.

(** *** The body cursor *)

(** A turn of the loop keeps the body cursor within the expected bytes. *)
Lemma process_byte_cursor (st s : Stat.t) (ch : byte) :
  body_cursor_ok st ->
  process_byte P st ch = Running s ->
  body_cursor_ok s.
Proof.
  destruct st as [cf i s0 t0 rb rp bp sp sc].
  unfold body_cursor_ok, process_byte.
  destruct s0; simpl; intros Hok; repeat case_match; intros Hrun;
    try discriminate Hrun; injection Hrun as <-; simpl; try done.
  - subst bp. eexists. split; [done |]. lia.
  - destruct Hok as (e & He & Hbp).
    unfold expected_data, expected_len in *. simpl in *.
    rewrite He in *. simpl in *. exists e. split; [done |].
    match goal with
    | H : e !! _ = Some _ |- _ => apply lookup_lt_Some in H
    end.
    lia.
Qed.

Lemma process_bytes_cursor (bs : list byte) : forall st s : Stat.t,
  body_cursor_ok st ->
  process_bytes P st bs = Running s ->
  body_cursor_ok s.
Proof.
  induction bs as [| ch bs IH]; intros st s Hok Hrun.
  - by injection Hrun as <-.
  - cbn [process_bytes] in Hrun.
    destruct (process_byte P st ch) as [| s1] eqn:H1; [discriminate Hrun |].
    eapply IH; [| done]. by eapply process_byte_cursor.
Qed.

(** So the comparison with [health_expected->data[body_read_pos]] always
    reads one of the expected bytes. *)
Lemma body_read_in_range (st : Stat.t) :
  body_cursor_ok st ->
  Stat.state st = NGX_HEALTH_READING_BODY ->
  Stat.body_read_pos st <> expected_len (Stat.conf st) ->
  is_Some (expected_data (Stat.conf st) !! Z.to_nat (Stat.body_read_pos st)).
Proof.
  unfold body_cursor_ok. intros Hok Hs Hne. rewrite Hs in Hok. simpl in Hok.
  destruct Hok as (e & He & Hbp).
  unfold expected_data, expected_len in *. rewrite He in *. simpl in *.
  apply lookup_lt_is_Some. lia.
Qed.

(** *** Chunks *)

(** The loop never looks at the read buffer through [stat]: the bytes are
    handed to it. *)
Lemma process_byte_buffer (b : ngx_buf_t) (st : Stat.t) (ch : byte) :
  process_byte P (Stat.set_read_buffer b st) ch
  = on_result (Stat.set_read_buffer b) (process_byte P st ch).
Proof.
  destruct st as [cf i s t0 rb rp bp sp sc]. unfold process_byte.
  destruct s; simpl; repeat case_match; reflexivity.
Qed.

Lemma process_bytes_buffer (b : ngx_buf_t) (bs : list byte) :
  forall st : Stat.t,
  process_bytes P (Stat.set_read_buffer b st) bs
  = on_result (Stat.set_read_buffer b) (process_bytes P st bs).
Proof.
  induction bs as [| ch bs IH]; intros st; [done |].
  cbn [process_bytes]. rewrite process_byte_buffer.
  destruct (process_byte P st ch); simpl; [done | apply IH].
Qed.

(** What a turn of the loop keeps, and where it can leave the state. *)
Lemma process_byte_running (st s : Stat.t) (ch : byte) :
  process_byte P st ch = Running s ->
  parsing (Stat.state s) = true
  /\ Stat.read_pos s = Stat.read_pos st + 1
  /\ Stat.read_buffer s = Stat.read_buffer st
  /\ Stat.conf s = Stat.conf st.
Proof.
  destruct st as [cf i s0 t0 rb rp bp sp sc]. unfold process_byte.
  destruct s0; simpl; repeat case_match; intros Hrun;
    try discriminate Hrun; injection Hrun as <-; done.
Qed.

Lemma process_byte_returned (st s : Stat.t) (ch : byte) (rc : Z) :
  process_byte P st ch = Returned rc s ->
  (rc = NGX_OK /\ Stat.state s = NGX_HEALTH_OK)
  \/ (rc = NGX_ERROR
      /\ (Stat.state s = NGX_HEALTH_BAD_STATUS
          \/ Stat.state s = NGX_HEALTH_BAD_CODE
          \/ Stat.state s = NGX_HEALTH_BAD_BODY
          \/ Stat.state s = NGX_HEALTH_BAD_STATE)).
Proof.
  destruct st as [cf i s0 t0 rb rp bp sp sc]. unfold process_byte.
  destruct s0; simpl; repeat case_match; intros Hret;
    try discriminate Hret; injection Hret as <- <-; simpl; tauto.
Qed.

Lemma process_bytes_running (bs : list byte) : forall st s : Stat.t,
  process_bytes P st bs = Running s ->
  (parsing (Stat.state st) = true -> parsing (Stat.state s) = true)
  /\ Stat.read_pos s = Stat.read_pos st + Z.of_nat (length bs)
  /\ Stat.read_buffer s = Stat.read_buffer st
  /\ Stat.conf s = Stat.conf st.
Proof.
  induction bs as [| ch bs IH]; intros st s H.
  - injection H as <-. simpl. repeat split; [done | lia].
  - cbn [process_bytes] in H.
    destruct (process_byte P st ch) as [| s1] eqn:H1; [discriminate H |].
    apply process_byte_running in H1 as (Hp & Hrp & Hrb & Hcf).
    apply IH in H as (Hp' & Hrp' & Hrb' & Hcf').
    rewrite Hrp', Hrp, Hrb', Hrb, Hcf', Hcf.
    repeat split; [tauto |]. cbn [length]. lia.
Qed.

Lemma process_bytes_returned (bs : list byte) : forall (st s : Stat.t) rc,
  process_bytes P st bs = Returned rc s ->
  (rc = NGX_OK /\ Stat.state s = NGX_HEALTH_OK)
  \/ (rc = NGX_ERROR
      /\ (Stat.state s = NGX_HEALTH_BAD_STATUS
          \/ Stat.state s = NGX_HEALTH_BAD_CODE
          \/ Stat.state s = NGX_HEALTH_BAD_BODY
          \/ Stat.state s = NGX_HEALTH_BAD_STATE)).
Proof.
  induction bs as [| ch bs IH]; intros st s rc H; [discriminate H |].
  cbn [process_bytes] in H.
  destruct (process_byte P st ch) as [rc1 s1 | s1] eqn:H1.
  - injection H as <- <-. by apply process_byte_returned in H1.
  - by apply IH in H.
Qed.

(** One readable event, for a recognizer that has caught up. *)
Lemma feed_caught_up (st : Stat.t) (bs : list byte) :
  caught_up st ->
  feed P st bs
  = finish (on_result (Stat.set_read_buffer
                         (buf_append bs (Stat.read_buffer st)))
              (process_bytes P st bs)).
Proof.
  unfold caught_up, buf_pos, feed, ngx_http_healthcheck_process_recv.
  intros Hc. unfold deliver at 2 3. simpl.
  rewrite Hc, Nat2Z.id, drop_app_length.
  unfold deliver. rewrite process_bytes_buffer.
  by destruct (process_bytes P st bs).
Qed.

Lemma fresh_caught_up (st : Stat.t) :
  fresh st -> caught_up st /\ parsing (Stat.state st) = true.
Proof.
  intros (Hs & Hrp & _ & Hrb). unfold caught_up, buf_pos.
  by rewrite Hs, Hrp, Hrb.
Qed.

Lemma on_result_set_buffer (b b' : ngx_buf_t) (r : loop_result) :
  on_result (Stat.set_read_buffer b) (on_result (Stat.set_read_buffer b') r)
  = on_result (Stat.set_read_buffer b) r.
Proof. by destruct r. Qed.

Lemma verdict_finish_buffer (b b' : ngx_buf_t) (r : loop_result) :
  verdict (finish (on_result (Stat.set_read_buffer b) r))
  = verdict (finish (on_result (Stat.set_read_buffer b') r)).
Proof.
  destruct r as [rc s | s]; simpl; [done |].
  unfold after_loop. simpl. by repeat case_match.
Qed.

(** The first chunk stops short of a verdict: the second one is read as
    if both had come together. *)
Lemma feed_twice_running (st s0 : Stat.t) (xs ys : list byte) :
  caught_up st ->
  parsing (Stat.state st) = true ->
  process_bytes P st xs = Running s0 ->
  matched_at_end P st xs = false ->
  feed_twice P st xs ys = feed P st (xs ++ ys).
Proof.
  intros Hc Hp Hrun Hm.
  destruct (process_bytes_running _ _ _ Hrun) as (Hp0 & Hrp0 & Hrb0 & Hcf0).
  specialize (Hp0 Hp).
  unfold matched_at_end in Hm. rewrite Hrun in Hm.
  unfold feed_twice. rewrite (feed_caught_up st xs Hc), Hrun. simpl.
  unfold after_loop. simpl. rewrite Hm.
  replace (state_eqb (Stat.state s0) NGX_HEALTH_OK) with false
    by (by destruct (Stat.state s0)).
  simpl.
  rewrite feed_caught_up, (feed_caught_up st (xs ++ ys) Hc).
  - rewrite process_bytes_app, Hrun, process_bytes_buffer.
    rewrite on_result_set_buffer. simpl.
    unfold buf_append. simpl. by rewrite app_assoc.
  - unfold caught_up, buf_pos in *. simpl.
    rewrite Hrp0, Hc, length_app. lia.
Qed.

(** The first chunk ends in a verdict: the probe is over. *)
Lemma feed_twice_returned (st s0 : Stat.t) (xs ys : list byte) (rc : Z) :
  caught_up st ->
  process_bytes P st xs = Returned rc s0 ->
  verdict (feed_twice P st xs ys) = (rc, Stat.state s0)
  /\ verdict (feed P st (xs ++ ys)) = (rc, Stat.state s0).
Proof.
  intros Hc Hret.
  unfold feed_twice.
  rewrite (feed_caught_up st xs Hc), (feed_caught_up st (xs ++ ys) Hc).
  rewrite process_bytes_app, Hret. simpl.
  destruct (process_bytes_returned _ _ _ _ Hret) as [[-> _] | [-> _]]; done.
Qed.

(** Once the whole expected body is matched, any further byte is one too
    many. *)
Lemma matched_then_more (st : Stat.t) (m zs : list byte) :
  matched_at_end P st m = true ->
  zs <> [] ->
  exists s, process_bytes P st (m ++ zs) = Returned NGX_ERROR s
            /\ Stat.state s = NGX_HEALTH_BAD_BODY.
Proof.
  unfold matched_at_end. intros Hm Hzs.
  destruct (process_bytes P st m) as [| s0] eqn:Hrun; [discriminate Hm |].
  apply andb_true_iff in Hm as [Hs Hb]. apply state_eqb_eq in Hs.
  destruct zs as [| z zs]; [done |].
  rewrite process_bytes_app, Hrun. cbn [process_bytes].
  unfold process_byte.
  replace (Stat.state (Stat.set_read_pos (Stat.read_pos s0 + 1) s0))
    with NGX_HEALTH_READING_BODY by done.
  replace (Stat.body_read_pos (Stat.set_read_pos (Stat.read_pos s0 + 1) s0))
    with (Stat.body_read_pos s0) by done.
  replace (Stat.conf (Stat.set_read_pos (Stat.read_pos s0 + 1) s0))
    with (Stat.conf s0) by done.
  rewrite Hb. eauto.
Qed.

Lemma feed_twice_matched (st : Stat.t) (xs ys : list byte) :
  caught_up st ->
  matched_at_end P st xs = true ->
  verdict (feed_twice P st xs ys) = (NGX_OK, NGX_HEALTH_OK).
Proof.
  unfold matched_at_end. intros Hc Hm.
  destruct (process_bytes P st xs) as [| s0] eqn:Hrun; [discriminate Hm |].
  unfold feed_twice. rewrite (feed_caught_up st xs Hc), Hrun. simpl.
  unfold after_loop. simpl. by rewrite Hm.
Qed.

Lemma feed_twice_agrees (st : Stat.t) (xs ys : list byte) :
  caught_up st ->
  parsing (Stat.state st) = true ->
  matched_at_end P st xs = false ->
  verdict (feed_twice P st xs ys) = verdict (feed P st (xs ++ ys)).
Proof.
  intros Hc Hp Hm.
  destruct (process_bytes P st xs) as [rc s0 | s0] eqn:Hrun.
  - destruct (feed_twice_returned st s0 xs ys rc Hc Hrun) as [-> ->]. done.
  - by rewrite (feed_twice_running st s0 xs ys).
Qed.

(** C2, as the code has it: the verdict of two chunks is the verdict of
    their concatenation unless the first chunk ends where the recognizer
    stands in [NGX_HEALTH_READING_BODY] with the whole expected body
    matched; there the probe ends with [NGX_HEALTH_OK] on the first chunk,
    whatever follows.  So a reply [m] that ends with the expected body,
    followed by one more byte [x], is [NGX_HEALTH_BAD_BODY] in one chunk
    and under every split but the one right after [m], which is
    [NGX_HEALTH_OK]. *)
Theorem chunks_agree_unless_body_complete (st : Stat.t) (xs ys : list byte) :
  fresh st ->
  (matched_at_end P st xs = false ->
   verdict (feed_twice P st xs ys) = verdict (feed P st (xs ++ ys)))
  /\ (matched_at_end P st xs = true ->
      verdict (feed_twice P st xs ys) = (NGX_OK, NGX_HEALTH_OK))
  /\ (forall (m : list byte) (x : byte),
        matched_at_end P st m = true ->
        xs ++ ys = m ++ [x] ->
        verdict (feed P st (m ++ [x])) = (NGX_ERROR, NGX_HEALTH_BAD_BODY)
        /\ (xs <> m ->
            verdict (feed_twice P st xs ys)
            = (NGX_ERROR, NGX_HEALTH_BAD_BODY))
        /\ (xs = m ->
            verdict (feed_twice P st xs ys) = (NGX_OK, NGX_HEALTH_OK))).
Proof.
  intros Hf. destruct (fresh_caught_up st Hf) as [Hc Hp].
  split; [by apply feed_twice_agrees |].
  split; [by apply feed_twice_matched |].
  intros m x Hm Hsplit.
  assert (Hone : verdict (feed P st (m ++ [x]))
                 = (NGX_ERROR, NGX_HEALTH_BAD_BODY)).
  { destruct (matched_then_more st m [x] Hm) as (s & Hs & Hbad); [done |].
    rewrite (feed_caught_up st _ Hc), Hs. unfold verdict. simpl.
    by rewrite Hbad. }
  split; [done |].
  split; [| intros ->; by apply feed_twice_matched].
  intros Hne. rewrite feed_twice_agrees, Hsplit; [done | done | done |].
  destruct (matched_at_end P st xs) eqn:Hxs; [exfalso | done].
  apply app_eq_inv in Hsplit as [(k & Hk & Hx) | (k & Hk & Hy)].
  - (* [xs] reaches beyond [m] *)
    destruct k as [| c k]; [rewrite app_nil_r in Hk; done |].
    destruct (matched_then_more st m (c :: k) Hm) as (s & Hs & _); [done |].
    unfold matched_at_end in Hxs. rewrite Hk, Hs in Hxs. discriminate Hxs.
  - (* [xs] stops before the end of [m] *)
    destruct k as [| c k]; [rewrite app_nil_r in Hk; done |].
    destruct (matched_then_more st xs (c :: k) Hxs) as (s & Hs & _); [done |].
    unfold matched_at_end in Hm. rewrite Hk, Hs in Hm. discriminate Hm.
Qed.

End RecognizerFacts.

(** ** The ownership attempt *)

Section Ownership.
Variable P : ptr_size.
Variable p : process.

Lemma emitted_app (w w' : world) (evs : list event) :
  trace w' = trace w ++ evs -> emitted w w' = evs.
Proof. unfold emitted. intros ->. apply drop_app_length. Qed.

Lemma clear_events_trace (w : world) :
  trace (ngx_http_healthcheck_clear_events p w)
  = trace w
    ++ flat_map (fun i => [ngx_del_timer (health_ev i);
                           ngx_del_timer (ownership_ev i)])
         (seq 0 (nelts p)).
Proof.
  unfold ngx_http_healthcheck_clear_events.
  generalize (seq 0 (nelts p)). intros l. revert w.
  induction l as [| i l IH]; intros w; simpl; [by rewrite app_nil_r |].
  rewrite IH. simpl. by rewrite <- !app_assoc.
Qed.

Lemma while_locked_del_timers (l : list nat) :
  while_locked false
    (flat_map (fun i => [ngx_del_timer (health_ev i);
                         ngx_del_timer (ownership_ev i)]) l) = [].
Proof. induction l as [| i l IH]; [done | simpl; apply IH]. Qed.

(** The three ways through the attempt of a worker that is not shutting
    down and finds the lock free. *)
Lemma try_for_ownership_mine (w : world) :
  shutting_down p = false ->
  Shm.lock (shm w) = 0 ->
  Shm.owner (shm w) = ngx_pid p ->
  ngx_http_healthcheck_try_for_ownership P p w
  = Some {| stat := stat w;
            shm := shm w;
            socket := socket w;
            trace := trace w ++ [ngx_spinlock (ngx_pid p);
                                 ngx_atomic_cmp_set (ngx_pid p) 0 true] |}.
Proof.
  intros Hsd Hlock Hown.
  unfold ngx_http_healthcheck_try_for_ownership, spin, claim, release.
  rewrite Hsd, Hlock. simpl. rewrite Hown, !Z.eqb_refl. simpl.
  unfold emit, with_shm. simpl.
  rewrite <- app_assoc. simpl.
  destruct w as [st s c tr], s; simpl in *. by subst.
Qed.

Lemma try_for_ownership_takes (w : world) :
  shutting_down p = false ->
  Shm.lock (shm w) = 0 ->
  Shm.owner (shm w) <> ngx_pid p ->
  stale P p w = true ->
  ngx_http_healthcheck_try_for_ownership P p w
  = Some {| stat := Stat.set_state NGX_HEALTH_WAITING (stat w);
            shm := Shm.set_action_time (ngx_current_msec p)
                     (Shm.set_owner (ngx_pid p) (shm w));
            socket := socket w;
            trace := trace w
                     ++ [ngx_spinlock (ngx_pid p);
                         ngx_add_timer (health_ev (Stat.index (stat w)))
                           (health_delay (Stat.conf (stat w)));
                         ngx_atomic_cmp_set (ngx_pid p) 0 true] |}.
Proof.
  intros Hsd Hlock Hown Hstale.
  unfold ngx_http_healthcheck_try_for_ownership, spin, claim, release.
  rewrite Hsd, Hlock. simpl.
  destruct (Z.eqb_spec (Shm.owner (shm w)) (ngx_pid p)); [done |].
  unfold stale in *. simpl. rewrite Hstale. simpl.
  rewrite Z.eqb_refl. unfold emit, with_shm, with_stat. simpl.
  rewrite <- !app_assoc. simpl.
  destruct w as [st s c tr], s; simpl in *. by subst.
Qed.

Lemma try_for_ownership_waits (w : world) :
  shutting_down p = false ->
  Shm.lock (shm w) = 0 ->
  Shm.owner (shm w) <> ngx_pid p ->
  stale P p w = false ->
  ngx_http_healthcheck_try_for_ownership P p w
  = Some {| stat := stat w;
            shm := shm w;
            socket := socket w;
            trace := trace w
                     ++ [ngx_spinlock (ngx_pid p);
                         ngx_atomic_cmp_set (ngx_pid p) 0 true;
                         ngx_add_timer (ownership_ev (Stat.index (stat w)))
                           (to_uint P
                              (health_delay (Stat.conf (stat w)) * 10))] |}.
Proof.
  intros Hsd Hlock Hown Hstale.
  unfold ngx_http_healthcheck_try_for_ownership, spin, claim, release.
  rewrite Hsd, Hlock. simpl.
  destruct (Z.eqb_spec (Shm.owner (shm w)) (ngx_pid p)); [done |].
  unfold stale in *. simpl. rewrite Hstale. simpl.
  rewrite Z.eqb_refl. unfold emit, with_shm, with_stat. simpl.
  rewrite <- !app_assoc. simpl.
  destruct w as [st s c tr], s; simpl in *. by subst.
Qed.

Lemma try_for_ownership_busy (w : world) :
  shutting_down p = false ->
  Shm.lock (shm w) <> 0 ->
  ngx_http_healthcheck_try_for_ownership P p w = None.
Proof.
  intros Hsd Hlock.
  unfold ngx_http_healthcheck_try_for_ownership, spin. rewrite Hsd.
  by destruct (Z.eqb_spec (Shm.lock (shm w)) 0).
Qed.

Lemma to_uint_fits (P0 : ptr_size) (x : Z) :
  0 <= x < word_modulus P0 -> to_uint P0 x = x.
Proof. intros Hx. unfold to_uint. by apply Z.mod_small. Qed.

(** C3, as the code has it: a worker that is not shutting down, finds the
    lock free and is not the stored owner ends up owning the peer exactly
    when [now - action_time >= (delay + timeout) * 3].  This is stated for
    a clock that is not behind the stored [action_time] and for values
    that fit the machine word, so that the subtraction and the two
    products of the code are the ones of the integers.  When it takes the
    peer it has stored its pid and the current time, set its private state
    to [NGX_HEALTH_WAITING] and armed the delay timer with [health_delay],
    and it does not arm the claim timer; otherwise the slot and the
    private entry are as before and it arms the claim timer with
    [health_delay * 10].  So the claim timer is armed exactly when the
    worker does not own the peer. *)
Theorem ownership_taken_iff_stale (w : world) :
  shutting_down p = false ->
  Shm.lock (shm w) = 0 ->
  Shm.owner (shm w) <> ngx_pid p ->
  0 <= Shm.action_time (shm w) <= ngx_current_msec p ->
  ngx_current_msec p < word_modulus P ->
  0 <= health_delay (Stat.conf (stat w)) ->
  0 <= health_timeout (Stat.conf (stat w)) ->
  (health_delay (Stat.conf (stat w)) + health_timeout (Stat.conf (stat w))) * 3
  < word_modulus P ->
  health_delay (Stat.conf (stat w)) * 10 < word_modulus P ->
  let cf := Stat.conf (stat w) in
  let i := Stat.index (stat w) in
  let due :=
    (health_delay cf + health_timeout cf) * 3
    <= ngx_current_msec p - Shm.action_time (shm w) in
  let claim_timer :=
    ngx_add_timer (ownership_ev i) (health_delay cf * 10) in
  exists w',
    ngx_http_healthcheck_try_for_ownership P p w = Some w'
    /\ (Shm.owner (shm w') = ngx_pid p <-> due)
    /\ (due ->
        Shm.action_time (shm w') = ngx_current_msec p
        /\ Stat.state (stat w') = NGX_HEALTH_WAITING
        /\ emitted w w'
           = [ngx_spinlock (ngx_pid p);
              ngx_add_timer (health_ev i) (health_delay cf);
              ngx_atomic_cmp_set (ngx_pid p) 0 true])
    /\ (~ due ->
        shm w' = shm w /\ stat w' = stat w
        /\ emitted w w'
           = [ngx_spinlock (ngx_pid p);
              ngx_atomic_cmp_set (ngx_pid p) 0 true;
              claim_timer])
    /\ (In claim_timer (emitted w w') <-> Shm.owner (shm w') <> ngx_pid p)
    /\ Shm.lock (shm w') = 0.
Proof.
  intros Hsd Hlock Hown Hclock Hnow Hdelay Htimeout Hsum Hten
    cf i due claim_timer.
  assert (Hdue : stale P p w = true <-> due).
  { unfold stale, due. fold cf.
    rewrite (to_uint_fits P (ngx_current_msec p - Shm.action_time (shm w)))
      by lia.
    rewrite (to_uint_fits P (health_delay cf + health_timeout cf))
      by (subst cf; lia).
    rewrite (to_uint_fits P ((health_delay cf + health_timeout cf) * 3))
      by (subst cf; lia).
    apply Z.geb_le. }
  assert (Htimer : to_uint P (health_delay cf * 10) = health_delay cf * 10)
    by (apply to_uint_fits; subst cf; lia).
  destruct (stale P p w) eqn:Hstale.
  - assert (Hd : due) by by apply Hdue.
    eexists. split; [by apply try_for_ownership_takes |].
    erewrite emitted_app by reflexivity. simpl.
    split; [done |]. split; [done |]. split; [done |].
    split; [| done]. split; [| done].
    intros [H | [H | [H | []]]]; discriminate H.
  - assert (Hd : ~ due) by (intros H; apply Hdue in H; discriminate H).
    eexists. split; [by apply try_for_ownership_waits |].
    erewrite emitted_app by reflexivity. simpl.
    fold cf. rewrite Htimer.
    split; [done |]. split; [done |]. split; [done |].
    split; [| done]. split; [done |]. intros _. right. right. by left.
Qed.

(** C7, as the code has it: in every run of the ownership attempt, what
    happens while the lock is held is nothing but memory accesses, except
    that the delay timer is armed there, with [health_delay], when (and
    only when) the worker takes the peer over.  No connection is read or
    closed, nothing is logged, no timer is cancelled and the claim timer
    is not armed between the acquisition and the release. *)
Theorem lock_held_only_across_delay_timer (w w' : world) :
  ngx_http_healthcheck_try_for_ownership P p w = Some w' ->
  let held := while_locked false (emitted w w') in
  let delay_timer :=
    ngx_add_timer (health_ev (Stat.index (stat w)))
      (health_delay (Stat.conf (stat w))) in
  (held = [] \/ held = [delay_timer])
  /\ (held = [delay_timer] <->
      Shm.owner (shm w) <> ngx_pid p /\ Shm.owner (shm w') = ngx_pid p).
Proof.
  intros Hrun held delay_timer. subst held.
  destruct (shutting_down p) eqn:Hsd.
  { unfold ngx_http_healthcheck_try_for_ownership in Hrun.
    rewrite Hsd in Hrun. injection Hrun as <-.
    erewrite emitted_app by apply clear_events_trace.
    rewrite while_locked_del_timers.
    destruct (clear_events_frame p w) as (-> & _).
    split; [by left |]. split; [done | tauto]. }
  destruct (Z.eq_dec (Shm.lock (shm w)) 0) as [Hlock | Hlock];
    [| by rewrite try_for_ownership_busy in Hrun].
  destruct (Z.eq_dec (Shm.owner (shm w)) (ngx_pid p)) as [Hown | Hown].
  { rewrite try_for_ownership_mine in Hrun by done. injection Hrun as <-.
    erewrite emitted_app by reflexivity. simpl.
    split; [by left |]. split; [done | tauto]. }
  destruct (stale P p w) eqn:Hstale.
  - rewrite try_for_ownership_takes in Hrun by done. injection Hrun as <-.
    erewrite emitted_app by reflexivity. simpl.
    split; [by right |]. done.
  - rewrite try_for_ownership_waits in Hrun by done. injection Hrun as <-.
    erewrite emitted_app by reflexivity. simpl.
    split; [by left |]. split; [done |]. intros [_ H]. done.
Qed.

End Ownership.

(** ** The read handler *)

Section ReadHandler.
Variable P : ptr_size.
Variable p : process.

Lemma recv_result (want : Z) (c c' : list recv_event) (size : Z)
    (got : list byte) :
  recv want c = (size, got, c') ->
  (size = NGX_ERROR \/ size = NGX_AGAIN \/ size = Z.of_nat (length got))
  /\ (length got <= Z.to_nat want)%nat.
Proof.
  unfold recv. destruct c as [| [| | bs] c0]; intros H;
    injection H as <- <- <-; simpl; try (split; [tauto | lia]).
  split; [tauto |]. rewrite length_take. lia.
Qed.

(** The test [rb->end < rb->pos] fails after every turn: the loop body
    runs once, whatever the fuel. *)
Lemma read_loop_once (fuel : nat) (w : world) :
  read_loop (S fuel) w = read_once w.
Proof.
  unfold read_once. cbn [read_loop].
  destruct (recv _ (socket w)) as [[size got] c'] eqn:Hrecv.
  apply recv_result in Hrecv as [Hsize Hlen].
  destruct (Z.eqb_spec size NGX_ERROR) as [| Hne]; [done |].
  destruct (Z.eqb_spec size NGX_AGAIN) as [| Hna]; [done |].
  destruct (Z.eqb_spec size 0) as [| Hnz]; [done |].
  match goal with
  | |- (if ?c then _ else _) = _ => replace c with false; [done |]
  end.
  symmetry. apply Z.ltb_ge. unfold buf_pos, buf_append in *. simpl.
  rewrite length_app. lia.
Qed.

Lemma mark_finished_trace (w : world) :
  trace (ngx_http_healthcheck_mark_finished P p w)
  = trace w ++ finished_events p (stat w).
Proof.
  unfold ngx_http_healthcheck_mark_finished, finished_events.
  destruct (shutting_down p); simpl.
  - rewrite clear_events_trace. simpl. by rewrite <- !app_assoc.
  - by rewrite <- !app_assoc.
Qed.

Lemma read_once_trace (w : world) :
  exists want size, trace (read_once w) = trace w ++ [recv_call want size].
Proof.
  unfold read_once.
  destruct (recv _ (socket w)) as [[size got] c'].
  do 2 eexists. by repeat case_match.
Qed.

(** What the recognizer can answer. *)
Lemma process_recv_answer (st : Stat.t) :
  let r := ngx_http_healthcheck_process_recv P st in
  (fst r = NGX_OK /\ Stat.state (snd r) = NGX_HEALTH_OK)
  \/ (fst r = NGX_ERROR
      /\ (Stat.state (snd r) = NGX_HEALTH_BAD_STATUS
          \/ Stat.state (snd r) = NGX_HEALTH_BAD_CODE
          \/ Stat.state (snd r) = NGX_HEALTH_BAD_BODY
          \/ Stat.state (snd r) = NGX_HEALTH_BAD_STATE))
  \/ (fst r = NGX_AGAIN /\ Stat.state (snd r) <> NGX_HEALTH_OK).
Proof.
  unfold ngx_http_healthcheck_process_recv.
  destruct (process_bytes P st _) as [rc s | s] eqn:Hrun; simpl.
  - apply process_bytes_returned in Hrun. tauto.
  - unfold after_loop.
    destruct (state_eqb (Stat.state s) NGX_HEALTH_READING_BODY && _);
      simpl; [by left |].
    destruct (state_eqb (Stat.state s) NGX_HEALTH_OK) eqn:Hok; simpl.
    + apply state_eqb_eq in Hok. by left.
    + apply state_eqb_neq in Hok. right. by right.
Qed.

Lemma read_handler_unfold (w : world) :
  ngx_http_healthcheck_read_handler P p w
  = let w0 := with_shm (Shm.set_action_time (ngx_current_msec p)) w in
    if timed_out P p w then
      ngx_http_healthcheck_mark_finished P p
        (with_stat (Stat.set_state NGX_HEALTH_TIMEOUT) w0)
    else judge P p (read_once w0).
Proof.
  unfold ngx_http_healthcheck_read_handler. by rewrite read_loop_once.
Qed.

(** The three ways through the second half of the read handler. *)
Lemma judge_bad_conn (w : world) :
  Stat.state (stat w) = NGX_HEALTH_BAD_CONN ->
  judge P p w = ngx_http_healthcheck_mark_finished P p w.
Proof. unfold judge. by intros ->. Qed.

Lemma judge_verdict (w : world) :
  Stat.state (stat w) <> NGX_HEALTH_BAD_CONN ->
  fst (ngx_http_healthcheck_process_recv P (stat w)) <> NGX_AGAIN ->
  judge P p w
  = ngx_http_healthcheck_mark_finished P p
      (with_stat (fun _ => snd (ngx_http_healthcheck_process_recv P (stat w)))
         w).
Proof.
  intros Hs Hrc. unfold judge.
  apply state_eqb_neq in Hs. rewrite Hs. simpl.
  pose proof (process_recv_answer (stat w)) as Hans. simpl in Hans.
  destruct (ngx_http_healthcheck_process_recv P (stat w)) as [rc st'].
  simpl in *.
  destruct Hans as [[-> _] | [[-> _] | [-> _]]]; done.
Qed.

Lemma judge_need_more (w : world) :
  Stat.state (stat w) <> NGX_HEALTH_BAD_CONN ->
  fst (ngx_http_healthcheck_process_recv P (stat w)) = NGX_AGAIN ->
  judge P p w
  = let w2 :=
      with_stat (fun _ => snd (ngx_http_healthcheck_process_recv P (stat w)))
        w in
    if buffer_full w2 then
      ngx_http_healthcheck_mark_finished P p
        (with_stat (Stat.set_state NGX_HEALTH_FULL_BUFFER) w2)
    else w2.
Proof.
  intros Hs Hrc. unfold judge.
  apply state_eqb_neq in Hs. rewrite Hs. simpl.
  destruct (ngx_http_healthcheck_process_recv P (stat w)) as [rc st'].
  simpl in *. by subst rc.
Qed.

(** The recognizer leaves the read buffer alone. *)
Lemma process_recv_buffer (st : Stat.t) :
  Stat.read_buffer (snd (ngx_http_healthcheck_process_recv P st))
  = Stat.read_buffer st.
Proof.
  unfold ngx_http_healthcheck_process_recv.
  destruct (process_bytes P st _) as [rc s | s] eqn:Hrun; simpl.
  - revert Hrun. generalize (drop (Z.to_nat (Stat.read_pos st))
                               (received (Stat.read_buffer st))).
    intros bs. revert st. induction bs as [| ch bs IH]; intros st H;
      [discriminate H |].
    cbn [process_bytes] in H.
    destruct (process_byte P st ch) as [rc1 s1 | s1] eqn:H1.
    + injection H as <- <-. clear IH.
      destruct st as [cf i s0 t0 rb rp bp sp sc]. unfold process_byte in H1.
      destruct s0; simpl in H1; repeat case_match;
        try discriminate H1; by injection H1 as <- <-.
    + apply process_byte_running in H1 as (_ & _ & <- & _). by apply IH.
  - apply process_bytes_running in Hrun as (_ & _ & Hrb & _).
    unfold after_loop. by repeat case_match.
Qed.

Lemma in_finished_events (st : Stat.t) (t : ngx_http_health_state) :
  In (log_finished t) (finished_events p st) <-> t = Stat.state st.
Proof.
  unfold finished_events. split.
  - intros [H | [H | H]]; [by injection H | discriminate H |].
    destruct (shutting_down p).
    + apply in_flat_map in H as (i & _ & [H | [H | []]]); discriminate H.
    + destruct H as [H | []]. discriminate H.
  - intros ->. by left.
Qed.

(** Which probe end, if any, the read handler logs. *)
Lemma read_handler_finished (w : world) (t : ngx_http_health_state) :
  let w1 := read_once (with_shm (Shm.set_action_time (ngx_current_msec p)) w) in
  let r := ngx_http_healthcheck_process_recv P (stat w1) in
  In (log_finished t) (emitted w (ngx_http_healthcheck_read_handler P p w))
  <-> (timed_out P p w = true /\ t = NGX_HEALTH_TIMEOUT)
      \/ (timed_out P p w = false
          /\ ((Stat.state (stat w1) = NGX_HEALTH_BAD_CONN
               /\ t = NGX_HEALTH_BAD_CONN)
              \/ (Stat.state (stat w1) <> NGX_HEALTH_BAD_CONN
                  /\ fst r <> NGX_AGAIN /\ t = Stat.state (snd r))
              \/ (Stat.state (stat w1) <> NGX_HEALTH_BAD_CONN
                  /\ fst r = NGX_AGAIN /\ buffer_full w1 = true
                  /\ t = NGX_HEALTH_FULL_BUFFER))).
Proof.
  intros w1 r. rewrite read_handler_unfold. cbv zeta. fold w1.
  destruct (timed_out P p w) eqn:Hto.
  { erewrite emitted_app by (rewrite mark_finished_trace; reflexivity).
    rewrite in_finished_events. simpl.
    split; [intros ->; by left | intros [[_ ->] | [H _]]; done]. }
  destruct (read_once_trace
              (with_shm (Shm.set_action_time (ngx_current_msec p)) w))
    as (want & size & Htr).
  fold w1 in Htr. simpl in Htr.
  assert (Hin : forall evs,
             In (log_finished t) ([recv_call want size] ++ evs)
             <-> In (log_finished t) evs).
  { intros evs. simpl. split; [intros [H | H]; [discriminate H | done] | tauto]. }
  destruct (state_eq_dec (Stat.state (stat w1)) NGX_HEALTH_BAD_CONN)
    as [Hbc | Hbc].
  { rewrite judge_bad_conn by done.
    erewrite emitted_app
      by (rewrite mark_finished_trace, Htr, <- app_assoc; reflexivity).
    rewrite Hin, in_finished_events, Hbc. split.
    - intros ->. right. split; [done |]. by left.
    - intros [[H _] | [_ [[_ ->] | [[H _] | [H _]]]]]; done. }
  destruct (Z.eq_dec (fst r) NGX_AGAIN) as [Hag | Hag].
  - rewrite judge_need_more by done. cbv zeta. fold r.
    replace (buffer_full (with_stat (fun _ => snd r) w1))
      with (buffer_full w1)
      by (unfold buffer_full; simpl; subst r;
          by rewrite process_recv_buffer).
    destruct (buffer_full w1) eqn:Hfull.
    + erewrite emitted_app
        by (rewrite mark_finished_trace; simpl; rewrite Htr, <- app_assoc;
            reflexivity).
      rewrite Hin, in_finished_events. simpl. split.
      * intros ->. right. split; [done |]. right. by right.
      * intros [[H _] | [_ [[H _] | [[_ [H _]] | (_ & _ & _ & ->)]]]]; done.
    + erewrite emitted_app by (simpl; rewrite Htr; reflexivity).
      simpl. split.
      * intros [H | []]. discriminate H.
      * intros [[H _] | [_ [[H _] | [[_ [H _]] | (_ & _ & H & _)]]]]; done.
  - rewrite judge_verdict by done. fold r.
    erewrite emitted_app
      by (rewrite mark_finished_trace; simpl; rewrite Htr, <- app_assoc;
          reflexivity).
    rewrite Hin, in_finished_events. simpl. split.
    * intros ->. right. split; [done |]. right. by left.
    * intros [[H _] | [_ [[H _] | [(_ & _ & ->) | (_ & H & _)]]]]; done.
Qed.

(** C6: when the recognizer reaches a verdict on what the read buffer
    holds, the probe ends with that verdict, which is never
    [NGX_HEALTH_FULL_BUFFER], whether or not the bytes fill the buffer to
    its end; and a probe ends with [NGX_HEALTH_FULL_BUFFER] in exactly one
    case: the recognizer answers [NGX_AGAIN] and the buffer has no room
    left.  A buffer of 23 bytes filled by a good 23-byte reply is
    [NGX_HEALTH_OK]. *)
Theorem verdict_before_full_buffer (w : world) :
  let w1 := read_once (with_shm (Shm.set_action_time (ngx_current_msec p)) w) in
  let r := ngx_http_healthcheck_process_recv P (stat w1) in
  let w' := ngx_http_healthcheck_read_handler P p w in
  (timed_out P p w = false ->
   Stat.state (stat w1) <> NGX_HEALTH_BAD_CONN ->
   fst r <> NGX_AGAIN ->
   In (log_finished (Stat.state (snd r))) (emitted w w')
   /\ (forall t, In (log_finished t) (emitted w w') -> t = Stat.state (snd r))
   /\ Shm.down_code (shm w') = Stat.state (snd r)
   /\ Stat.state (snd r) <> NGX_HEALTH_FULL_BUFFER)
  /\ (In (log_finished NGX_HEALTH_FULL_BUFFER) (emitted w w') <->
      timed_out P p w = false
      /\ Stat.state (stat w1) <> NGX_HEALTH_BAD_CONN
      /\ fst r = NGX_AGAIN
      /\ buffer_full w1 = true).
Proof.
  intros w1 r w'. split.
  - intros Hto Hbc Hrc.
    split; [apply read_handler_finished; fold w1 r; tauto |].
    split.
    { intros t Ht. apply read_handler_finished in Ht. fold w1 r in Ht.
      destruct Ht as [[H _] | [_ [[H _] | [(_ & _ & ->) | (_ & H & _)]]]];
        done || congruence. }
    split.
    { subst w'. rewrite read_handler_unfold, Hto. cbv zeta. fold w1.
      rewrite judge_verdict by done. by rewrite mark_finished_shm. }
    pose proof (process_recv_answer (stat w1)) as Hans. cbv zeta in Hans.
    fold r in Hans.
    destruct Hans as [[_ ->] | [[_ [-> | [-> | [-> | ->]]]] | [H _]]]; done.
  - subst w'. rewrite read_handler_finished. fold w1 r. split.
    + intros [[_ H] | [Hto [[_ H] | [(Hbc & Hrc & Ht) | (Hbc & Hrc & Hf & _)]]]];
        try discriminate H; [| done].
      pose proof (process_recv_answer (stat w1)) as Hans. cbv zeta in Hans.
      fold r in Hans. rewrite <- Ht in Hans.
      destruct Hans as [[_ H] | [[_ [H | [H | [H | H]]]] | [H _]]];
        done || discriminate H.
    + intros (Hto & Hbc & Hrc & Hf). right. split; [done |]. right. by right.
Qed.

End ReadHandler.

(** ** The shared zone and the status query *)

Lemma init_slots_lookup (now : Z) (n : nat) (fuel : nat) :
  forall (i : nat) (tbl : list Shm.t) (j : nat),
  (n - i <= fuel)%nat ->
  init_slots now n fuel i tbl !! j
  = if bool_decide (i <= j < n)%nat
    then init_slot now j <$> tbl !! j
    else tbl !! j.
Proof.
  induction fuel as [| fuel IH]; intros i tbl j Hfuel; simpl.
  - rewrite bool_decide_eq_false_2; [done | lia].
  - destruct (Nat.ltb_spec i n) as [Hlt | Hge].
    + rewrite IH by lia.
      destruct (Nat.eq_dec i j) as [-> | Hne].
      * rewrite bool_decide_eq_false_2 by lia.
        rewrite bool_decide_eq_true_2 by lia.
        rewrite list_lookup_alter. by case_decide.
      * rewrite list_lookup_alter_ne by done.
        destruct (bool_decide_reflect (S i <= j < n)%nat);
          [rewrite bool_decide_eq_true_2 by lia
          | rewrite bool_decide_eq_false_2 by lia]; done.
    + rewrite bool_decide_eq_false_2; [done | lia].
Qed.

Lemma init_slots_length (now : Z) (n : nat) (fuel : nat) :
  forall (i : nat) (tbl : list Shm.t),
  length (init_slots now n fuel i tbl) = length tbl.
Proof.
  induction fuel as [| fuel IH]; intros i tbl; simpl; [done |].
  destruct (i <? n)%nat; [| done]. by rewrite IH, length_alter.
Qed.

(** C9: on the first mapping (no [data], the allocation succeeds) the
    callback stores, in every slot [i] below [nelts], [index = i],
    [action_time = 0], [down = 0] and [since = now], and nothing else:
    [owner], [lock], [concurrent], [last_down] and [down_code] keep what
    the allocated memory held.  Nothing beyond [nelts] is written. *)
Theorem init_zone_writes_four_fields (now : Z) (n : nat)
    (raw : list Shm.t) (z : zone) (i : nat) (s : Shm.t) :
  (i < n)%nat ->
  raw !! i = Some s ->
  exists (tbl : list Shm.t) (s' : Shm.t),
    ngx_http_healthcheck_init_zone now n None (Some raw) z
    = (NGX_OK, {| ngx_http_healthchecks_shm := Some tbl;
                  zone_data := Some tbl |})
    /\ length tbl = length raw
    /\ tbl !! i = Some s'
    /\ Shm.index s' = Z.of_nat i
    /\ Shm.action_time s' = 0
    /\ Shm.down s' = 0
    /\ Shm.since s' = now
    /\ Shm.owner s' = Shm.owner s
    /\ Shm.lock s' = Shm.lock s
    /\ Shm.concurrent s' = Shm.concurrent s
    /\ Shm.last_down s' = Shm.last_down s
    /\ Shm.down_code s' = Shm.down_code s
    /\ (forall j, (n <= j)%nat -> tbl !! j = raw !! j).
Proof.
  intros Hi Hs.
  exists (init_slots now n n 0 raw), (init_slot now i s).
  split; [done |]. split; [apply init_slots_length |].
  split.
  { rewrite init_slots_lookup by lia.
    rewrite bool_decide_eq_true_2 by lia. by rewrite Hs. }
  do 9 (split; [done |]).
  intros j Hj. rewrite init_slots_lookup by lia.
  rewrite bool_decide_eq_false_2; [done | lia].
Qed.

(** C8: [is_down] answers 1 exactly when the index is below the number
    of registered peers, healthchecks are enabled for the upstream of
    that peer and the [down] word of its shared slot is not zero, and 0
    otherwise; for an index out of range the answer is 0 whatever the
    shared table holds, which is never consulted. *)
Theorem is_down_iff (arr : list Stat.t) (tbl : list Shm.t) (index : nat) :
  (ngx_http_healthcheck_is_down arr tbl index = 1 <->
   (index < length arr)%nat
   /\ (exists st, arr !! index = Some st
                  /\ healthcheck_enabled (Stat.conf st) = true)
   /\ (exists s, tbl !! index = Some s /\ Shm.down s <> 0))
  /\ (ngx_http_healthcheck_is_down arr tbl index <> 1 ->
      ngx_http_healthcheck_is_down arr tbl index = 0)
  /\ ((length arr <= index)%nat ->
      forall tbl' : list Shm.t,
      ngx_http_healthcheck_is_down arr tbl' index = 0).
Proof.
  unfold ngx_http_healthcheck_is_down. split; [| split].
  - destruct (Nat.ltb_spec index (length arr)) as [Hlt | Hge].
    + destruct (arr !! index) as [st |] eqn:Hst.
      * destruct (healthcheck_enabled (Stat.conf st)) eqn:Hen.
        -- destruct (tbl !! index) as [s |] eqn:Hs.
           ++ destruct (Z.eqb_spec (Shm.down s) 0) as [Hd | Hd].
              ** split; [done |]. intros (_ & _ & s' & [= <-] & H). done.
              ** split; [| done]. intros _. eauto 8.
           ++ split; [done |]. intros (_ & _ & s' & H & _). done.
        -- split; [done |]. intros (_ & (st' & [= <-] & H) & _). congruence.
      * split; [done |]. intros (_ & (st' & H & _) & _). done.
    + split; [done |]. lia.
  - repeat case_match; done.
  - intros Hge tbl'. destruct (Nat.ltb_spec index (length arr)); [lia | done].
Qed.

(** * Concrete runs *)

(** ** The recognizer *)

(** C2 fails as stated: the reply [sample_reply] ends with the expected
    body [pong]; followed by one more byte it is a bad body in one chunk,
    but when the extra byte comes in a second chunk the probe has ended
    with [NGX_HEALTH_OK] before. *)
Lemma chunk_invariance_fails :
  fresh (sample_stat 64)
  /\ verdict (feed_twice PTR8 (sample_stat 64) sample_reply (bytes "X"))
     = (NGX_OK, NGX_HEALTH_OK)
  /\ verdict (feed PTR8 (sample_stat 64) (sample_reply ++ bytes "X"))
     = (NGX_ERROR, NGX_HEALTH_BAD_BODY)
  /\ verdict (feed_twice PTR8 (sample_stat 64) sample_reply (bytes "X"))
     <> verdict (feed PTR8 (sample_stat 64) (sample_reply ++ bytes "X")).
Proof.
  split; [by repeat split |].
  split; [by vm_compute |]. split; [by vm_compute |].
  by vm_compute.
Qed.

(** The amended statement on the same reply, split after the status line
    and split right before the extra byte. *)
Lemma chunks_agree_witness :
  fresh (sample_stat 64)
  /\ matched_at_end PTR8 (sample_stat 64) sample_reply = true
  /\ verdict (feed PTR8 (sample_stat 64) (sample_reply ++ [x58]))
     = (NGX_ERROR, NGX_HEALTH_BAD_BODY)
  /\ verdict (feed_twice PTR8 (sample_stat 64)
                (bytes "HTTP/1.1 200 OK") ([CR; LF; CR; LF] ++ bytes "pongX"))
     = (NGX_ERROR, NGX_HEALTH_BAD_BODY)
  /\ verdict (feed_twice PTR8 (sample_stat 64) sample_reply [x58])
     = (NGX_OK, NGX_HEALTH_OK).
Proof.
  assert (Hf : fresh (sample_stat 64)) by (by repeat split).
  assert (Hm : matched_at_end PTR8 (sample_stat 64) sample_reply = true)
    by (by vm_compute).
  split; [exact Hf |]. split; [exact Hm |].
  destruct (chunks_agree_unless_body_complete PTR8 (sample_stat 64)
              (bytes "HTTP/1.1 200 OK") ([CR; LF; CR; LF] ++ bytes "pongX")
              Hf) as (_ & _ & H3).
  destruct (H3 sample_reply x58 Hm eq_refl) as (Hone & Hne & _).
  split; [exact Hone |].
  split; [apply Hne; by vm_compute |].
  destruct (chunks_agree_unless_body_complete PTR8 (sample_stat 64)
              sample_reply [x58] Hf) as (_ & H2 & _).
  exact (H2 Hm).
Defined.

(** The status code 200, the status code 404 and a letter in the code. *)
Lemma status_code_witness :
  Stat.state (sample_code_stat 200) = NGX_HEALTH_READING_STAT_CODE
  /\ process_byte PTR8 (sample_code_stat 200) SP
     = Running (Stat.set_state NGX_HEALTH_READING_HEADER
                  (Stat.set_read_pos 13 (sample_code_stat 200)))
  /\ process_byte PTR8 (sample_code_stat 404) SP
     = Returned NGX_ERROR
         (Stat.set_state NGX_HEALTH_BAD_CODE
            (Stat.set_read_pos 13 (sample_code_stat 404)))
  /\ process_byte PTR8 (sample_code_stat 20) "x"%byte
     = Returned NGX_ERROR
         (Stat.set_state NGX_HEALTH_BAD_STATUS
            (Stat.set_read_pos 13 (sample_code_stat 20))).
Proof.
  split; [reflexivity |].
  split.
  { exact (proj1 (status_code_accepts_only_200 PTR8 (sample_code_stat 200) SP
                    eq_refl) eq_refl eq_refl). }
  split.
  { apply (status_code_accepts_only_200 PTR8 (sample_code_stat 404) SP
             eq_refl); [reflexivity | by vm_compute]. }
  apply (status_code_accepts_only_200 PTR8 (sample_code_stat 20) "x"%byte
           eq_refl); [by vm_compute |].
  unfold is_digit. vm_compute. intros [_ H]. by apply H.
Defined.

(** With a 64-bit word, the twenty digits of [2 ^ 64 + 200] are taken for
    200, and so is [0200]. *)
Lemma status_code_modulo_witness :
  decimal (bytes "18446744073709551816") = 2 ^ 64 + 200
  /\ process_bytes PTR8 (sample_code_stat 0)
       (bytes "18446744073709551816" ++ [SP])
     = Running (Stat.set_state NGX_HEALTH_READING_HEADER
                  (Stat.set_stat_code 200
                     (Stat.set_read_pos 33 (sample_code_stat 0))))
  /\ process_bytes PTR8 (sample_code_stat 0) (bytes "0200" ++ [SP])
     = Running (Stat.set_state NGX_HEALTH_READING_HEADER
                  (Stat.set_stat_code 200
                     (Stat.set_read_pos 17 (sample_code_stat 0)))).
Proof.
  split; [reflexivity |].
  assert (Hds : Forall is_digit (bytes "18446744073709551816")).
  { unfold bytes, is_digit. simpl.
    repeat constructor; by vm_compute. }
  destruct (status_code_modulo_word PTR8 (sample_code_stat 0)
              (bytes "18446744073709551816") eq_refl eq_refl Hds)
    as (Hyes & _ & Hzero).
  split; [exact (Hyes eq_refl) | exact Hzero].
Defined.

(** Replies and their verdicts, with [pong] expected. *)
Example reply_with_headers :
  verdict (feed PTR8 (sample_stat 64)
             (bytes "HTTP/1.1 200 OK" ++ [CR; LF]
              ++ bytes "Content-Length: 4" ++ [CR; LF; CR; LF]
              ++ bytes "pong"))
  = (NGX_OK, NGX_HEALTH_OK).
Proof. by vm_compute. Qed.

Example reply_500 :
  verdict (feed PTR8 (sample_stat 64)
             (bytes "HTTP/1.1 500 X" ++ [CR; LF; CR; LF]))
  = (NGX_ERROR, NGX_HEALTH_BAD_CODE).
Proof. by vm_compute. Qed.

Example reply_ping :
  verdict (feed PTR8 (sample_stat 64)
             (bytes "HTTP/1.1 200 OK" ++ [CR; LF; CR; LF] ++ bytes "ping"))
  = (NGX_ERROR, NGX_HEALTH_BAD_BODY).
Proof. by vm_compute. Qed.

Example reply_without_status_line :
  verdict (feed PTR8 (sample_stat 64) [CR; LF])
  = (NGX_ERROR, NGX_HEALTH_BAD_STATUS).
Proof. by vm_compute. Qed.

Example reply_cut_short :
  verdict (feed PTR8 (sample_stat 64)
             (bytes "HTTP/1.1 200 OK" ++ [CR; LF; CR; LF] ++ bytes "po"))
  = (NGX_AGAIN, NGX_HEALTH_READING_BODY).
Proof. by vm_compute. Qed.

(** ** The verdict filter *)

(** Two bad probes in a row with [health_failcount = 2]: the first one
    starts a run and leaves [down] alone, the second one publishes it. *)
Example two_bad_probes :
  Shm.down
    (shm (ngx_http_healthcheck_mark_finished PTR8 (sample_process false)
            (with_stat (Stat.set_state NGX_HEALTH_BAD_CODE)
               (sample_world 64 4242 []))))
  = 0
  /\ Shm.down
       (shm (ngx_http_healthcheck_mark_finished PTR8 (sample_process false)
               (with_stat (Stat.set_state NGX_HEALTH_BAD_CODE)
                  (ngx_http_healthcheck_mark_finished PTR8
                     (sample_process false)
                     (with_stat (Stat.set_state NGX_HEALTH_BAD_CODE)
                        (sample_world 64 4242 []))))))
     = 1.
Proof. by vm_compute. Qed.

(** ** The ownership attempt *)

(** C3 fails as stated: a worker that has seen [ngx_quit] runs the attempt
    on a peer owned by another pid whose last action is old enough; it
    returns before the lock, does not take the peer and does not arm the
    claim timer either. *)
Lemma quitting_worker_neither_claims_nor_retries :
  Shm.owner (shm (sample_world 64 17 [])) <> ngx_pid (sample_process true)
  /\ stale PTR8 (sample_process true) (sample_world 64 17 []) = true
  /\ exists w',
       ngx_http_healthcheck_try_for_ownership PTR8 (sample_process true)
         (sample_world 64 17 []) = Some w'
       /\ Shm.owner (shm w') <> ngx_pid (sample_process true)
       /\ emitted (sample_world 64 17 []) w'
          = [ngx_del_timer (health_ev 0); ngx_del_timer (ownership_ev 0)]
       /\ ~ In (ngx_add_timer (ownership_ev 0) 10000)
              (emitted (sample_world 64 17 []) w').
Proof.
  split; [by vm_compute |]. split; [by vm_compute |].
  eexists. split; [reflexivity |].
  split; [by vm_compute |]. split; [by vm_compute |].
  vm_compute. intros [H | [H | []]]; discriminate H.
Qed.

(** The same peer and a worker that is not shutting down: 5000 ms have
    passed, the deadline is 4500 ms, the worker takes the peer. *)
Lemma ownership_taken_witness :
  exists w',
    ngx_http_healthcheck_try_for_ownership PTR8 (sample_process false)
      (sample_world 64 17 []) = Some w'
    /\ Shm.owner (shm w') = 4242
    /\ Shm.action_time (shm w') = 5100
    /\ Stat.state (stat w') = NGX_HEALTH_WAITING
    /\ emitted (sample_world 64 17 []) w'
       = [ngx_spinlock 4242; ngx_add_timer (health_ev 0) 1000;
          ngx_atomic_cmp_set 4242 0 true].
Proof.
  assert (Hown : Shm.owner (shm (sample_world 64 17 []))
                 <> ngx_pid (sample_process false)) by (by vm_compute).
  assert (Hclock : 0 <= Shm.action_time (shm (sample_world 64 17 []))
                   <= ngx_current_msec (sample_process false))
    by (split; by vm_compute).
  destruct (ownership_taken_iff_stale PTR8 (sample_process false)
              (sample_world 64 17 []) eq_refl eq_refl Hown Hclock
              eq_refl ltac:(by vm_compute) ltac:(by vm_compute)
              eq_refl eq_refl)
    as (w' & Hrun & Hiff & Hdue & _).
  assert (Hd : (1000 + 500) * 3 <= 5100 - 100) by (by vm_compute).
  exists w'. split; [exact Hrun |].
  split; [exact (proj2 Hiff Hd) |].
  exact (Hdue Hd).
Defined.

(** Outside the bounds of that statement the comparison is the one of
    the unsigned words: a worker whose clock is behind the stored
    [action_time] (5100 against 5200) finds the difference wrapped around
    and takes the peer from an owner that has just acted. *)
Lemma clock_behind_takes_the_peer :
  let w := with_shm (Shm.set_action_time 5200) (sample_world 64 17 []) in
  ngx_current_msec (sample_process false) < Shm.action_time (shm w)
  /\ exists w',
       ngx_http_healthcheck_try_for_ownership PTR8 (sample_process false) w
       = Some w'
       /\ Shm.owner (shm w') = 4242.
Proof.
  intros w. split; [by vm_compute |].
  eexists. split; reflexivity.
Qed.

(** C7 fails as stated: on the same peer a worker that is not shutting
    down takes the peer over and arms the delay timer between
    [ngx_spinlock] and the compare-and-set that releases the lock. *)
Lemma delay_timer_armed_under_lock :
  exists w',
    ngx_http_healthcheck_try_for_ownership PTR8 (sample_process false)
      (sample_world 64 17 []) = Some w'
    /\ emitted (sample_world 64 17 []) w'
       = [ngx_spinlock 4242; ngx_add_timer (health_ev 0) 1000;
          ngx_atomic_cmp_set 4242 0 true]
    /\ while_locked false (emitted (sample_world 64 17 []) w')
       = [ngx_add_timer (health_ev 0) 1000]
    /\ existsb timer_or_io
         (while_locked false (emitted (sample_world 64 17 []) w')) = true.
Proof. eexists. split; [reflexivity |]. by vm_compute. Qed.

(** A worker that owns the peer already does nothing under the lock. *)
Lemma lock_held_witness :
  exists w',
    ngx_http_healthcheck_try_for_ownership PTR8 (sample_process false)
      (sample_world 64 4242 []) = Some w'
    /\ while_locked false (emitted (sample_world 64 4242 []) w') = [].
Proof.
  eexists. split; [reflexivity |].
  destruct (lock_held_only_across_delay_timer PTR8 (sample_process false)
              (sample_world 64 4242 []) _ eq_refl) as [[H | H] _];
    [exact H | by vm_compute in H].
Defined.

(** ** The read handler *)

(** C4 on a socket where a first [recv] returns nine bytes, a second one
    would return the rest of the reply and a third one would block: one
    readable notification makes one [recv] call.  The handler takes the
    nine bytes, does not call [recv] again although it has met neither an
    error nor a close nor a would-block, and runs the recognizer on the
    nine bytes it has. *)
Theorem read_handler_stops_after_first_recv :
  emitted (sample_world 64 4242 sample_segments)
    (ngx_http_healthcheck_read_handler PTR8 (sample_process false)
       (sample_world 64 4242 sample_segments))
  = [recv_call 64 9]
  /\ socket (ngx_http_healthcheck_read_handler PTR8 (sample_process false)
               (sample_world 64 4242 sample_segments))
     = [segment (bytes "200 OK" ++ [CR; LF; CR; LF] ++ bytes "pong");
        recv_again]
  /\ received (Stat.read_buffer
                 (stat (ngx_http_healthcheck_read_handler PTR8
                          (sample_process false)
                          (sample_world 64 4242 sample_segments))))
     = bytes "HTTP/1.1 "
  /\ Stat.state (stat (ngx_http_healthcheck_read_handler PTR8
                         (sample_process false)
                         (sample_world 64 4242 sample_segments)))
     = NGX_HEALTH_READING_STAT_CODE.
Proof. by vm_compute. Qed.

(** A good reply of 23 bytes in a read buffer of 23 bytes. *)
Lemma exact_fit_witness :
  Z.of_nat (length sample_reply) = 23
  /\ In (log_finished NGX_HEALTH_OK)
       (emitted (sample_world 23 4242 [segment sample_reply])
          (ngx_http_healthcheck_read_handler PTR8 (sample_process false)
             (sample_world 23 4242 [segment sample_reply])))
  /\ Shm.down_code
       (shm (ngx_http_healthcheck_read_handler PTR8 (sample_process false)
               (sample_world 23 4242 [segment sample_reply])))
     = NGX_HEALTH_OK
  /\ ~ In (log_finished NGX_HEALTH_FULL_BUFFER)
         (emitted (sample_world 23 4242 [segment sample_reply])
            (ngx_http_healthcheck_read_handler PTR8 (sample_process false)
               (sample_world 23 4242 [segment sample_reply]))).
Proof.
  split; [reflexivity |].
  destruct (verdict_before_full_buffer PTR8 (sample_process false)
              (sample_world 23 4242 [segment sample_reply])) as [Hv Hfull].
  assert (H1 : timed_out PTR8 (sample_process false)
                 (sample_world 23 4242 [segment sample_reply]) = false)
    by (by vm_compute).
  specialize (Hv H1).
  match type of Hv with ?A -> _ => assert (H2 : A) by (by vm_compute) end.
  specialize (Hv H2).
  match type of Hv with ?A -> _ => assert (H3 : A) by (by vm_compute) end.
  destruct (Hv H3) as (Hin & _ & Hcode & _).
  split; [vm_compute in Hin; vm_compute; exact Hin |].
  split; [vm_compute in Hcode; vm_compute; exact Hcode |].
  intros H. destruct (proj1 Hfull H) as (_ & _ & Hrc & _).
  vm_compute in Hrc. discriminate Hrc.
Defined.

(** ** The shared zone *)

(** Two slots with arbitrary contents; the second one after the callback. *)
Lemma init_zone_witness :
  exists (tbl : list Shm.t) (s' : Shm.t),
    ngx_http_healthcheck_init_zone 77 2 None (Some sample_raw)
      {| ngx_http_healthchecks_shm := None; zone_data := None |}
    = (NGX_OK, {| ngx_http_healthchecks_shm := Some tbl;
                  zone_data := Some tbl |})
    /\ tbl !! 1%nat = Some s'
    /\ (Shm.index s' = 1 /\ Shm.action_time s' = 0 /\ Shm.down s' = 0
        /\ Shm.since s' = 77)
    /\ (Shm.owner s' = 8 /\ Shm.lock s' = 0 /\ Shm.concurrent s' = 17
        /\ Shm.last_down s' = false
        /\ Shm.down_code s' = NGX_HEALTH_TIMEOUT).
Proof.
  destruct (init_zone_writes_four_fields 77 2 sample_raw
              {| ngx_http_healthchecks_shm := None; zone_data := None |}
              1 _ ltac:(lia) eq_refl)
    as (tbl & s' & Hrun & _ & Hs & Hi & Ha & Hd & Hsi & Ho & Hl & Hc & Hld
        & Hdc & _).
  exists tbl, s'. by repeat split.
Defined.

(** * The rest of the module *)

(** ** The write handler and the start of a probe *)

Section WriteSideFacts.
Variable P : ptr_size.
Variable p : process.

Lemma mark_finished_stat (w : world) :
  stat (ngx_http_healthcheck_mark_finished P p w)
  = Stat.set_state NGX_HEALTH_WAITING (stat w)
  /\ socket (ngx_http_healthcheck_mark_finished P p w) = socket w.
Proof.
  unfold ngx_http_healthcheck_mark_finished.
  destruct (negb (shutting_down p)); simpl; [done |].
  match goal with
  | |- context [ngx_http_healthcheck_clear_events p ?x] =>
      destruct (clear_events_frame p x) as (_ & -> & ->)
  end.
  done.
Qed.

(** The events of a finished probe depend on the state it ended in, on
    the peer's index and on its configuration only. *)
Lemma finished_events_ext (st st' : Stat.t) :
  Stat.state st = Stat.state st' ->
  Stat.index st = Stat.index st' ->
  Stat.conf st = Stat.conf st' ->
  finished_events p st = finished_events p st'.
Proof. unfold finished_events. by intros -> -> ->. Qed.

(** A failed [send]: the probe ends as a bad connection. *)
Lemma write_fails (w : world) (c c0 : outgoing) :
  sent_so_far w c ->
  Stat.send_pos (stat w) < send_len (stat w) ->
  wire c0 = wire c ->
  write_post p w
    (with_shm (Shm.set_action_time (ngx_current_msec p))
       (ngx_http_healthcheck_mark_finished P p
          (with_stat (Stat.set_state NGX_HEALTH_BAD_CONN) w)))
    c0.
Proof.
  intros Hsent Hlt Hwire.
  destruct (mark_finished_stat
              (with_stat (Stat.set_state NGX_HEALTH_BAD_CONN) w))
    as [Hs Hk].
  unfold write_post, sent_so_far in *.
  cbn [stat socket shm trace with_shm]. rewrite Hs, Hk, Hwire.
  cbn [stat socket shm trace with_stat].
  split; [by destruct (stat w) |]. split; [done |].
  split; [done |]. split; [simpl; lia |]. right.
  rewrite mark_finished_trace, mark_finished_shm. done.
Qed.

Lemma write_blocks (w : world) (c : outgoing) :
  sent_so_far w c ->
  Stat.state (stat w) = NGX_HEALTH_SENDING_CHECK ->
  write_post p w w c.
Proof.
  intros Hsent Hst. unfold write_post.
  split; [by destruct (stat w) |]. split; [done |]. split; [done |].
  split; [lia |]. left. split; [done |]. split; [done |].
  by destruct (shm w).
Qed.

(** The loop of the write handler, for a probe that is sending and has
    bytes left. *)
Lemma write_loop_spec (fuel : nat) : forall (w : world) (c : outgoing),
  Stat.state (stat w) = NGX_HEALTH_SENDING_CHECK ->
  sent_so_far w c ->
  Stat.send_pos (stat w) < send_len (stat w) ->
  (Z.to_nat (send_len (stat w) - Stat.send_pos (stat w)) < fuel)%nat ->
  forall (w' : world) (c' : outgoing),
  write_loop P p fuel w c = (w', c') ->
  write_post p w w' c'.
Proof.
  induction fuel as [| fuel IH]; intros w c Hst Hsent Hlt Hfuel w' c' Hrun;
    [lia |].
  cbn [write_loop] in Hrun. unfold send in Hrun.
  destruct (sends c) as [| [| | n] s] eqn:Hsends.
  - injection Hrun as <- <-. by apply write_blocks.
  - injection Hrun as <- <-. by apply (write_fails w c).
  - injection Hrun as <- <-. by apply write_blocks.
  - set (size := Z.of_nat (length (take n (unsent (stat w))))) in *.
    assert (Hsize : 0 <= size <= send_len (stat w) - Stat.send_pos (stat w)).
    { subst size. rewrite length_take. unfold unsent, send_len in *.
      rewrite length_drop. lia. }
    destruct (Z.eqb_spec size NGX_ERROR) as [He | _];
      [unfold NGX_ERROR in He; lia |].
    destruct (Z.eqb_spec size 0) as [Hz | Hnz]; cbn [orb] in Hrun.
    { injection Hrun as <- <-. apply (write_fails w c); [done | done |].
      cbn [wire].
      assert (Hnil : take n (unsent (stat w)) = []).
      { apply nil_length_inv. subst size. lia. }
      by rewrite Hnil, app_nil_r. }
    destruct (Z.eqb_spec size NGX_AGAIN) as [Ha | _];
      [unfold NGX_AGAIN in Ha; lia |].
    assert (Hwire : wire c ++ take n (unsent (stat w))
                    = take (Z.to_nat (Stat.send_pos (stat w) + size))
                        (health_send (Stat.conf (stat w)))).
    { destruct Hsent as [Hpos ->]. unfold unsent.
      replace (take n (drop (Z.to_nat (Stat.send_pos (stat w)))
                         (health_send (Stat.conf (stat w)))))
        with (take (Z.to_nat size)
                (drop (Z.to_nat (Stat.send_pos (stat w)))
                   (health_send (Stat.conf (stat w))))).
      - rewrite take_take_drop. f_equal. lia.
      - subst size. rewrite Nat2Z.id. unfold unsent.
        rewrite length_take.
        destruct (Nat.le_ge_cases n
                    (length (drop (Z.to_nat (Stat.send_pos (stat w)))
                               (health_send (Stat.conf (stat w))))))
          as [Hle | Hge].
        + by rewrite Nat.min_l.
        + rewrite Nat.min_r by done. rewrite take_ge by done.
          by rewrite take_ge. }
    set (w1 := with_stat
                 (set_send_pos
                    (Stat.send_pos
                       (stat (with_shm
                                (Shm.set_action_time (ngx_current_msec p))
                                w)) + size))
                 (with_shm (Shm.set_action_time (ngx_current_msec p)) w))
      in *.
    set (c1 := {| sends := s; wire := wire c ++ take n (unsent (stat w)) |})
      in *.
    assert (Hsent1 : sent_so_far w1 c1).
    { unfold sent_so_far, send_len in *. subst w1 c1. simpl.
      split; [lia | done]. }
    assert (Hpost1 : write_post p w w1 c1).
    { unfold write_post. subst w1. simpl.
      split; [by destruct (stat w); simpl in *; subst |].
      split; [done |]. split; [done |]. split; [lia |]. left.
      split; [done |]. split; [done |]. by destruct (shm w). }
    destruct (Z.ltb_spec (Stat.send_pos (stat w1)) (send_len (stat w1)))
      as [Hmore | Hdone].
    + apply IH in Hrun; [| done | done | done |].
      * destruct Hrun as (Hstat & Hsock & Hsent' & Hle & Hcases).
        destruct Hpost1 as (Hstat1 & _ & _ & Hle1 & _).
        split.
        { rewrite <- Hstat, <- Hstat1. by destruct (stat w). }
        split; [done |]. split; [done |]. split; [lia |].
        destruct Hcases as [(Hs & Htr & Hshm) | (Hs & Hsp & Htr & Hdc)].
        -- left. split; [done |]. split; [done |].
           rewrite <- Hshm. subst w1. simpl. by destruct (shm w).
        -- right. split; [done |]. split; [done |]. split; [| done].
           rewrite Htr. f_equal; by apply finished_events_ext.
      * subst w1. simpl in *. unfold send_len in *. simpl in *. lia.
    + by injection Hrun as <- <-.
Qed.

(** The handler's own part around the loop. *)
Lemma write_handler_sending (w : world) (c : outgoing) :
  Stat.state (stat w) = NGX_HEALTH_SENDING_CHECK ->
  ngx_http_healthcheck_write_handler P p w c
  = let r := write_loop P p
               (S (Z.to_nat (send_len (stat w) - Stat.send_pos (stat w))))
               w c in
    if Stat.send_pos (stat (fst r)) >? send_len (stat (fst r))
    then (emit log_warn (fst r), snd r)
    else if Stat.send_pos (stat (fst r)) =? send_len (stat (fst r))
    then (with_stat (Stat.set_state NGX_HEALTH_READING_STAT_LINE) (fst r),
          snd r)
    else r.
Proof.
  intros Hst. unfold ngx_http_healthcheck_write_handler. rewrite Hst.
  cbn [state_eqb health_state_value Z.eqb Pos.eqb negb].
  cbv zeta. by destruct (write_loop P p _ w c).
Qed.

(** The handler on a probe that is sending and has bytes left: the three
    ways it can end, and what it leaves alone. *)
Lemma write_handler_cases (w : world) (c : outgoing) :
  Stat.state (stat w) = NGX_HEALTH_SENDING_CHECK ->
  sent_so_far w c ->
  Stat.send_pos (stat w) < send_len (stat w) ->
  let w' := fst (ngx_http_healthcheck_write_handler P p w c) in
  let c' := snd (ngx_http_healthcheck_write_handler P p w c) in
  set_send_pos (Stat.send_pos (stat w'))
    (Stat.set_state (Stat.state (stat w')) (stat w)) = stat w'
  /\ sent_so_far w' c'
  /\ socket w' = socket w
  /\ ((Stat.state (stat w') = NGX_HEALTH_READING_STAT_LINE
       /\ wire c' = health_send (Stat.conf (stat w))
       /\ emitted w w' = [])
      \/ (Stat.state (stat w') = NGX_HEALTH_SENDING_CHECK
          /\ Stat.send_pos (stat w) <= Stat.send_pos (stat w')
             < send_len (stat w)
          /\ emitted w w' = [])
      \/ (Stat.state (stat w') = NGX_HEALTH_WAITING
          /\ Stat.send_pos (stat w') < send_len (stat w)
          /\ emitted w w'
             = finished_events p
                 (Stat.set_state NGX_HEALTH_BAD_CONN (stat w))
          /\ Shm.down_code (shm w') = NGX_HEALTH_BAD_CONN)).
Proof.
  intros Hst Hsent Hlt. rewrite write_handler_sending by done. cbv zeta.
  destruct (write_loop P p _ w c) as [w1 c1] eqn:Hrun.
  apply write_loop_spec in Hrun; [| done | done | done | lia].
  destruct Hrun as (Hstat & Hsock & Hsent1 & Hle & Hcases).
  assert (Hlen : send_len (stat w1) = send_len (stat w)).
  { rewrite <- Hstat. by destruct (stat w). }
  assert (Hcf : Stat.conf (stat w1) = Stat.conf (stat w)).
  { rewrite <- Hstat. by destruct (stat w). }
  cbn [fst snd]. destruct Hsent1 as [Hrange Hwire].
  destruct (Z.gtb_spec (Stat.send_pos (stat w1)) (send_len (stat w1)));
    [lia |].
  destruct (Z.eqb_spec (Stat.send_pos (stat w1)) (send_len (stat w1)))
    as [Hall | Hpart]; cbn [fst snd].
  - destruct Hcases as [(Hs & Htr & _) | (_ & Hsp & _)]; [| lia].
    split; [cbn [stat with_stat]; rewrite <- Hstat; by destruct (stat w) |].
    split; [by split |]. split; [done |]. left.
    split; [done |]. split.
    + rewrite Hwire, Hall, Hcf. unfold send_len. rewrite Hcf, Nat2Z.id.
      apply firstn_all.
    + apply emitted_app. cbn [trace with_stat]. by rewrite Htr, app_nil_r.
  - split; [done |]. split; [by split |]. split; [done |]. right.
    destruct Hcases as [(Hs & Htr & _) | (Hs & Hsp & Htr & Hdc)].
    + left. split; [done |]. split; [lia |].
      apply emitted_app. by rewrite Htr, app_nil_r.
    + right. split; [done |]. split; [lia |]. split; [| done].
      by apply emitted_app.
Qed.

(** One [send] that takes a part of what is left: the loop goes on from
    the new position. *)
Lemma write_step_accept (fuel : nat) (w : world) (c : outgoing) (n : nat)
    (s : list send_event) :
  sent_so_far w c ->
  sends c = accept n :: s ->
  (0 < n)%nat ->
  Stat.send_pos (stat w) + Z.of_nat n < send_len (stat w) ->
  write_loop P p (S fuel) w c
  = write_loop P p fuel
      (with_stat (set_send_pos (Stat.send_pos (stat w) + Z.of_nat n))
         (with_shm (Shm.set_action_time (ngx_current_msec p)) w))
      {| sends := s; wire := wire c ++ take n (unsent (stat w)) |}.
Proof.
  intros [Hpos _] Hsends Hn Hlt.
  cbn [write_loop]. unfold send. rewrite Hsends.
  assert (Hsize : Z.of_nat (length (take n (unsent (stat w)))) = Z.of_nat n).
  { rewrite length_take. unfold unsent, send_len in *.
    rewrite length_drop. lia. }
  rewrite Hsize.
  destruct (Z.eqb_spec (Z.of_nat n) NGX_ERROR) as [E | _];
    [unfold NGX_ERROR in E; lia |].
  destruct (Z.eqb_spec (Z.of_nat n) 0) as [E | _]; [lia |].
  destruct (Z.eqb_spec (Z.of_nat n) NGX_AGAIN) as [E | _];
    [unfold NGX_AGAIN in E; lia |].
  cbn [orb stat with_shm with_stat].
  replace (send_len (set_send_pos (Stat.send_pos (stat w) + Z.of_nat n)
                       (stat w)))
    with (send_len (stat w)) by (by destruct (stat w)).
  replace (Stat.send_pos
             (set_send_pos (Stat.send_pos (stat w) + Z.of_nat n) (stat w)))
    with (Stat.send_pos (stat w) + Z.of_nat n) by (by destruct (stat w)).
  by destruct (Z.ltb_spec (Stat.send_pos (stat w) + Z.of_nat n)
                 (send_len (stat w))); [| lia].
Qed.

(** The loop after the [send] calls that took [ns] bytes, none of them
    the last of the payload. *)
Lemma write_loop_accepts (ns : list nat) :
  forall (fuel : nat) (w : world) (c : outgoing) (rest : list send_event),
  Forall (fun n => (0 < n)%nat) ns ->
  sends c = map accept ns ++ rest ->
  sent_so_far w c ->
  Stat.send_pos (stat w) + Z.of_nat (sum_list ns) < send_len (stat w) ->
  exists (w1 : world) (c1 : outgoing),
    write_loop P p (length ns + fuel) w c = write_loop P p fuel w1 c1
    /\ stat w1
       = set_send_pos (Stat.send_pos (stat w) + Z.of_nat (sum_list ns))
           (stat w)
    /\ shm w1
       = match ns with
         | [] => shm w
         | _ => Shm.set_action_time (ngx_current_msec p) (shm w)
         end
    /\ socket w1 = socket w
    /\ trace w1 = trace w
    /\ sends c1 = rest
    /\ sent_so_far w1 c1.
Proof.
  induction ns as [| n ns IH]; intros fuel w c rest Hall Hsends Hsent Hlt.
  - exists w, c. cbn [length Nat.add sum_list sum_list_with].
    rewrite Z.add_0_r.
    split; [done |]. split; [by destruct (stat w) |].
    split; [done |]. split; [done |]. split; [done |]. split; done.
  - apply Forall_cons in Hall as [Hn Hall].
    change (sum_list (n :: ns)) with (n + sum_list ns)%nat in Hlt.
    cbn [length Nat.add map app] in *.
    rewrite (write_step_accept _ w c n (map accept ns ++ rest))
      by (done || lia).
    set (w2 := with_stat
                 (set_send_pos (Stat.send_pos (stat w) + Z.of_nat n))
                 (with_shm (Shm.set_action_time (ngx_current_msec p)) w)).
    set (c2 := {| sends := map accept ns ++ rest;
                  wire := wire c ++ take n (unsent (stat w)) |}).
    assert (Hstat2 : stat w2
                     = set_send_pos (Stat.send_pos (stat w) + Z.of_nat n)
                         (stat w)) by done.
    assert (Hpos2 : Stat.send_pos (stat w2)
                    = Stat.send_pos (stat w) + Z.of_nat n)
      by (rewrite Hstat2; by destruct (stat w)).
    assert (Hlen2 : send_len (stat w2) = send_len (stat w))
      by (rewrite Hstat2; by destruct (stat w)).
    assert (Hsent2 : sent_so_far w2 c2).
    { destruct Hsent as [Hrange Hwire].
      split; [rewrite Hpos2, Hlen2; lia |].
      cbn [wire c2]. rewrite Hpos2.
      replace (Stat.conf (stat w2)) with (Stat.conf (stat w))
        by (rewrite Hstat2; by destruct (stat w)).
      rewrite Hwire. unfold unsent.
      replace (take n (drop (Z.to_nat (Stat.send_pos (stat w)))
                         (health_send (Stat.conf (stat w)))))
        with (take (Z.to_nat (Z.of_nat n))
                (drop (Z.to_nat (Stat.send_pos (stat w)))
                   (health_send (Stat.conf (stat w)))))
        by (by rewrite Nat2Z.id).
      rewrite take_take_drop. f_equal. lia. }
    destruct (IH fuel w2 c2 rest Hall eq_refl Hsent2
                ltac:(rewrite Hpos2, Hlen2; lia))
      as (w1 & c1 & Hrun & Hstat & Hshm & Hsock & Htr & Hs & Hsent1).
    exists w1, c1.
    split; [exact Hrun |].
    split.
    { rewrite Hstat, Hpos2, Hstat2.
      change (sum_list (n :: ns)) with (n + sum_list ns)%nat.
      destruct (stat w). unfold set_send_pos. cbn. f_equal. lia. }
    split.
    { rewrite Hshm. destruct ns; [done |].
      cbn [shm w2 with_stat with_shm]. by destruct (shm w). }
    split; [by rewrite Hsock |]. split; [by rewrite Htr |].
    split; [exact Hs |].
    exact Hsent1.
Qed.

Lemma positive_chunks_length (ns : list nat) :
  Forall (fun n => (0 < n)%nat) ns -> (length ns <= sum_list ns)%nat.
Proof.
  induction 1 as [| n ns Hn _ IH]; [done |].
  change (sum_list (n :: ns)) with (n + sum_list ns)%nat. cbn [length]. lia.
Qed.

Lemma sum_list_snoc (ns : list nat) (n : nat) :
  sum_list (ns ++ [n]) = (sum_list ns + n)%nat.
Proof.
  induction ns as [| m ns IH].
  - cbn. unfold id. lia.
  - change (sum_list ((m :: ns) ++ [n])) with (m + sum_list (ns ++ [n]))%nat.
    rewrite IH.
    change (sum_list (m :: ns)) with (m + sum_list ns)%nat. lia.
Qed.

(** The last turn of the loop: the socket would block, *)
Lemma write_step_again (fuel : nat) (w : world) (c : outgoing) :
  sends c = [] \/ (exists s, sends c = send_again :: s) ->
  fst (write_loop P p (S fuel) w c) = w
  /\ sends (snd (write_loop P p (S fuel) w c)) = tl (sends c)
  /\ wire (snd (write_loop P p (S fuel) w c)) = wire c.
Proof.
  intros [Hs | [s Hs]]; cbn [write_loop]; unfold send; rewrite Hs; done.
Qed.

(** the [send] fails or takes nothing, *)
Lemma write_step_fail (fuel : nat) (w : world) (c : outgoing)
    (s : list send_event) :
  sends c = send_error :: s \/ sends c = accept 0 :: s ->
  fst (write_loop P p (S fuel) w c)
  = with_shm (Shm.set_action_time (ngx_current_msec p))
      (ngx_http_healthcheck_mark_finished P p
         (with_stat (Stat.set_state NGX_HEALTH_BAD_CONN) w))
  /\ sends (snd (write_loop P p (S fuel) w c)) = s
  /\ wire (snd (write_loop P p (S fuel) w c)) = wire c.
Proof.
  intros [Hs | Hs]; cbn [write_loop]; unfold send; rewrite Hs;
    cbn [take length Z.of_nat Z.eqb orb fst snd sends wire NGX_ERROR];
    [done |].
  by rewrite app_nil_r.
Qed.

(** or the [send] takes all that is left. *)
Lemma write_step_last (fuel : nat) (w : world) (c : outgoing) (n : nat)
    (s : list send_event) :
  sent_so_far w c ->
  sends c = accept n :: s ->
  Stat.send_pos (stat w) < send_len (stat w)
  <= Stat.send_pos (stat w) + Z.of_nat n ->
  write_loop P p (S fuel) w c
  = (with_stat (set_send_pos (send_len (stat w)))
       (with_shm (Shm.set_action_time (ngx_current_msec p)) w),
     {| sends := s; wire := health_send (Stat.conf (stat w)) |}).
Proof.
  intros [Hpos Hwire] Hsends Hn.
  cbn [write_loop]. unfold send. rewrite Hsends.
  assert (Hleft : Z.of_nat (length (unsent (stat w)))
                  = send_len (stat w) - Stat.send_pos (stat w)).
  { unfold unsent, send_len in *. rewrite length_drop. lia. }
  rewrite take_ge by lia.
  rewrite Hleft.
  destruct (Z.eqb_spec (send_len (stat w) - Stat.send_pos (stat w))
              NGX_ERROR) as [E | _]; [unfold NGX_ERROR in E; lia |].
  destruct (Z.eqb_spec (send_len (stat w) - Stat.send_pos (stat w)) 0)
    as [E | _]; [lia |].
  destruct (Z.eqb_spec (send_len (stat w) - Stat.send_pos (stat w))
              NGX_AGAIN) as [E | _]; [unfold NGX_AGAIN in E; lia |].
  cbn [orb stat with_shm with_stat].
  replace (Stat.send_pos (stat w)
           + (send_len (stat w) - Stat.send_pos (stat w)))
    with (send_len (stat w)) by lia.
  replace (send_len (set_send_pos (send_len (stat w)) (stat w)))
    with (send_len (stat w)) by (by destruct (stat w)).
  replace (Stat.send_pos (set_send_pos (send_len (stat w)) (stat w)))
    with (send_len (stat w)) by (by destruct (stat w)).
  rewrite Z.ltb_irrefl.
  do 2 f_equal.
  rewrite Hwire. unfold unsent. apply take_drop.
Qed.

Lemma send_cursor_set (v : Z) (st : Stat.t) :
  Stat.send_pos (set_send_pos v st) = v
  /\ send_len (set_send_pos v st) = send_len st
  /\ Stat.conf (set_send_pos v st) = Stat.conf st
  /\ Stat.state (set_send_pos v st) = Stat.state st
  /\ Stat.index (set_send_pos v st) = Stat.index st.
Proof. by destruct st. Qed.

Lemma send_cursor_state (t : ngx_http_health_state) (st : Stat.t) :
  Stat.send_pos (Stat.set_state t st) = Stat.send_pos st
  /\ send_len (Stat.set_state t st) = send_len st
  /\ Stat.conf (Stat.set_state t st) = Stat.conf st
  /\ Stat.index (Stat.set_state t st) = Stat.index st.
Proof. by destruct st. Qed.

Ltac send_cursor H :=
  repeat first
    [ rewrite (proj1 (send_cursor_set _ _)) in H
    | rewrite (proj1 (proj2 (send_cursor_set _ _))) in H
    | rewrite (proj1 (proj2 (proj2 (send_cursor_set _ _)))) in H
    | rewrite (proj1 (send_cursor_state _ _)) in H
    | rewrite (proj1 (proj2 (send_cursor_state _ _))) in H
    | rewrite (proj1 (proj2 (proj2 (send_cursor_state _ _)))) in H ].

Ltac post_tests H :=
  repeat match type of H with
         | context [?a >? ?b] => destruct (Z.gtb_spec a b); [lia |]
         | context [?a =? ?b] => destruct (Z.eqb_spec a b); try lia
         end.

(** What a writable notification does to a probe that is sending is
    decided by what the [send] calls return.  Let the first calls take
    the chunks [ns], each of at least one byte, and [rest] be what the
    calls after them meet.  If the last chunk reaches the end of the
    payload, the payload is out, whole and once: the probe waits for the
    status line and nothing is logged or scheduled.  If the chunks end
    before the payload does, then: when the next call would block (or
    nothing more is known of the socket) the probe is still sending, moved
    on by the bytes taken; when the next call fails or takes nothing the
    probe is finished as a bad connection, counted as a bad verdict, with
    the bytes taken so far on the wire. *)
Theorem write_handler_outcomes (w : world) (c : outgoing) (ns : list nat)
    (rest : list send_event) :
  Stat.state (stat w) = NGX_HEALTH_SENDING_CHECK ->
  sent_so_far w c ->
  sends c = map accept ns ++ rest ->
  Forall (fun n => (0 < n)%nat) ns ->
  let pos := Stat.send_pos (stat w) in
  let len := send_len (stat w) in
  let moved := Z.of_nat (sum_list ns) in
  let now := ngx_current_msec p in
  let w' := fst (ngx_http_healthcheck_write_handler P p w c) in
  let c' := snd (ngx_http_healthcheck_write_handler P p w c) in
  (forall (ns0 : list nat) (n : nat),
     ns = ns0 ++ [n] ->
     pos + Z.of_nat (sum_list ns0) < len <= pos + moved ->
     stat w' = Stat.set_state NGX_HEALTH_READING_STAT_LINE
                 (set_send_pos len (stat w))
     /\ wire c' = health_send (Stat.conf (stat w))
     /\ sends c' = rest
     /\ emitted w w' = []
     /\ shm w' = Shm.set_action_time now (shm w)
     /\ socket w' = socket w)
  /\ (pos + moved < len ->
      rest = [] \/ (exists s, rest = send_again :: s) ->
      stat w' = set_send_pos (pos + moved) (stat w)
      /\ wire c' = take (Z.to_nat (pos + moved))
                     (health_send (Stat.conf (stat w)))
      /\ sends c' = tl rest
      /\ emitted w w' = []
      /\ shm w' = match ns with
                  | [] => shm w
                  | _ => Shm.set_action_time now (shm w)
                  end
      /\ socket w' = socket w)
  /\ (pos + moved < len ->
      forall s : list send_event,
      rest = send_error :: s \/ rest = accept 0 :: s ->
      stat w' = Stat.set_state NGX_HEALTH_WAITING
                  (set_send_pos (pos + moved) (stat w))
      /\ wire c' = take (Z.to_nat (pos + moved))
                     (health_send (Stat.conf (stat w)))
      /\ sends c' = s
      /\ emitted w w'
         = finished_events p (Stat.set_state NGX_HEALTH_BAD_CONN (stat w))
      /\ Shm.down_code (shm w') = NGX_HEALTH_BAD_CONN
      /\ Shm.last_down (shm w') = true
      /\ Shm.action_time (shm w') = now
      /\ socket w' = socket w).
Proof.
  intros Hst Hsent Hsends Hall pos len moved now w' c'.
  pose proof (write_handler_sending w c Hst) as Hrun. cbv zeta in Hrun.
  subst pos len moved now w' c'.
  assert (Hpos0 : 0 <= Stat.send_pos (stat w))
    by (destruct Hsent as [[H _] _]; exact H).
  split; [| split].
  - intros ns0 n -> [Hbefore Hafter].
    rewrite sum_list_snoc in Hafter.
    apply Forall_app in Hall as [Hall0 Hn].
    rewrite map_app, <- app_assoc in Hsends. cbn [map app] in Hsends.
    pose proof (positive_chunks_length ns0 Hall0) as Hlen0.
    destruct (write_loop_accepts ns0
                (S (Z.to_nat (send_len (stat w) - Stat.send_pos (stat w)))
                 - length ns0) w c
                (accept n :: rest) Hall0 Hsends Hsent Hbefore)
      as (w1 & c1 & Hloop & Hstat1 & Hshm1 & Hsock1 & Htr1 & Hs1 & Hsent1).
    replace (length ns0
             + (S (Z.to_nat (send_len (stat w) - Stat.send_pos (stat w)))
                - length ns0))%nat
      with (S (Z.to_nat (send_len (stat w) - Stat.send_pos (stat w))))
      in Hloop by lia.
    destruct (S (Z.to_nat (send_len (stat w) - Stat.send_pos (stat w)))
              - length ns0)%nat as [| f] eqn:Hf; [lia |].
    rewrite (write_step_last f w1 c1 n rest Hsent1 Hs1) in Hloop.
    2: { rewrite Hstat1.
         destruct (send_cursor_set
                     (Stat.send_pos (stat w) + Z.of_nat (sum_list ns0))
                     (stat w)) as (-> & -> & _).
         lia. }
    rewrite Hloop in Hrun. cbn [fst snd stat with_stat with_shm] in Hrun.
    rewrite Hstat1 in Hrun. send_cursor Hrun. post_tests Hrun.
    rewrite Hrun.
    cbn [fst snd stat shm socket wire sends with_stat with_shm].
    rewrite Hsock1, Hstat1.
    split; [by destruct (stat w) |]. split; [done |]. split; [done |].
    split; [apply emitted_app; cbn [trace with_stat with_shm];
            by rewrite Htr1, app_nil_r |].
    split; [| done].
    rewrite Hshm1. destruct ns0; [done |]. by destruct (shm w).
  - intros Hlt Hrest.
    pose proof (positive_chunks_length ns Hall) as Hlenns.
    destruct (write_loop_accepts ns
                (S (Z.to_nat (send_len (stat w) - Stat.send_pos (stat w)))
                 - length ns) w c rest
                Hall Hsends Hsent Hlt)
      as (w1 & c1 & Hloop & Hstat1 & Hshm1 & Hsock1 & Htr1 & Hs1 & Hsent1).
    replace (length ns
             + (S (Z.to_nat (send_len (stat w) - Stat.send_pos (stat w)))
                - length ns))%nat
      with (S (Z.to_nat (send_len (stat w) - Stat.send_pos (stat w))))
      in Hloop by lia.
    destruct (S (Z.to_nat (send_len (stat w) - Stat.send_pos (stat w)))
              - length ns)%nat as [| f] eqn:Hf; [lia |].
    destruct (write_step_again f w1 c1) as (Hw & Hsn & Hwi);
      [by rewrite Hs1 |].
    rewrite Hloop, Hw in Hrun.
    rewrite Hstat1 in Hrun. send_cursor Hrun. post_tests Hrun.
    rewrite Hrun, Hw, Hsn, Hwi, Hs1.
    destruct Hsent1 as [_ Hwire1].
    rewrite Hwire1, Hstat1.
    destruct (send_cursor_set
                (Stat.send_pos (stat w) + Z.of_nat (sum_list ns))
                (stat w)) as (-> & _ & -> & _).
    split; [done |]. split; [done |]. split; [done |].
    split; [apply emitted_app; by rewrite Htr1, app_nil_r |].
    split; done.
  - intros Hlt s Hrest.
    pose proof (positive_chunks_length ns Hall) as Hlenns.
    destruct (write_loop_accepts ns
                (S (Z.to_nat (send_len (stat w) - Stat.send_pos (stat w)))
                 - length ns) w c rest
                Hall Hsends Hsent Hlt)
      as (w1 & c1 & Hloop & Hstat1 & Hshm1 & Hsock1 & Htr1 & Hs1 & Hsent1).
    replace (length ns
             + (S (Z.to_nat (send_len (stat w) - Stat.send_pos (stat w)))
                - length ns))%nat
      with (S (Z.to_nat (send_len (stat w) - Stat.send_pos (stat w))))
      in Hloop by lia.
    destruct (S (Z.to_nat (send_len (stat w) - Stat.send_pos (stat w)))
              - length ns)%nat as [| f] eqn:Hf; [lia |].
    destruct (write_step_fail f w1 c1 s) as (Hw & Hsn & Hwi);
      [rewrite Hs1; tauto |].
    set (w2 := with_stat (Stat.set_state NGX_HEALTH_BAD_CONN) w1) in *.
    destruct (mark_finished_stat w2) as (Hstat2 & Hsock2).
    pose proof (mark_finished_shm P p w2) as Hshm2.
    pose proof (mark_finished_trace P p w2) as Htr2.
    assert (Hst2 : Stat.set_state NGX_HEALTH_WAITING (stat w2)
                   = Stat.set_state NGX_HEALTH_WAITING
                       (set_send_pos
                          (Stat.send_pos (stat w) + Z.of_nat (sum_list ns))
                          (stat w))).
    { unfold w2. cbn [stat with_stat]. rewrite Hstat1.
      by destruct (stat w). }
    rewrite Hloop, Hw in Hrun.
    cbn [stat with_shm] in Hrun. rewrite Hstat2, Hst2 in Hrun.
    send_cursor Hrun. post_tests Hrun.
    rewrite Hrun, Hw, Hsn, Hwi.
    cbn [stat shm socket trace with_shm].
    rewrite Hstat2, Hst2, Hsock2, Hshm2.
    destruct Hsent1 as [_ Hwire1].
    rewrite Hwire1, Hstat1.
    destruct (send_cursor_set
                (Stat.send_pos (stat w) + Z.of_nat (sum_list ns))
                (stat w)) as (-> & _ & -> & _).
    split; [done |]. split; [done |]. split; [done |].
    split.
    { apply emitted_app. cbn [trace with_shm]. rewrite Htr2.
      unfold w2. cbn [trace stat with_stat]. rewrite Htr1, Hstat1.
      f_equal; apply finished_events_ext; by destruct (stat w). }
    split; [done |].
    split.
    { unfold w2. cbn [stat shm with_stat with_shm Shm.last_down
                      Shm.set_action_time Shm.set_down_code].
      unfold publish_down, count_verdict.
      replace (Stat.state (Stat.set_state NGX_HEALTH_BAD_CONN (stat w1)))
        with NGX_HEALTH_BAD_CONN by (by destruct (stat w1)).
      cbn [state_eqb health_state_value Z.eqb Pos.eqb].
      repeat case_match; by cbn. }
    split; [done |].
    unfold w2. cbn [socket with_stat]. exact Hsock1.
Qed.

(** A [send] that takes [n] of the bytes left moves the wire on with
    [send_pos]. *)
Lemma accept_keeps_prefix (w : world) (c : outgoing) (n : nat) :
  sent_so_far w c ->
  wire c ++ take n (unsent (stat w))
  = take (Z.to_nat (Stat.send_pos (stat w)
                    + Z.of_nat (length (take n (unsent (stat w))))))
      (health_send (Stat.conf (stat w)))
  /\ 0 <= Z.of_nat (length (take n (unsent (stat w))))
       <= send_len (stat w) - Stat.send_pos (stat w).
Proof.
  intros [Hpos Hwire]. split.
  - rewrite Hwire. unfold unsent.
    set (k := Z.to_nat (Stat.send_pos (stat w))).
    set (l := health_send (Stat.conf (stat w))).
    replace (take n (drop k l)) with (take (length (take n (drop k l)))
                                        (drop k l)) at 1.
    + rewrite take_take_drop. f_equal. lia.
    + rewrite length_take.
      destruct (Nat.le_ge_cases n (length (drop k l))) as [Hle | Hge].
      * by rewrite Nat.min_l.
      * rewrite Nat.min_r by done. rewrite take_ge by done.
        by rewrite take_ge.
  - rewrite length_take. unfold unsent, send_len in *.
    rewrite length_drop. lia.
Qed.

Lemma write_loop_keeps_prefix (fuel : nat) :
  forall (w : world) (c : outgoing) (w' : world) (c' : outgoing),
  sent_so_far w c ->
  write_loop P p fuel w c = (w', c') ->
  sent_so_far w' c' /\ Stat.conf (stat w') = Stat.conf (stat w).
Proof.
  induction fuel as [| fuel IH]; intros w c w' c' Hsent Hrun.
  { by injection Hrun as <- <-. }
  assert (Hfail : forall c0, wire c0 = wire c ->
             sent_so_far
               (with_shm (Shm.set_action_time (ngx_current_msec p))
                  (ngx_http_healthcheck_mark_finished P p
                     (with_stat (Stat.set_state NGX_HEALTH_BAD_CONN) w)))
               c0
             /\ Stat.conf
                  (stat (with_shm (Shm.set_action_time (ngx_current_msec p))
                           (ngx_http_healthcheck_mark_finished P p
                              (with_stat
                                 (Stat.set_state NGX_HEALTH_BAD_CONN) w))))
                = Stat.conf (stat w)).
  { intros c0 Hc0.
    destruct (mark_finished_stat
                (with_stat (Stat.set_state NGX_HEALTH_BAD_CONN) w))
      as [Hs _].
    unfold sent_so_far in *. cbn [stat with_shm]. rewrite Hs, Hc0.
    by cbn [stat with_stat]. }
  cbn [write_loop] in Hrun. unfold send in Hrun.
  destruct (sends c) as [| [| | n] s] eqn:Hsends.
  - by injection Hrun as <- <-.
  - injection Hrun as <- <-. by apply Hfail.
  - by injection Hrun as <- <-.
  - destruct (accept_keeps_prefix w c n Hsent) as [Hwire Hsize].
    set (size := Z.of_nat (length (take n (unsent (stat w))))) in *.
    destruct (Z.eqb_spec size NGX_ERROR) as [He | _];
      [unfold NGX_ERROR in He; lia |].
    destruct (Z.eqb_spec size 0) as [Hz | Hnz]; cbn [orb] in Hrun.
    { injection Hrun as <- <-. apply Hfail. cbn [wire].
      assert (Hnil : take n (unsent (stat w)) = []).
      { apply nil_length_inv. subst size. lia. }
      by rewrite Hnil, app_nil_r. }
    destruct (Z.eqb_spec size NGX_AGAIN) as [Ha | _];
      [unfold NGX_AGAIN in Ha; lia |].
    match type of Hrun with
    | (if _ then write_loop _ _ _ ?w1 ?c1 else _) = _ =>
        assert (Hsent1 : sent_so_far w1 c1
                         /\ Stat.conf (stat w1) = Stat.conf (stat w))
    end.
    { unfold sent_so_far, send_len in *. cbn. split; [| done].
      split; [lia | done]. }
    destruct Hsent1 as [Hsent1 Hcf1].
    match type of Hrun with
    | (if ?b then _ else _) = _ => destruct b
    end.
    + apply IH in Hrun as [H1 H2]; [| done]. split; [done | congruence].
    + by injection Hrun as <- <-.
Qed.

(** Whatever its state and whatever the socket answers, a writable
    notification keeps [send_pos] within the payload and the wire equal to
    the payload before [send_pos]: no byte is sent twice and none is
    skipped. *)
Theorem write_handler_keeps_prefix (w : world) (c : outgoing) :
  sent_so_far w c ->
  sent_so_far (fst (ngx_http_healthcheck_write_handler P p w c))
    (snd (ngx_http_healthcheck_write_handler P p w c))
  /\ Stat.conf (stat (fst (ngx_http_healthcheck_write_handler P p w c)))
     = Stat.conf (stat w).
Proof.
  intros Hsent.
  destruct (state_eq_dec (Stat.state (stat w)) NGX_HEALTH_SENDING_CHECK)
    as [Hst | Hst].
  - rewrite write_handler_sending by done. cbv zeta.
    destruct (write_loop P p _ w c) as [w1 c1] eqn:Hrun.
    apply write_loop_keeps_prefix in Hrun as [H1 H2]; [| done].
    cbn [fst snd]. by repeat case_match.
  - unfold ngx_http_healthcheck_write_handler.
    apply state_eqb_neq in Hst. by rewrite Hst.
Qed.

(** A probe that has begun. *)
Lemma begin_healthcheck_stat (sock : list recv_event)
    (script : list send_event) (w : world) :
  let b := ngx_http_healthcheck_begin_healthcheck p sock script w in
  stat (fst b)
  = set_check_start_time (ngx_current_msec p)
      (Stat.set_read_buffer
         {| received := [];
            capacity := capacity (Stat.read_buffer (stat w)) |}
         (Stat.set_body_read_pos 0
            (set_send_pos 0
               (Stat.set_read_pos 0
                  (Stat.set_state NGX_HEALTH_SENDING_CHECK (stat w))))))
  /\ socket (fst b) = sock
  /\ snd b = {| sends := script; wire := [] |}
  /\ Shm.set_action_time (ngx_current_msec p) (shm w) = shm (fst b).
Proof.
  unfold ngx_http_healthcheck_begin_healthcheck.
  by destruct (negb (state_eqb (Stat.state (stat w)) NGX_HEALTH_WAITING)).
Qed.

(** From the start of a probe to the first byte of the reply: when
    [ngx_http_healthcheck_begin_healthcheck] is followed by a writable
    notification that gets the whole payload out, the peer has been sent
    the payload and nothing else, and the private entry is the one of a
    probe that has received nothing yet, started at the current time and
    with its read buffer empty at its old capacity.  What the previous
    probe left in the cursors and in the buffer is gone. *)
Theorem begin_then_send_is_fresh (sock : list recv_event)
    (script : list send_event) (w : world) :
  health_send (Stat.conf (stat w)) <> [] ->
  let b := ngx_http_healthcheck_begin_healthcheck p sock script w in
  let r := ngx_http_healthcheck_write_handler P p (fst b) (snd b) in
  Stat.state (stat (fst r)) = NGX_HEALTH_READING_STAT_LINE ->
  fresh (stat (fst r))
  /\ caught_up (stat (fst r))
  /\ wire (snd r) = health_send (Stat.conf (stat w))
  /\ socket (fst r) = sock
  /\ Stat.check_start_time (stat (fst r)) = ngx_current_msec p
  /\ capacity (Stat.read_buffer (stat (fst r)))
     = capacity (Stat.read_buffer (stat w))
  /\ Stat.conf (stat (fst r)) = Stat.conf (stat w).
Proof.
  intros Hne b r Hdone.
  destruct (begin_healthcheck_stat sock script w) as (Hb & Hsock & Hc & _).
  fold b in Hb, Hsock, Hc.
  assert (Hst : Stat.state (stat (fst b)) = NGX_HEALTH_SENDING_CHECK)
    by (by rewrite Hb).
  assert (Hsent : sent_so_far (fst b) (snd b)).
  { unfold sent_so_far, send_len. rewrite Hb, Hc. cbn. split; [lia | done]. }
  assert (Hlt : Stat.send_pos (stat (fst b)) < send_len (stat (fst b))).
  { unfold send_len. rewrite Hb. cbn.
    destruct (health_send (Stat.conf (stat w))); [done | cbn; lia]. }
  destruct (write_handler_cases (fst b) (snd b) Hst Hsent Hlt)
    as (Hstat & _ & Hsock' & Hcases).
  fold r in Hstat, Hsock', Hcases.
  destruct Hcases as [(_ & Hwire & _) | [(Hs & _) | (Hs & _)]];
    [| congruence | congruence].
  clearbody r. clearbody b.
  rewrite Hwire, Hsock', Hsock, Hb.
  unfold fresh, caught_up, buf_pos. rewrite <- Hstat, Hb. cbn.
  rewrite Hdone. by repeat split.
Qed.

End WriteSideFacts.

(** ** More on the recognizer *)

Section RecognizerMore.
Variable P : ptr_size.

(** In the five reading states the [default] branch of the [switch] is
    out of reach. *)
Lemma process_byte_parsing (st s : Stat.t) (ch : byte) (rc : Z) :
  parsing (Stat.state st) = true ->
  process_byte P st ch = Returned rc s ->
  (rc = NGX_OK /\ Stat.state s = NGX_HEALTH_OK)
  \/ (rc = NGX_ERROR
      /\ (Stat.state s = NGX_HEALTH_BAD_STATUS
          \/ Stat.state s = NGX_HEALTH_BAD_CODE
          \/ Stat.state s = NGX_HEALTH_BAD_BODY)).
Proof.
  destruct st as [cf i s0 t0 rb rp bp sp sc]. unfold process_byte.
  destruct s0; simpl; try discriminate; intros _; repeat case_match;
    intros Hret; try discriminate Hret; injection Hret as <- <-; simpl;
    tauto.
Qed.

Lemma process_bytes_parsing (bs : list byte) : forall (st s : Stat.t) rc,
  parsing (Stat.state st) = true ->
  process_bytes P st bs = Returned rc s ->
  (rc = NGX_OK /\ Stat.state s = NGX_HEALTH_OK)
  \/ (rc = NGX_ERROR
      /\ (Stat.state s = NGX_HEALTH_BAD_STATUS
          \/ Stat.state s = NGX_HEALTH_BAD_CODE
          \/ Stat.state s = NGX_HEALTH_BAD_BODY)).
Proof.
  induction bs as [| ch bs IH]; intros st s rc Hp H; [discriminate H |].
  cbn [process_bytes] in H.
  destruct (process_byte P st ch) as [rc1 s1 | s1] eqn:H1.
  - injection H as <- <-. by eapply process_byte_parsing.
  - apply process_byte_running in H1 as (Hp1 & _). by eapply IH.
Qed.

(** Outside the five reading states the first byte ends the probe in
    the [default] branch. *)
Lemma process_bytes_not_parsing (st : Stat.t) (ch : byte) (bs : list byte) :
  parsing (Stat.state st) = false ->
  process_bytes P st (ch :: bs)
  = Returned NGX_ERROR
      (Stat.set_state NGX_HEALTH_BAD_STATE
         (Stat.set_read_pos (Stat.read_pos st + 1) st)).
Proof.
  destruct st as [cf i s0 t0 rb rp bp sp sc]. cbn [Stat.state].
  intros Hp. cbn [process_bytes]. unfold process_byte.
  by destruct s0.
Qed.

(** What the recognizer answers on a chunk [bs], for an entry whose
    earlier bytes have all been consumed.  In one of the five reading
    states: [NGX_OK] with [NGX_HEALTH_OK]; [NGX_ERROR] with a bad status
    line, a bad code or a bad body; or [NGX_AGAIN], again in a reading
    state and with every byte consumed, so that the same holds for the
    next chunk.  In any other state (a probe that is still sending, or one
    that waits for its next start) the first byte of the chunk gives
    [NGX_ERROR] with [NGX_HEALTH_BAD_STATE], and without a byte the state
    stays as it is.  [NGX_HEALTH_BAD_HEADER] is never stored. *)
Theorem feed_answers (st : Stat.t) (bs : list byte) :
  caught_up st ->
  (parsing (Stat.state st) = true ->
   (fst (feed P st bs) = NGX_OK
    /\ Stat.state (snd (feed P st bs)) = NGX_HEALTH_OK)
   \/ (fst (feed P st bs) = NGX_ERROR
       /\ (Stat.state (snd (feed P st bs)) = NGX_HEALTH_BAD_STATUS
           \/ Stat.state (snd (feed P st bs)) = NGX_HEALTH_BAD_CODE
           \/ Stat.state (snd (feed P st bs)) = NGX_HEALTH_BAD_BODY))
   \/ (fst (feed P st bs) = NGX_AGAIN
       /\ parsing (Stat.state (snd (feed P st bs))) = true
       /\ caught_up (snd (feed P st bs))
       /\ received (Stat.read_buffer (snd (feed P st bs)))
          = received (Stat.read_buffer st) ++ bs))
  /\ (parsing (Stat.state st) = false -> bs <> [] ->
      verdict (feed P st bs) = (NGX_ERROR, NGX_HEALTH_BAD_STATE))
  /\ (parsing (Stat.state st) = false -> bs = [] ->
      verdict (feed P st bs)
      = (if state_eqb (Stat.state st) NGX_HEALTH_OK
         then NGX_OK else NGX_AGAIN,
         Stat.state st)).
Proof.
  intros Hc. rewrite feed_caught_up by done.
  split; [| split].
  - intros Hp.
    destruct (process_bytes P st bs) as [rc s | s] eqn:Hrun; cbn.
    + apply process_bytes_parsing in Hrun; tauto.
    + apply process_bytes_running in Hrun as (Hp1 & Hrp & _).
      specialize (Hp1 Hp). unfold after_loop. cbn.
      destruct (state_eqb (Stat.state s) NGX_HEALTH_READING_BODY
                && (Stat.body_read_pos s =? expected_len (Stat.conf s)));
        cbn; [by left |].
      replace (state_eqb (Stat.state s) NGX_HEALTH_OK) with false
        by (by destruct (Stat.state s)).
      cbn. right. right. split; [done |]. split; [done |].
      split; [| done]. unfold caught_up, buf_pos in *. cbn.
      rewrite Hrp, Hc, length_app. lia.
  - intros Hp Hne. destruct bs as [| ch bs]; [done |].
    by rewrite process_bytes_not_parsing.
  - intros Hp ->. cbn [process_bytes on_result finish].
    unfold verdict, after_loop.
    destruct st as [cf i s0 t0 rb rp bp sp sc].
    cbn [Stat.state Stat.set_read_buffer Stat.body_read_pos Stat.conf] in *.
    by destruct s0.
Qed.

(** What [stat_code] holds when a probe starts reading is of no
    consequence. *)
Lemma process_bytes_stale_code (bs : list byte) : forall (st : Stat.t) code,
  Stat.state st = NGX_HEALTH_READING_STAT_LINE ->
  on_result (Stat.set_stat_code 0)
    (process_bytes P (Stat.set_stat_code code st) bs)
  = on_result (Stat.set_stat_code 0) (process_bytes P st bs).
Proof.
  induction bs as [| ch bs IH]; intros st code Hst.
  - by destruct st.
  - destruct st as [cf i s0 t0 rb rp bp sp sc]. simpl in Hst. subst s0.
    cbn [process_bytes]. unfold process_byte.
    cbn [Stat.state Stat.set_read_pos Stat.set_stat_code].
    destruct (uc ch =? uc SP); [reflexivity |].
    destruct ((uc ch =? uc CR) || (uc ch =? uc LF)); [reflexivity |].
    by apply (IH (Stat.mk cf i NGX_HEALTH_READING_STAT_LINE t0 rb (rp + 1)
                    bp sp sc)).
Qed.

Lemma verdict_finish_code (r : loop_result) :
  verdict (finish (on_result (Stat.set_stat_code 0) r)) = verdict (finish r).
Proof.
  destruct r as [rc s | s]; cbn; [done |].
  unfold after_loop. cbn. by repeat case_match.
Qed.

(** [ngx_http_healthcheck_begin_healthcheck] does not reset [stat_code];
    the code the previous probe accumulated never reaches the verdict of
    the next one: the recognizer, started on a status line, gives the same
    answer and ends in the same state whatever [stat_code] held. *)
Theorem stale_stat_code_is_ignored (st : Stat.t) (code : Z) :
  Stat.state st = NGX_HEALTH_READING_STAT_LINE ->
  verdict (ngx_http_healthcheck_process_recv P (Stat.set_stat_code code st))
  = verdict (ngx_http_healthcheck_process_recv P st).
Proof.
  intros Hst. unfold ngx_http_healthcheck_process_recv.
  change (Stat.read_buffer (Stat.set_stat_code code st))
    with (Stat.read_buffer st).
  change (Stat.read_pos (Stat.set_stat_code code st))
    with (Stat.read_pos st).
  set (bs := drop _ _).
  change (match process_bytes P (Stat.set_stat_code code st) bs with
          | Returned rc st' => (rc, st')
          | Running st' => after_loop st'
          end)
    with (finish (process_bytes P (Stat.set_stat_code code st) bs)).
  change (match process_bytes P st bs with
          | Returned rc st' => (rc, st')
          | Running st' => after_loop st'
          end)
    with (finish (process_bytes P st bs)).
  rewrite <- verdict_finish_code, process_bytes_stale_code by done.
  apply verdict_finish_code.
Qed.

(** *** A reply, part by part *)

Ltac same_stat st :=
  destruct st;
  unfold Stat.set_state, Stat.set_read_pos, Stat.set_stat_code,
    Stat.set_body_read_pos, Stat.set_read_buffer;
  cbn in *; subst; do 2 f_equal; lia.

Lemma set_read_pos_twice (a b : Z) (st : Stat.t) :
  Stat.set_read_pos a (Stat.set_read_pos b st) = Stat.set_read_pos a st.
Proof. by destruct st. Qed.

(** The token is skipped. *)
Lemma skip_token (l : list byte) : forall st : Stat.t,
  Stat.state st = NGX_HEALTH_READING_STAT_LINE ->
  token l ->
  process_bytes P st l
  = Running (Stat.set_read_pos (Stat.read_pos st + Z.of_nat (length l)) st).
Proof.
  induction l as [| ch l IH]; intros st Hst Hl.
  - cbn. destruct st; cbn. unfold Stat.set_read_pos. cbn.
    by rewrite Z.add_0_r.
  - inversion Hl as [| ? ? (Hsp & Hcr & Hlf) Hl']; subst.
    cbn [process_bytes]. unfold process_byte.
    replace (Stat.state (Stat.set_read_pos (Stat.read_pos st + 1) st))
      with NGX_HEALTH_READING_STAT_LINE by done.
    destruct (Z.eqb_spec (uc ch) (uc SP)) as [E | _];
      [by apply uc_inj in E |].
    destruct (Z.eqb_spec (uc ch) (uc CR)) as [E | _];
      [by apply uc_inj in E |].
    destruct (Z.eqb_spec (uc ch) (uc LF)) as [E | _];
      [by apply uc_inj in E |].
    cbn [orb]. rewrite IH by done. rewrite set_read_pos_twice.
    do 2 f_equal. cbn [Stat.read_pos Stat.set_read_pos length].
    destruct st; cbn. lia.
Qed.

(** The first space starts the code at 0. *)
Lemma first_space (st : Stat.t) :
  Stat.state st = NGX_HEALTH_READING_STAT_LINE ->
  process_byte P st SP
  = Running (Stat.set_stat_code 0
               (Stat.set_state NGX_HEALTH_READING_STAT_CODE
                  (Stat.set_read_pos (Stat.read_pos st + 1) st))).
Proof.
  intros Hst. unfold process_byte.
  replace (Stat.state (Stat.set_read_pos (Stat.read_pos st + 1) st))
    with NGX_HEALTH_READING_STAT_LINE by done.
  by rewrite Z.eqb_refl.
Qed.

(** A line end before the first space is a bad status line. *)
Lemma early_line_end (st : Stat.t) (ch : byte) :
  Stat.state st = NGX_HEALTH_READING_STAT_LINE ->
  ch = CR \/ ch = LF ->
  process_byte P st ch
  = Returned NGX_ERROR
      (Stat.set_state NGX_HEALTH_BAD_STATUS
         (Stat.set_read_pos (Stat.read_pos st + 1) st)).
Proof.
  intros Hst Hch. unfold process_byte.
  replace (Stat.state (Stat.set_read_pos (Stat.read_pos st + 1) st))
    with NGX_HEALTH_READING_STAT_LINE by done.
  by destruct Hch as [-> | ->].
Qed.

(** A line is read to its end. *)
Lemma skip_line (l : list byte) : forall st : Stat.t,
  Stat.state st = NGX_HEALTH_READING_HEADER ->
  line l ->
  process_bytes P st (l ++ [LF])
  = Running (Stat.set_state NGX_HEALTH_HEADER_ALMOST_DONE
               (Stat.set_read_pos
                  (Stat.read_pos st + Z.of_nat (length l) + 1) st)).
Proof.
  induction l as [| ch l IH]; intros st Hst Hl.
  - cbn. unfold process_byte.
    replace (Stat.state (Stat.set_read_pos (Stat.read_pos st + 1) st))
      with NGX_HEALTH_READING_HEADER by done.
    rewrite Z.eqb_refl. do 3 f_equal. lia.
  - inversion Hl as [| ? ? Hlf Hl']; subst.
    rewrite <- app_comm_cons. cbn [process_bytes]. unfold process_byte.
    replace (Stat.state (Stat.set_read_pos (Stat.read_pos st + 1) st))
      with NGX_HEALTH_READING_HEADER by done.
    destruct (Z.eqb_spec (uc ch) (uc LF)) as [E | _];
      [by apply uc_inj in E |].
    rewrite IH by done. rewrite set_read_pos_twice.
    do 3 f_equal. cbn [Stat.read_pos Stat.set_read_pos length].
    destruct st; cbn. lia.
Qed.

(** A header line, read from the start of the line. *)
Lemma skip_header_line (l : list byte) : forall st : Stat.t,
  Stat.state st = NGX_HEALTH_HEADER_ALMOST_DONE ->
  line l ->
  ~ blank l ->
  process_bytes P st (l ++ [LF])
  = Running (Stat.set_state NGX_HEALTH_HEADER_ALMOST_DONE
               (Stat.set_read_pos
                  (Stat.read_pos st + Z.of_nat (length l) + 1) st)).
Proof.
  induction l as [| ch l IH]; intros st Hst Hl Hnb.
  - destruct Hnb. constructor.
  - inversion Hl as [| ? ? Hlf Hl']; subst.
    rewrite <- app_comm_cons. cbn [process_bytes]. unfold process_byte.
    replace (Stat.state (Stat.set_read_pos (Stat.read_pos st + 1) st))
      with NGX_HEALTH_HEADER_ALMOST_DONE by done.
    destruct (Z.eqb_spec (uc ch) (uc LF)) as [E | _];
      [by apply uc_inj in E |].
    destruct (Z.eqb_spec (uc ch) (uc CR)) as [E | Hncr]; cbn [negb].
    + apply uc_inj in E. subst ch.
      rewrite IH; [| done | done |].
      * rewrite set_read_pos_twice. do 3 f_equal.
        cbn [Stat.read_pos Stat.set_read_pos length]. destruct st; cbn. lia.
      * intros Hb. apply Hnb. by constructor.
    + rewrite skip_line by done. same_stat st.
Qed.

Lemma skip_headers (hs : list (list byte)) : forall st : Stat.t,
  Stat.state st = NGX_HEALTH_HEADER_ALMOST_DONE ->
  Forall (fun h => line h /\ ~ blank h) hs ->
  process_bytes P st (concat (map (fun h => h ++ [LF]) hs))
  = Running (Stat.set_read_pos
               (Stat.read_pos st
                + Z.of_nat (length (concat (map (fun h => h ++ [LF]) hs))))
               st).
Proof.
  induction hs as [| h hs IH]; intros st Hst Hhs.
  - cbn. destruct st; cbn. unfold Stat.set_read_pos. cbn.
    by rewrite Z.add_0_r.
  - inversion Hhs as [| ? ? [Hl Hnb] Hhs']; subst.
    cbn [map concat]. rewrite process_bytes_app, skip_header_line by done.
    rewrite IH by done.
    rewrite !length_app. cbn [length]. same_stat st.
Qed.

(** The blank line ends the headers. *)
Lemma end_of_headers (crs : list byte) : forall st : Stat.t,
  Stat.state st = NGX_HEALTH_HEADER_ALMOST_DONE ->
  blank crs ->
  process_bytes P st (crs ++ [LF])
  = let st1 :=
      Stat.set_read_pos (Stat.read_pos st + Z.of_nat (length crs) + 1) st in
    match health_expected (Stat.conf st) with
    | None => Returned NGX_OK (Stat.set_state NGX_HEALTH_OK st1)
    | Some _ => Running (Stat.set_state NGX_HEALTH_READING_BODY st1)
    end.
Proof.
  induction crs as [| ch crs IH]; intros st Hst Hb.
  - destruct st as [cf i s0 t0 rb rp bp sp sc]. cbn in Hst. subst s0.
    cbn [app process_bytes]. unfold process_byte.
    cbn [Stat.state Stat.set_read_pos Stat.conf Stat.read_pos length
         Z.of_nat].
    rewrite Z.eqb_refl. rewrite Z.add_0_r.
    by destruct (health_expected cf).
  - inversion Hb as [| ? ? Hcr Hb']; subst.
    rewrite <- app_comm_cons. cbn [process_bytes]. unfold process_byte.
    replace (Stat.state (Stat.set_read_pos (Stat.read_pos st + 1) st))
      with NGX_HEALTH_HEADER_ALMOST_DONE by done.
    change (uc CR =? uc LF) with false. rewrite Z.eqb_refl. cbn [negb].
    rewrite IH by done. cbv zeta. rewrite set_read_pos_twice.
    cbn [Stat.conf Stat.read_pos Stat.set_read_pos length].
    replace (Stat.read_pos st + 1 + Z.of_nat (length crs) + 1)
      with (Stat.read_pos st + Z.of_nat (S (length crs)) + 1) by lia.
    done.
Qed.

(** The body against the expected bytes from [body_read_pos] on. *)
Lemma match_body (b : list byte) : forall (st : Stat.t) (e : list byte),
  Stat.state st = NGX_HEALTH_READING_BODY ->
  health_expected (Stat.conf st) = Some e ->
  0 <= Stat.body_read_pos st ->
  (b `prefix_of` drop (Z.to_nat (Stat.body_read_pos st)) e ->
   process_bytes P st b
   = Running (Stat.set_body_read_pos
                (Stat.body_read_pos st + Z.of_nat (length b))
                (Stat.set_read_pos (Stat.read_pos st + Z.of_nat (length b))
                   st)))
  /\ (~ b `prefix_of` drop (Z.to_nat (Stat.body_read_pos st)) e ->
      exists s, process_bytes P st b = Returned NGX_ERROR s
                /\ Stat.state s = NGX_HEALTH_BAD_BODY).
Proof.
  induction b as [| ch b IH]; intros st e Hst He Hpos.
  - split.
    + intros _. cbn. destruct st; cbn. unfold Stat.set_body_read_pos,
        Stat.set_read_pos. cbn. by rewrite !Z.add_0_r.
    + intros H. destruct H. apply prefix_nil.
  - cbn [process_bytes]. unfold process_byte.
    replace (Stat.state (Stat.set_read_pos (Stat.read_pos st + 1) st))
      with NGX_HEALTH_READING_BODY by done.
    cbn [Stat.body_read_pos Stat.conf Stat.set_read_pos].
    replace (Stat.body_read_pos
               (Stat.mk (Stat.conf st) (Stat.index st) (Stat.state st)
                  (Stat.check_start_time st) (Stat.read_buffer st)
                  (Stat.read_pos st + 1) (Stat.body_read_pos st)
                  (Stat.send_pos st) (Stat.stat_code st)))
      with (Stat.body_read_pos st) by done.
    unfold expected_len, expected_data. cbn [Stat.conf]. rewrite He.
    cbn [default from_option id]. unfold id.
    set (k := Z.to_nat (Stat.body_read_pos st)).
    destruct (Z.eqb_spec (Stat.body_read_pos st) (Z.of_nat (length e)))
      as [Hend | Hmid].
    { split; [| intros _; eexists; split; reflexivity].
      intros Hpre. rewrite drop_ge in Hpre by (subst k; lia).
      by apply prefix_nil_inv in Hpre. }
    destruct (e !! k) as [x |] eqn:Hx.
    2: { split; [| intros _; eexists; split; reflexivity].
         intros Hpre. apply lookup_ge_None in Hx.
         rewrite drop_ge in Hpre by done. by apply prefix_nil_inv in Hpre. }
    assert (Hdrop : drop k e = x :: drop (S k) e).
    { by apply drop_S. }
    destruct (Z.eqb_spec (uc ch) (uc x)) as [E | Hne]; cbn [negb].
    + apply uc_inj in E. subst x.
      set (st1 := Stat.set_body_read_pos (Stat.body_read_pos st + 1) _).
      destruct (IH st1 e) as [Hyes Hno]; [done | done | cbn; lia |].
      assert (Hk : Z.to_nat (Stat.body_read_pos st1) = S k).
      { subst st1 k. cbn. lia. }
      rewrite Hk in Hyes, Hno. rewrite Hdrop. split.
      * intros Hpre. apply prefix_cons_inv_2 in Hpre.
        rewrite Hyes by done. subst st1. destruct st; cbn.
        unfold Stat.set_body_read_pos, Stat.set_read_pos. cbn.
        do 2 f_equal; lia.
      * intros Hpre. apply Hno. intros H. apply Hpre. by apply prefix_cons.
    + split; [| intros _; eexists; split; reflexivity].
      intros Hpre. rewrite Hdrop in Hpre. apply prefix_cons_inv_1 in Hpre.
      congruence.
Qed.

(** A byte in the code that is neither a space nor a digit. *)
Lemma junk_in_code (st : Stat.t) (ch : byte) :
  Stat.state st = NGX_HEALTH_READING_STAT_CODE ->
  ch <> SP ->
  ~ is_digit ch ->
  process_byte P st ch
  = Returned NGX_ERROR
      (Stat.set_state NGX_HEALTH_BAD_STATUS
         (Stat.set_read_pos (Stat.read_pos st + 1) st)).
Proof.
  intros Hst Hsp Hnd. unfold process_byte, is_digit in *.
  replace (Stat.state (Stat.set_read_pos (Stat.read_pos st + 1) st))
    with NGX_HEALTH_READING_STAT_CODE by done.
  destruct (Z.eqb_spec (uc ch) (uc SP)) as [E | _];
    [by apply uc_inj in E |].
  destruct (Z.ltb_spec (uc ch) (uc "0"%byte)); [done |].
  destruct (Z.gtb_spec (uc ch) (uc "9"%byte)); [done |].
  destruct Hnd. lia.
Qed.

(** The status line up to the space after the code. *)
Lemma read_status (proto ds : list byte) (st : Stat.t) :
  Stat.state st = NGX_HEALTH_READING_STAT_LINE ->
  token proto ->
  Forall is_digit ds ->
  exists s,
    Stat.conf s = Stat.conf st
    /\ Stat.body_read_pos s = Stat.body_read_pos st
    /\ process_bytes P st (proto ++ [SP] ++ ds ++ [SP])
       = if decimal ds mod word_modulus P =? 200
         then Running (Stat.set_state NGX_HEALTH_READING_HEADER s)
         else Returned NGX_ERROR (Stat.set_state NGX_HEALTH_BAD_CODE s).
Proof.
  intros Hst Hproto Hds. eexists. split; [| split]; cycle 2.
  - rewrite process_bytes_app, skip_token by done.
    cbn [app process_bytes]. rewrite first_space by done.
    change (ds ++ [SP]) with (ds ++ [SP]).
    rewrite (digits_then_space P) by done. cbv zeta. reflexivity.
  - done.
  - done.
Qed.

(** A reply with the code 200, up to the end of its headers. *)
Lemma read_head (proto ds reason : list byte) (headers : list (list byte))
    (crs : list byte) (st : Stat.t) :
  Stat.state st = NGX_HEALTH_READING_STAT_LINE ->
  token proto ->
  Forall is_digit ds ->
  decimal ds mod word_modulus P = 200 ->
  line reason ->
  Forall (fun h => line h /\ ~ blank h) headers ->
  blank crs ->
  exists s,
    Stat.conf s = Stat.conf st
    /\ Stat.body_read_pos s = Stat.body_read_pos st
    /\ process_bytes P st (reply_head proto ds reason headers crs)
       = match health_expected (Stat.conf st) with
         | None => Returned NGX_OK (Stat.set_state NGX_HEALTH_OK s)
         | Some _ => Running (Stat.set_state NGX_HEALTH_READING_BODY s)
         end.
Proof.
  intros Hst Hproto Hds H200 Hreason Hhs Hcrs.
  destruct (read_status proto ds st Hst Hproto Hds) as (s1 & Hcf1 & Hbp1 & H1).
  rewrite H200 in H1. cbn [Z.eqb Pos.eqb] in H1.
  eexists. split; [| split]; cycle 2.
  - unfold reply_head.
    replace (proto ++ [SP] ++ ds ++ [SP] ++ reason ++ [LF]
             ++ concat (map (fun h => h ++ [LF]) headers) ++ crs ++ [LF])
      with ((proto ++ [SP] ++ ds ++ [SP])
            ++ (reason ++ [LF])
            ++ concat (map (fun h => h ++ [LF]) headers) ++ crs ++ [LF])
      by (by rewrite <- !app_assoc).
    rewrite process_bytes_app, H1.
    rewrite process_bytes_app, skip_line by done.
    rewrite process_bytes_app, skip_headers by done.
    rewrite end_of_headers by done. cbv zeta.
    cbn [Stat.conf Stat.set_state Stat.set_read_pos]. rewrite Hcf1.
    destruct (health_expected (Stat.conf st)); reflexivity.
  - cbn. done.
  - cbn. done.
Qed.

(** Replies that fail on their status line do so whatever follows: a line
    end before the first space and a byte in the code that is neither a
    digit nor a space are [NGX_HEALTH_BAD_STATUS]; a code whose value is
    not 200 (modulo the word) is [NGX_HEALTH_BAD_CODE], however good the
    headers and the body after it are. *)
Theorem bad_status_line (st : Stat.t) (proto ds rest : list byte) :
  Stat.state st = NGX_HEALTH_READING_STAT_LINE ->
  caught_up st ->
  token proto ->
  Forall is_digit ds ->
  (forall ch, ch = CR \/ ch = LF ->
     verdict (feed P st (proto ++ ch :: rest))
     = (NGX_ERROR, NGX_HEALTH_BAD_STATUS))
  /\ (forall ch, ch <> SP -> ~ is_digit ch ->
      verdict (feed P st (proto ++ [SP] ++ ds ++ ch :: rest))
      = (NGX_ERROR, NGX_HEALTH_BAD_STATUS))
  /\ (decimal ds mod word_modulus P <> 200 ->
      verdict (feed P st (proto ++ [SP] ++ ds ++ [SP] ++ rest))
      = (NGX_ERROR, NGX_HEALTH_BAD_CODE)).
Proof.
  intros Hst Hc Hproto Hds. split; [| split].
  - intros ch Hch. rewrite feed_caught_up by done.
    rewrite process_bytes_app, skip_token by done.
    cbn [process_bytes]. by rewrite early_line_end.
  - intros ch Hsp Hnd. rewrite feed_caught_up by done.
    rewrite process_bytes_app, skip_token by done.
    cbn [app process_bytes]. rewrite first_space by done.
    rewrite process_bytes_app, process_digits by done.
    cbn [process_bytes].
    by rewrite junk_in_code.
  - intros Hne. rewrite feed_caught_up by done.
    destruct (read_status proto ds st Hst Hproto Hds) as (s & _ & _ & H1).
    replace (proto ++ [SP] ++ ds ++ [SP] ++ rest)
      with ((proto ++ [SP] ++ ds ++ [SP]) ++ rest)
      by (by rewrite <- !app_assoc).
    rewrite process_bytes_app, H1.
    by destruct (Z.eqb_spec (decimal ds mod word_modulus P) 200).
Qed.

(** A reply with the code 200 is judged by its body alone.  With the
    token, the digits of a code congruent to 200, the rest of the status
    line, any header lines and the blank line in front: without an
    expected body the probe ends with [NGX_HEALTH_OK] at the blank line,
    whatever follows; with the expected bytes [e] it ends with
    [NGX_HEALTH_OK] when the body is [e], waits for more in
    [NGX_HEALTH_READING_BODY] when the body is a shorter beginning of [e],
    and ends with [NGX_HEALTH_BAD_BODY] in every other case. *)
Theorem good_reply_verdict (st : Stat.t) (proto ds reason : list byte)
    (headers : list (list byte)) (crs body : list byte) :
  Stat.state st = NGX_HEALTH_READING_STAT_LINE ->
  Stat.body_read_pos st = 0 ->
  caught_up st ->
  token proto ->
  Forall is_digit ds ->
  decimal ds mod word_modulus P = 200 ->
  line reason ->
  Forall (fun h => line h /\ ~ blank h) headers ->
  blank crs ->
  let v := verdict (feed P st (reply_head proto ds reason headers crs
                               ++ body)) in
  (health_expected (Stat.conf st) = None -> v = (NGX_OK, NGX_HEALTH_OK))
  /\ (forall e, health_expected (Stat.conf st) = Some e ->
      (body = e -> v = (NGX_OK, NGX_HEALTH_OK))
      /\ (body `prefix_of` e -> body <> e ->
          v = (NGX_AGAIN, NGX_HEALTH_READING_BODY))
      /\ (~ body `prefix_of` e -> v = (NGX_ERROR, NGX_HEALTH_BAD_BODY))).
Proof.
  intros Hst Hbp Hc Hproto Hds H200 Hreason Hhs Hcrs v. subst v.
  rewrite feed_caught_up by done.
  destruct (read_head proto ds reason headers crs st Hst Hproto Hds H200
              Hreason Hhs Hcrs) as (s & Hcf & Hbps & Hhead).
  rewrite process_bytes_app, Hhead. split.
  - by intros ->.
  - intros e He. rewrite He.
    set (sb := Stat.set_state NGX_HEALTH_READING_BODY s).
    assert (Hcfb : health_expected (Stat.conf sb) = Some e)
      by (subst sb; cbn; by rewrite Hcf).
    assert (Hbpb : Stat.body_read_pos sb = 0)
      by (subst sb; cbn; congruence).
    destruct (match_body body sb e eq_refl Hcfb) as [Hyes Hno]; [lia |].
    rewrite Hbpb in Hyes, Hno. cbn [Z.to_nat drop] in Hyes, Hno.
    assert (Hafter : body `prefix_of` e ->
              verdict (finish (on_result
                         (Stat.set_read_buffer
                            (buf_append
                               (reply_head proto ds reason headers crs
                                ++ body) (Stat.read_buffer st)))
                         (process_bytes P sb body)))
              = if Z.of_nat (length body) =? Z.of_nat (length e)
                then (NGX_OK, NGX_HEALTH_OK)
                else (NGX_AGAIN, NGX_HEALTH_READING_BODY)).
    { intros Hpre. rewrite Hyes by done. cbn. unfold after_loop. cbn.
      unfold expected_len. cbn. rewrite Hcf, He.
      change (0 + Z.of_nat (length body)) with (Z.of_nat (length body)).
      by destruct (Z.of_nat (length body) =? Z.of_nat (length e)). }
    split; [| split].
    + intros ->. rewrite Hafter by done. by rewrite Z.eqb_refl.
    + intros Hpre Hne. rewrite Hafter by done.
      destruct (Z.eqb_spec (Z.of_nat (length body)) (Z.of_nat (length e)))
        as [Hlen | _]; [| done].
      destruct Hpre as [k ->]. rewrite length_app in Hlen.
      destruct k; [by rewrite app_nil_r in Hne | cbn in Hlen; lia].
    + intros Hnp. destruct (Hno Hnp) as (s' & -> & Hs'). cbn.
      unfold verdict. cbn. by rewrite Hs'.
Qed.

End RecognizerMore.

(** ** More on the read handler *)

Section ReadHandlerMore.
Variable P : ptr_size.
Variable p : process.

(** A [recv] that finds bytes that fit the room left in the buffer. *)
Lemma read_once_segment (w : world) (bs : list byte) (c : list recv_event) :
  socket w = segment bs :: c ->
  bs <> [] ->
  Z.of_nat (length bs)
  <= capacity (Stat.read_buffer (stat w)) - buf_pos (Stat.read_buffer (stat w)) ->
  read_once w
  = with_stat (deliver bs)
      (emit (recv_call (capacity (Stat.read_buffer (stat w))
                        - buf_pos (Stat.read_buffer (stat w)))
               (Z.of_nat (length bs)))
         (with_socket c w)).
Proof.
  intros Hsock Hne Hfit. unfold read_once, recv. rewrite Hsock.
  rewrite take_ge, drop_ge by lia.
  assert (Hpos : 0 < Z.of_nat (length bs)).
  { destruct bs; [done | cbn; lia]. }
  destruct (Z.eqb_spec (Z.of_nat (length bs)) NGX_ERROR) as [E | _];
    [unfold NGX_ERROR in E; lia |].
  destruct (Z.eqb_spec (Z.of_nat (length bs)) NGX_AGAIN) as [E | _];
    [unfold NGX_AGAIN in E; lia |].
  destruct (Z.eqb_spec (Z.of_nat (length bs)) 0) as [E | _]; [lia |].
  done.
Qed.

(** The handler is the recognizer fed with what [recv] returns: on a
    probe that is within its time, when [recv] returns the bytes [bs]
    (not more than the buffer has room for), the handler takes them off
    the socket and does what [feed] answers on them.  A verdict ends the
    probe with that verdict; [NGX_AGAIN] with room left in the buffer
    leaves the probe as the recognizer left it, with nothing done but the
    one [recv] call; [NGX_AGAIN] on a buffer that is now full ends the
    probe with [NGX_HEALTH_FULL_BUFFER]. *)
Theorem read_handler_feeds (w : world) (bs : list byte)
    (c : list recv_event) :
  timed_out P p w = false ->
  Stat.state (stat w) <> NGX_HEALTH_BAD_CONN ->
  socket w = segment bs :: c ->
  bs <> [] ->
  Z.of_nat (length bs)
  <= capacity (Stat.read_buffer (stat w)) - buf_pos (Stat.read_buffer (stat w)) ->
  let room := capacity (Stat.read_buffer (stat w))
              - buf_pos (Stat.read_buffer (stat w)) in
  let r := feed P (stat w) bs in
  let w' := ngx_http_healthcheck_read_handler P p w in
  socket w' = c
  /\ (fst r <> NGX_AGAIN ->
      Shm.down_code (shm w') = Stat.state (snd r)
      /\ Stat.state (stat w') = NGX_HEALTH_WAITING
      /\ emitted w w'
         = recv_call room (Z.of_nat (length bs))
           :: finished_events p (snd r))
  /\ (fst r = NGX_AGAIN -> Z.of_nat (length bs) < room ->
      stat w' = snd r
      /\ shm w' = Shm.set_action_time (ngx_current_msec p) (shm w)
      /\ emitted w w' = [recv_call room (Z.of_nat (length bs))])
  /\ (fst r = NGX_AGAIN -> Z.of_nat (length bs) = room ->
      Shm.down_code (shm w') = NGX_HEALTH_FULL_BUFFER
      /\ Stat.state (stat w') = NGX_HEALTH_WAITING
      /\ emitted w w'
         = recv_call room (Z.of_nat (length bs))
           :: finished_events p
                (Stat.set_state NGX_HEALTH_FULL_BUFFER (snd r))).
Proof.
  intros Hto Hbc Hsock Hne Hfit room r w'. subst w'.
  rewrite read_handler_unfold, Hto. cbv zeta.
  rewrite (read_once_segment _ bs c) by done.
  cbn [stat with_shm shm socket trace].
  set (w1 := with_stat (deliver bs) _).
  assert (Hr : ngx_http_healthcheck_process_recv P (stat w1) = r) by done.
  assert (Hs1 : Stat.state (stat w1) <> NGX_HEALTH_BAD_CONN) by done.
  assert (Htr : trace w1
                = trace w ++ [recv_call room (Z.of_nat (length bs))])
    by done.
  assert (Hfull : buffer_full (with_stat (fun _ => snd r) w1)
                  = (room =? Z.of_nat (length bs))).
  { unfold buffer_full. cbn [stat with_stat]. subst r.
    unfold feed. rewrite process_recv_buffer. subst room.
    unfold deliver, buf_pos, buf_append. cbn. rewrite length_app.
    destruct (Z.eqb_spec (capacity (Stat.read_buffer (stat w)))
                (Z.of_nat (length (received (Stat.read_buffer (stat w)))
                           + length bs)%nat)) as [E | E];
      symmetry; [apply Z.eqb_eq | apply Z.eqb_neq]; unfold buf_pos; lia. }
  assert (Hsock1 : socket w1 = c) by done.
  assert (Hshm1 : shm w1 = Shm.set_action_time (ngx_current_msec p) (shm w))
    by done.
  clearbody w1.
  split; [| split; [| split]].
  - destruct (Z.eq_dec (fst r) NGX_AGAIN) as [Hag | Hag].
    + rewrite judge_need_more by (done || by rewrite Hr). rewrite Hr.
      cbv zeta. destruct (buffer_full _); [| done].
      by destruct (mark_finished_stat P p
                     (with_stat (Stat.set_state NGX_HEALTH_FULL_BUFFER)
                        (with_stat (fun _ => snd r) w1))) as [_ ->].
    + rewrite judge_verdict by (done || by rewrite Hr). rewrite Hr.
      by destruct (mark_finished_stat P p
                     (with_stat (fun _ => snd r) w1)) as [_ ->].
  - intros Hag.
    rewrite judge_verdict by (done || by rewrite Hr). rewrite Hr.
    rewrite mark_finished_shm, mark_finished_state.
    split; [done |]. split; [done |].
    apply emitted_app. rewrite mark_finished_trace. cbn [trace with_stat].
    by rewrite Htr, <- app_assoc.
  - intros Hag Hroom.
    rewrite judge_need_more by (done || by rewrite Hr). rewrite Hr.
    cbv zeta. rewrite Hfull.
    destruct (Z.eqb_spec room (Z.of_nat (length bs))); [lia |].
    split; [done |]. split; [done |]. by apply emitted_app.
  - intros Hag Hroom.
    rewrite judge_need_more by (done || by rewrite Hr). rewrite Hr.
    cbv zeta. rewrite Hfull.
    destruct (Z.eqb_spec room (Z.of_nat (length bs))); [| lia].
    rewrite mark_finished_shm, mark_finished_state.
    split; [done |]. split; [done |].
    apply emitted_app. rewrite mark_finished_trace.
    cbn [trace with_stat stat]. by rewrite Htr, <- app_assoc.
Qed.

(** *** Bounds *)

Lemma process_byte_returned_pos (st s : Stat.t) (ch : byte) (rc : Z) :
  process_byte P st ch = Returned rc s ->
  Stat.read_pos s = Stat.read_pos st + 1.
Proof.
  destruct st as [cf i s0 t0 rb rp bp sp sc]. unfold process_byte.
  destruct s0; cbn; repeat case_match; intros Hret;
    try discriminate Hret; by injection Hret as <- <-.
Qed.

Lemma process_bytes_returned_pos (bs : list byte) :
  forall (st s : Stat.t) (rc : Z),
  process_bytes P st bs = Returned rc s ->
  Stat.read_pos st < Stat.read_pos s
  <= Stat.read_pos st + Z.of_nat (length bs).
Proof.
  induction bs as [| ch bs IH]; intros st s rc H; [discriminate H |].
  cbn [process_bytes] in H.
  destruct (process_byte P st ch) as [rc1 s1 | s1] eqn:H1.
  - injection H as <- <-. apply process_byte_returned_pos in H1.
    cbn [length]. lia.
  - apply process_byte_running in H1 as (_ & Hrp & _).
    apply IH in H. cbn [length]. lia.
Qed.

(** The recognizer reads within the received bytes. *)
Lemma process_recv_in_buffer (st : Stat.t) :
  buffer_ok st ->
  buffer_ok (snd (ngx_http_healthcheck_process_recv P st)).
Proof.
  intros [Hrp Hcap]. unfold buffer_ok.
  rewrite process_recv_buffer. split; [| done].
  unfold ngx_http_healthcheck_process_recv.
  set (bs := drop _ _).
  assert (Hlen : Z.of_nat (length bs)
                 = buf_pos (Stat.read_buffer st) - Stat.read_pos st).
  { subst bs. rewrite length_drop. unfold buf_pos in *. lia. }
  destruct (process_bytes P st bs) as [rc s | s] eqn:Hrun; cbn.
  - apply process_bytes_returned_pos in Hrun. lia.
  - apply process_bytes_running in Hrun as (_ & Hrp' & _).
    unfold after_loop. repeat case_match; cbn; lia.
Qed.

Lemma read_once_in_buffer (w : world) :
  buffer_ok (stat w) ->
  buffer_ok (stat (read_once w))
  /\ capacity (Stat.read_buffer (stat (read_once w)))
     = capacity (Stat.read_buffer (stat w)).
Proof.
  intros [Hrp Hcap]. unfold read_once.
  destruct (recv _ (socket w)) as [[size got] c'] eqn:Hrecv.
  apply recv_result in Hrecv as [_ Hgot].
  repeat case_match; cbn; try done.
  unfold buffer_ok, buf_pos in *. cbn. rewrite length_app. lia.
Qed.

Lemma mark_finished_in_buffer (w : world) :
  buffer_ok (stat w) ->
  buffer_ok (stat (ngx_http_healthcheck_mark_finished P p w))
  /\ capacity (Stat.read_buffer
                 (stat (ngx_http_healthcheck_mark_finished P p w)))
     = capacity (Stat.read_buffer (stat w)).
Proof.
  intros H. by destruct (mark_finished_stat P p w) as [-> _].
Qed.

(** The read handler never stores a byte beyond the end of the read
    buffer and the recognizer never reads one that has not been
    received: [0 <= read_pos <= pos - start <= end - start] holds after
    every readable notification if it held before, and the buffer keeps
    its size. *)
Theorem read_handler_stays_in_buffer (w : world) :
  buffer_ok (stat w) ->
  buffer_ok (stat (ngx_http_healthcheck_read_handler P p w))
  /\ capacity (Stat.read_buffer
                 (stat (ngx_http_healthcheck_read_handler P p w)))
     = capacity (Stat.read_buffer (stat w)).
Proof.
  intros Hok. rewrite read_handler_unfold. cbv zeta.
  destruct (timed_out P p w).
  { exact (mark_finished_in_buffer
             (with_stat (Stat.set_state NGX_HEALTH_TIMEOUT)
                (with_shm (Shm.set_action_time (ngx_current_msec p)) w))
             Hok). }
  set (w0 := with_shm _ w).
  destruct (read_once_in_buffer w0 Hok) as [Hok1 Hcap1].
  change (stat w0) with (stat w) in Hcap1. rewrite <- Hcap1.
  generalize dependent (read_once w0). intros w1 Hok1 _. clear w0.
  pose proof (process_recv_in_buffer (stat w1) Hok1) as Hok2.
  pose proof (process_recv_buffer P (stat w1)) as Hrb.
  unfold judge.
  destruct (negb (state_eqb (Stat.state (stat w1)) NGX_HEALTH_BAD_CONN));
    [| by apply mark_finished_in_buffer].
  destruct (ngx_http_healthcheck_process_recv P (stat w1)) as [rc st'].
  cbn [snd] in Hok2, Hrb.
  assert (Hfin : forall f : Stat.t -> Stat.t,
             (forall s, buffer_ok s -> buffer_ok (f s)) ->
             (forall s, Stat.read_buffer (f s) = Stat.read_buffer s) ->
             buffer_ok
               (stat (ngx_http_healthcheck_mark_finished P p
                        (with_stat f (with_stat (fun _ => st') w1))))
             /\ capacity
                  (Stat.read_buffer
                     (stat (ngx_http_healthcheck_mark_finished P p
                              (with_stat f (with_stat (fun _ => st') w1)))))
                = capacity (Stat.read_buffer (stat w1))).
  { intros f Hf Hfb.
    destruct (mark_finished_in_buffer
                (with_stat f (with_stat (fun _ => st') w1))) as [H1 H2].
    - cbn. by apply Hf.
    - split; [done |]. rewrite H2. cbn. by rewrite Hfb, Hrb. }
  repeat case_match; try (cbn; by rewrite Hrb).
  - by apply (Hfin (Stat.set_state NGX_HEALTH_FULL_BUFFER)).
  - by apply (Hfin (fun s => s)).
  - by apply (Hfin (fun s => s)).
Qed.

(** *** One [recv] for a notification *)

Lemma recv_calls_app (a b : list event) :
  recv_calls (a ++ b) = recv_calls a ++ recv_calls b.
Proof. apply List.filter_app. Qed.

Lemma recv_calls_finished (st : Stat.t) :
  recv_calls (finished_events p st) = [].
Proof.
  unfold finished_events. cbn. destruct (shutting_down p); [| done].
  induction (seq 0 (nelts p)) as [| i l IH]; [done | by cbn].
Qed.

(** What the second half of the read handler adds holds no [recv]. *)
Lemma judge_quiet (w : world) :
  exists evs, trace (judge P p w) = trace w ++ evs
              /\ recv_calls evs = []
              /\ socket (judge P p w) = socket w.
Proof.
  assert (Hfin : forall w0, exists evs,
             trace (ngx_http_healthcheck_mark_finished P p w0)
             = trace w0 ++ evs
             /\ recv_calls evs = []
             /\ socket (ngx_http_healthcheck_mark_finished P p w0)
                = socket w0).
  { intros w0. exists (finished_events p (stat w0)).
    split; [apply mark_finished_trace |].
    split; [apply recv_calls_finished |].
    by destruct (mark_finished_stat P p w0). }
  unfold judge.
  destruct (negb (state_eqb (Stat.state (stat w)) NGX_HEALTH_BAD_CONN));
    [| apply Hfin].
  destruct (ngx_http_healthcheck_process_recv P (stat w)) as [rc st'].
  repeat case_match;
    try (match goal with
         | |- context [ngx_http_healthcheck_mark_finished P p ?x] =>
             destruct (Hfin x) as (evs & Ha & Hb & Hc);
             exists evs; by rewrite Ha, Hc
         end).
  - exists []. rewrite app_nil_r. split; [reflexivity | by split].
  - exists [log_warn]. split; [reflexivity | by split].
Qed.

(** One readable notification makes at most one [recv] call: none when
    the probe has timed out, exactly one otherwise, whatever that call
    returns and however much room the buffer has left; the socket is left
    as that one call left it. *)
Theorem read_handler_single_recv (w : world) :
  let room := capacity (Stat.read_buffer (stat w))
              - buf_pos (Stat.read_buffer (stat w)) in
  let w' := ngx_http_healthcheck_read_handler P p w in
  (timed_out P p w = true ->
   recv_calls (emitted w w') = [] /\ socket w' = socket w)
  /\ (timed_out P p w = false ->
      recv_calls (emitted w w')
      = [recv_call room (fst (fst (recv room (socket w))))]
      /\ socket w' = snd (recv room (socket w))).
Proof.
  intros room w'. subst w'. rewrite read_handler_unfold. cbv zeta.
  destruct (timed_out P p w); split; try discriminate; intros _.
  - erewrite emitted_app by (rewrite mark_finished_trace; reflexivity).
    split; [apply recv_calls_finished |].
    by destruct (mark_finished_stat P p
                   (with_stat (Stat.set_state NGX_HEALTH_TIMEOUT)
                      (with_shm (Shm.set_action_time (ngx_current_msec p))
                         w))) as [_ ->].
  - set (w0 := with_shm _ w).
    destruct (judge_quiet (read_once w0)) as (evs & Htr & Hq & Hsock).
    rewrite Hsock.
    assert (H1 : trace (read_once w0)
                 = trace w
                   ++ [recv_call room (fst (fst (recv room (socket w))))]
                 /\ socket (read_once w0) = snd (recv room (socket w))).
    { unfold read_once. subst w0 room. cbn [stat with_shm socket].
      destruct (recv _ (socket w)) as [[size got] c']. cbn [fst snd].
      by repeat case_match. }
    destruct H1 as [Htr1 Hsock1]. split; [| done].
    erewrite emitted_app by (rewrite Htr, Htr1, <- app_assoc; reflexivity).
    rewrite recv_calls_app, Hq. done.
Qed.

(** A readable notification at or after the deadline ends the probe with
    [NGX_HEALTH_TIMEOUT] before anything is read: the socket is not
    touched, even if a complete good reply is waiting on it, the verdict
    filter runs and the probe goes back to waiting.  With
    [health_timeout = 0] the deadline has always passed, so every probe
    ends so at its first readable notification. *)
Theorem timeout_ends_probe_unread (w : world) :
  let w' := ngx_http_healthcheck_read_handler P p w in
  (timed_out P p w = true ->
   socket w' = socket w
   /\ emitted w w'
      = finished_events p (Stat.set_state NGX_HEALTH_TIMEOUT (stat w))
   /\ Shm.down_code (shm w') = NGX_HEALTH_TIMEOUT
   /\ Shm.last_down (shm w') = true
   /\ Stat.state (stat w') = NGX_HEALTH_WAITING)
  /\ (health_timeout (Stat.conf (stat w)) = 0 -> timed_out P p w = true).
Proof.
  intros w'. subst w'. split.
  - intros Hto. rewrite read_handler_unfold, Hto. cbv zeta.
    rewrite mark_finished_shm, mark_finished_state.
    split.
    { by destruct (mark_finished_stat P p
                     (with_stat (Stat.set_state NGX_HEALTH_TIMEOUT)
                        (with_shm
                           (Shm.set_action_time (ngx_current_msec p)) w)))
        as [_ ->]. }
    split.
    { apply emitted_app. rewrite mark_finished_trace. reflexivity. }
    split; [done |]. split; [| done].
    cbn. unfold publish_down, count_verdict. cbn.
    by repeat case_match.
  - intros H0. unfold timed_out. rewrite H0. apply Z.geb_le.
    unfold to_uint. apply Z.mod_pos_bound, word_modulus_pos.
Qed.

End ReadHandlerMore.

(** ** More on the verdict filter *)

Section VerdictFilterMore.
Variable P : ptr_size.

Lemma finish_probe_shm (w : world) (e : process * ngx_http_health_state) :
  shm (finish_probe P w e)
  = Shm.set_action_time (ngx_current_msec (fst e))
      (Shm.set_down_code (snd e)
         (publish_down (health_failcount (Stat.conf (stat w)))
            (count_verdict P (fst e) (snd e) (shm w))))
  /\ Stat.conf (stat (finish_probe P w e)) = Stat.conf (stat w).
Proof.
  unfold finish_probe. rewrite mark_finished_shm.
  by destruct (mark_finished_stat P (fst e)
                 (with_stat (Stat.set_state (snd e)) w)) as [-> _].
Qed.

(** A run of like verdicts that goes on. *)
Lemma like_verdicts_count (ends : list (process * ngx_http_health_state)) :
  forall (w : world) (bad : bool),
  Forall (fun e => bad_end (snd e) = bad) ends ->
  Shm.last_down (shm w) = bad ->
  0 <= Shm.concurrent (shm w) ->
  Shm.concurrent (shm w) + Z.of_nat (length ends) <= NGX_MAX_INT_T_VALUE P ->
  Shm.last_down (shm (finish_probes P w ends)) = bad
  /\ Shm.concurrent (shm (finish_probes P w ends))
     = Shm.concurrent (shm w) + Z.of_nat (length ends)
  /\ Stat.conf (stat (finish_probes P w ends)) = Stat.conf (stat w)
  /\ (ends <> [] ->
      health_failcount (Stat.conf (stat w))
      <= Shm.concurrent (shm w) + Z.of_nat (length ends) ->
      Shm.down (shm (finish_probes P w ends)) = Z.b2z bad).
Proof.
  induction ends as [| e ends IH]; intros w bad Hall Hld Hc Hmax.
  - cbn. split; [done |]. split; [lia |]. done.
  - apply Forall_cons in Hall as [He Hall'].
    destruct (finish_probe_shm w e) as [Hshm Hcf].
    assert (H1 : Shm.last_down (shm (finish_probe P w e))
                 = bad_end (snd e)
                 /\ Shm.concurrent (shm (finish_probe P w e))
                    = Shm.concurrent (shm w) + 1
                 /\ (health_failcount (Stat.conf (stat w))
                     <= Shm.concurrent (shm w) + 1 ->
                     Shm.down (shm (finish_probe P w e))
                     = Z.b2z (bad_end (snd e)))).
    { rewrite Hshm. rewrite <- He in Hld.
      unfold publish_down, count_verdict, bad_end in *.
      cbn [length] in Hmax.
      assert (Hinc : to_int P (Shm.concurrent (shm w) + 1)
                     = Shm.concurrent (shm w) + 1).
      { apply to_int_small. pose proof (word_modulus_pos P).
        assert (0 <= word_modulus P / 2) by (apply Z.div_pos; lia). lia. }
      destruct (state_eqb (snd e) NGX_HEALTH_OK),
        (Shm.last_down (shm w)) eqn:Hl; cbn in Hld |- *;
        try discriminate Hld; rewrite ?Hinc;
        match goal with
        | |- context [?a >=? ?b] => destruct (Z.geb_spec a b)
        end; cbn; rewrite ?Hl; repeat split; intros; try done; lia. }
    destruct H1 as (Hld1 & Hc1 & Hd1).
    cbn [finish_probes foldl]. fold (finish_probes P (finish_probe P w e) ends).
    destruct (IH (finish_probe P w e) bad)
      as (Hld2 & Hc2 & Hcf2 & Hd2); [done | congruence | lia | |].
    { rewrite Hc1. cbn [length] in Hmax. lia. }
    split; [done |]. split; [rewrite Hc2, Hc1; cbn [length]; lia |].
    split; [congruence |]. intros _ Hfc. cbn [length] in Hfc.
    destruct ends as [| e' ends'].
    + cbn. rewrite <- He. apply Hd1. cbn in Hfc. lia.
    + apply Hd2; [done |]. rewrite Hcf, Hc1. cbn [length] in *. lia.
Qed.

(** Enough like verdicts in a row publish the verdict: after probes that
    all ended badly, at least [health_failcount] of them, the peer is
    down; after as many that all ended with [NGX_HEALTH_OK] it is up; in
    both cases whatever [down] and the stored verdict were before, for a
    counter that is not negative and does not overflow on the way. *)
Theorem like_verdicts_publish (w : world)
    (ends : list (process * ngx_http_health_state)) (bad : bool) :
  ends <> [] ->
  Forall (fun e => bad_end (snd e) = bad) ends ->
  0 <= Shm.concurrent (shm w) ->
  Shm.concurrent (shm w) + Z.of_nat (length ends) <= NGX_MAX_INT_T_VALUE P ->
  health_failcount (Stat.conf (stat w)) <= Z.of_nat (length ends) ->
  Shm.down (shm (finish_probes P w ends)) = Z.b2z bad
  /\ Shm.last_down (shm (finish_probes P w ends)) = bad
  /\ Z.of_nat (length ends)
     <= Shm.concurrent (shm (finish_probes P w ends)).
Proof.
  intros Hne Hall Hc Hmax Hfc.
  destruct ends as [| e ends]; [done |].
  apply Forall_cons in Hall as [He Hall'].
  destruct (finish_probe_shm w e) as [Hshm Hcf].
  cbn [length] in *.
  assert (Hinc : to_int P (Shm.concurrent (shm w) + 1)
                 = Shm.concurrent (shm w) + 1).
  { apply to_int_small. pose proof (word_modulus_pos P).
    assert (0 <= word_modulus P / 2) by (apply Z.div_pos; lia). lia. }
  assert (H1 : Shm.last_down (shm (finish_probe P w e)) = bad_end (snd e)
               /\ 1 <= Shm.concurrent (shm (finish_probe P w e))
                  <= Shm.concurrent (shm w) + 1
               /\ (health_failcount (Stat.conf (stat w)) <= 1 ->
                   Shm.down (shm (finish_probe P w e))
                   = Z.b2z (bad_end (snd e)))).
  { rewrite Hshm. unfold publish_down, count_verdict, bad_end in *.
    destruct (state_eqb (snd e) NGX_HEALTH_OK),
      (Shm.last_down (shm w)) eqn:Hl; cbn; rewrite ?Hinc;
      match goal with
      | |- context [?a >=? ?b] => destruct (Z.geb_spec a b)
      end; cbn; rewrite ?Hl; repeat split; intros; try done; lia. }
  destruct H1 as (Hld1 & Hc1 & Hd1).
  cbn [finish_probes foldl]. fold (finish_probes P (finish_probe P w e) ends).
  destruct (like_verdicts_count ends (finish_probe P w e) bad)
    as (Hld2 & Hc2 & _ & Hd2); [done | congruence | lia | lia |].
  split; [| split; [done | lia]].
  destruct ends as [| e' ends'].
  - cbn. rewrite <- He. apply Hd1. cbn in Hfc. lia.
  - apply Hd2; [done |]. rewrite Hcf. cbn [length] in *. lia.
Qed.

(** One verdict does not flip the peer: with [health_failcount] at 2 or
    more, a probe whose verdict is unlike the stored one starts a new run
    and leaves [down] as it was. *)
Theorem one_unlike_verdict_is_filtered (w : world)
    (e : process * ngx_http_health_state) :
  bad_end (snd e) <> Shm.last_down (shm w) ->
  2 <= health_failcount (Stat.conf (stat w)) ->
  Shm.down (shm (finish_probe P w e)) = Shm.down (shm w)
  /\ Shm.concurrent (shm (finish_probe P w e)) = 1
  /\ Shm.last_down (shm (finish_probe P w e)) = bad_end (snd e)
  /\ Shm.since (shm (finish_probe P w e)) = ngx_current_msec (fst e).
Proof.
  intros Hne Hfc. destruct (finish_probe_shm w e) as [-> _].
  unfold publish_down, count_verdict, bad_end in *.
  destruct (state_eqb (snd e) NGX_HEALTH_OK), (Shm.last_down (shm w));
    cbn in Hne |- *; try done;
    match goal with
    | |- context [?a >=? ?b] => destruct (Z.geb_spec a b)
    end; cbn in *; try lia; done.
Qed.

End VerdictFilterMore.

(** A shared zone that has just been initialised reports no peer down:
    [ngx_http_healthcheck_is_down] answers 0 for every index, in range or
    not, whatever the allocated memory held. *)
Theorem fresh_zone_reports_no_peer_down (now : Z) (arr : list Stat.t)
    (raw : list Shm.t) (z z' : zone) (tbl : list Shm.t) (index : nat) :
  ngx_http_healthcheck_init_zone now (length arr) None (Some raw) z
  = (NGX_OK, z') ->
  ngx_http_healthchecks_shm z' = Some tbl ->
  ngx_http_healthcheck_is_down arr tbl index = 0.
Proof.
  intros Hinit Htbl. cbn in Hinit. injection Hinit as <-.
  cbn in Htbl. injection Htbl as <-.
  unfold ngx_http_healthcheck_is_down.
  destruct (Nat.ltb_spec index (length arr)) as [Hlt | _]; [| done].
  destruct (arr !! index) as [st |]; [| done].
  destruct (healthcheck_enabled (Stat.conf st)); [| done].
  rewrite init_slots_lookup by lia.
  rewrite bool_decide_eq_true_2 by lia.
  by destruct (raw !! index).
Qed.

(** ** More on the ownership protocol *)

Section OwnershipMore.
Variable P : ptr_size.

(** What a readable notification does to the ownership fields of the
    slot: it stamps the time and leaves owner and lock alone. *)
Lemma read_handler_slot (p : process) (w : world) :
  Shm.owner (shm (ngx_http_healthcheck_read_handler P p w))
  = Shm.owner (shm w)
  /\ Shm.lock (shm (ngx_http_healthcheck_read_handler P p w))
     = Shm.lock (shm w)
  /\ Shm.action_time (shm (ngx_http_healthcheck_read_handler P p w))
     = ngx_current_msec p.
Proof.
  assert (Hfin : forall w0,
             Shm.owner (shm (ngx_http_healthcheck_mark_finished P p w0))
             = Shm.owner (shm w0)
             /\ Shm.lock (shm (ngx_http_healthcheck_mark_finished P p w0))
                = Shm.lock (shm w0)
             /\ Shm.action_time
                  (shm (ngx_http_healthcheck_mark_finished P p w0))
                = ngx_current_msec p).
  { intros w0. rewrite mark_finished_shm.
    unfold publish_down, count_verdict. by repeat case_match. }
  rewrite read_handler_unfold. cbv zeta.
  destruct (timed_out P p w).
  { exact (Hfin (with_stat (Stat.set_state NGX_HEALTH_TIMEOUT)
                   (with_shm (Shm.set_action_time (ngx_current_msec p))
                      w))). }
  set (w0 := with_shm _ w).
  assert (H1 : shm (read_once w0)
               = Shm.set_action_time (ngx_current_msec p) (shm w)).
  { unfold read_once. destruct (recv _ (socket w0)) as [[size got] c'].
    by repeat case_match. }
  generalize dependent (read_once w0). intros w1 H1. clear w0.
  unfold judge.
  destruct (negb (state_eqb (Stat.state (stat w1)) NGX_HEALTH_BAD_CONN));
    [| destruct (Hfin w1) as (-> & -> & ->); by rewrite H1].
  destruct (ngx_http_healthcheck_process_recv P (stat w1)) as [rc st'].
  repeat case_match;
    try (match goal with
         | |- context [ngx_http_healthcheck_mark_finished P p ?x] =>
             destruct (Hfin x) as (-> & -> & ->)
         end);
    cbn [shm with_stat emit]; by rewrite H1.
Qed.

(** No worker takes a peer from an owner that is reading: after a
    readable notification handled by the owner at the time [t], the
    attempt of another worker that comes less than
    [(delay + timeout) * 3] milliseconds after [t] leaves owner and slot
    as they are, releases the lock and arms that worker's claim timer
    with [delay * 10]. *)
Theorem reading_owner_is_not_robbed (pa pb : process) (wa wb : world) :
  Shm.owner (shm wa) = ngx_pid pa ->
  Shm.lock (shm wa) = 0 ->
  ngx_pid pb <> ngx_pid pa ->
  shutting_down pb = false ->
  shm wb = shm (ngx_http_healthcheck_read_handler P pa wa) ->
  to_uint P (ngx_current_msec pb - ngx_current_msec pa)
  < to_uint P (to_uint P (health_delay (Stat.conf (stat wb))
                          + health_timeout (Stat.conf (stat wb))) * 3) ->
  exists wb',
    ngx_http_healthcheck_try_for_ownership P pb wb = Some wb'
    /\ shm wb' = shm wb
    /\ Shm.owner (shm wb') = ngx_pid pa
    /\ stat wb' = stat wb
    /\ emitted wb wb'
       = [ngx_spinlock (ngx_pid pb);
          ngx_atomic_cmp_set (ngx_pid pb) 0 true;
          ngx_add_timer (ownership_ev (Stat.index (stat wb)))
            (to_uint P (health_delay (Stat.conf (stat wb)) * 10))].
Proof.
  intros Hown Hlock Hpid Hsd Hshm Hlive.
  destruct (read_handler_slot pa wa) as (Ho & Hl & Ha).
  rewrite <- Hshm in Ho, Hl, Ha.
  eexists. split.
  - apply try_for_ownership_waits; [done | congruence | congruence |].
    unfold stale. rewrite Ha.
    match goal with
    | |- (?a >=? ?b) = false => destruct (Z.geb_spec a b); [lia | done]
    end.
  - cbn. split; [done |]. split; [congruence |]. split; [done |].
    by apply emitted_app.
Qed.

(** Nor from an owner that has just taken the peer.  When a worker that
    is not shutting down finds the lock free and takes a stale peer of
    another owner at the time [t], it is the owner; and the attempt of
    another worker that is not shutting down either, made on the slot as
    the first left it and less than [(delay + timeout) * 3] milliseconds
    after [t] (the difference of the two clocks as an [ngx_msec_t]),
    leaves slot and private entry as they are, releases the lock and arms
    only that worker's claim timer, with [delay * 10]. *)
Theorem new_owner_is_not_robbed (pa pb : process) (wa wb : world) :
  shutting_down pa = false ->
  Shm.lock (shm wa) = 0 ->
  Shm.owner (shm wa) <> ngx_pid pa ->
  stale P pa wa = true ->
  ngx_pid pb <> ngx_pid pa ->
  shutting_down pb = false ->
  to_uint P (ngx_current_msec pb - ngx_current_msec pa)
  < to_uint P (to_uint P (health_delay (Stat.conf (stat wb))
                          + health_timeout (Stat.conf (stat wb))) * 3) ->
  exists wa',
    ngx_http_healthcheck_try_for_ownership P pa wa = Some wa'
    /\ Shm.owner (shm wa') = ngx_pid pa
    /\ (shm wb = shm wa' ->
        exists wb',
          ngx_http_healthcheck_try_for_ownership P pb wb = Some wb'
          /\ shm wb' = shm wa'
          /\ stat wb' = stat wb
          /\ emitted wb wb'
             = [ngx_spinlock (ngx_pid pb);
                ngx_atomic_cmp_set (ngx_pid pb) 0 true;
                ngx_add_timer (ownership_ev (Stat.index (stat wb)))
                  (to_uint P (health_delay (Stat.conf (stat wb)) * 10))]).
Proof.
  intros Hsda Hlock Hown Hstale Hpid Hsdb Hlive.
  eexists. split; [by apply try_for_ownership_takes |].
  cbn [shm]. split; [done |]. intros Hshm.
  eexists. split.
  - apply try_for_ownership_waits; [done | | |].
    + by rewrite Hshm.
    + rewrite Hshm. cbn. congruence.
    + unfold stale. rewrite Hshm. cbn [Shm.action_time Shm.set_action_time].
      match goal with
      | |- (?a >=? ?b) = false => destruct (Z.geb_spec a b); [lia | done]
      end.
  - cbn. split; [done |]. split; [done |]. by apply emitted_app.
Qed.

(** What the attempt never does.  Whenever it returns, in a worker that
    is not shutting down, the lock is free again, released by the
    compare-and-set (the fallback that logs and resets the lock is not
    taken), and of the shared slot only [owner] and [action_time] can
    have changed: the run of verdicts, [down] and the last code are the
    owner's and are not touched.  Of the private entry only the state can
    have changed, and the connection is left alone. *)
Theorem attempt_leaves_lock_free (p : process) (w w' : world) :
  shutting_down p = false ->
  ngx_http_healthcheck_try_for_ownership P p w = Some w' ->
  Shm.lock (shm w') = 0
  /\ ~ In log_crit (emitted w w')
  /\ ~ In lock_reset (emitted w w')
  /\ Shm.set_owner (Shm.owner (shm w'))
       (Shm.set_action_time (Shm.action_time (shm w')) (shm w)) = shm w'
  /\ Stat.set_state (Stat.state (stat w')) (stat w) = stat w'
  /\ socket w' = socket w.
Proof.
  intros Hsd Hrun.
  destruct (Z.eq_dec (Shm.lock (shm w)) 0) as [Hlock | Hlock];
    [| by rewrite try_for_ownership_busy in Hrun].
  assert (Hno : forall (e : event) (l : list event),
             Forall (fun x => x <> e) l -> ~ In e l).
  { intros e l Hall Hin. rewrite Forall_forall in Hall.
    apply list_elem_of_In in Hin. by apply (Hall e). }
  destruct (Z.eq_dec (Shm.owner (shm w)) (ngx_pid p)) as [Hown | Hown].
  { rewrite try_for_ownership_mine in Hrun by done. injection Hrun as <-.
    erewrite emitted_app by reflexivity. cbn [shm stat socket].
    split; [done |].
    split; [apply Hno; by repeat constructor |].
    split; [apply Hno; by repeat constructor |].
    split; [by destruct (shm w) |]. split; [by destruct (stat w) | done]. }
  destruct (stale P p w) eqn:Hstale.
  - rewrite try_for_ownership_takes in Hrun by done. injection Hrun as <-.
    erewrite emitted_app by reflexivity. cbn [shm stat socket].
    split; [by cbn; rewrite Hlock |].
    split; [apply Hno; by repeat constructor |].
    split; [apply Hno; by repeat constructor |].
    split; [by destruct (shm w) |]. split; [by destruct (stat w) | done].
  - rewrite try_for_ownership_waits in Hrun by done. injection Hrun as <-.
    erewrite emitted_app by reflexivity. cbn [shm stat socket].
    split; [done |].
    split; [apply Hno; by repeat constructor |].
    split; [apply Hno; by repeat constructor |].
    split; [by destruct (shm w) |]. split; [by destruct (stat w) | done].
Qed.

End OwnershipMore.


(** ** Registering peers *)

Section Registry.

Lemma set_index_conf (uscf : ngx_http_upstream_srv_conf_t) (i : nat)
    (raw : Stat.t) :
  Stat.conf (set_index i (set_conf uscf raw)) = uscf
  /\ Stat.index (set_index i (set_conf uscf raw)) = i.
Proof. by destruct raw. Qed.

Lemma add_peer_pushed (uscf : ngx_http_upstream_srv_conf_t) (raw : Stat.t)
    (pc_ok : bool) (arr : list Stat.t) :
  snd (ngx_http_healthcheck_add_peer uscf (Some raw) pc_ok arr)
  = arr ++ [set_index (length arr) (set_conf uscf raw)]
  /\ fst (ngx_http_healthcheck_add_peer uscf (Some raw) pc_ok arr)
     = if pc_ok then Z.of_nat (length arr) else NGX_ERROR.
Proof.
  unfold ngx_http_healthcheck_add_peer.
  cbv zeta.
  rewrite length_insert, length_app.
  cbn [length].
  replace (length arr + 1 - 1)%nat with (length arr) by lia.
  assert (Hins : forall x : Stat.t, <[length arr := x]> (arr ++ [raw])
                                    = arr ++ [x]).
  { intros x.
    replace (length arr) with (length arr + 0)%nat at 1 by lia.
    by rewrite insert_app_r. }
  rewrite Hins.
  by destruct pc_ok.
Qed.

(** When a peer is registered, the entries registered before keep their
    places and every entry still carries its own position; a result other
    than [NGX_ERROR] is the position of the new entry, which holds the
    peer's upstream configuration.  When the array cannot grow nothing
    changes; when only the peer connection cannot be allocated the answer
    is [NGX_ERROR] although the entry has been added. *)
Theorem add_peer_keeps_positions (uscf : ngx_http_upstream_srv_conf_t)
    (pushed : option Stat.t) (pc_ok : bool) (arr : list Stat.t) :
  indexed arr ->
  let rc := fst (ngx_http_healthcheck_add_peer uscf pushed pc_ok arr) in
  let arr' := snd (ngx_http_healthcheck_add_peer uscf pushed pc_ok arr) in
  indexed arr'
  /\ arr `prefix_of` arr'
  /\ (rc <> NGX_ERROR ->
      rc = Z.of_nat (length arr)
      /\ length arr' = S (length arr)
      /\ exists st, arr' !! length arr = Some st /\ Stat.conf st = uscf)
  /\ (pushed = None -> rc = NGX_ERROR /\ arr' = arr)
  /\ (pushed <> None -> pc_ok = false ->
      rc = NGX_ERROR /\ length arr' = S (length arr)).
Proof.
  intros Hidx rc arr'.
  destruct pushed as [raw |].
  - destruct (add_peer_pushed uscf raw pc_ok arr) as (Harr & Hrc).
    fold arr' in Harr. fold rc in Hrc.
    destruct (set_index_conf uscf (length arr) raw) as (Hc & Hi).
    split; [| split; [| split; [| split]]].
    + intros i st Hl. rewrite Harr in Hl.
      destruct (decide (i < length arr)%nat) as [Hlt | Hge].
      * rewrite lookup_app_l in Hl by done. by apply Hidx.
      * rewrite lookup_app_r in Hl by lia.
        destruct (i - length arr)%nat as [| k] eqn:Hk; [| done].
        cbn in Hl. injection Hl as <-. rewrite Hi. lia.
    + rewrite Harr. by apply prefix_app_r.
    + intros Hne. destruct pc_ok; [| done].
      split; [done |]. split.
      * rewrite Harr, length_app. cbn. lia.
      * eexists. split; [| exact Hc].
        rewrite Harr, lookup_app_r by lia.
        by rewrite Nat.sub_diag.
    + done.
    + intros _ ->. split; [done |].
      rewrite Harr, length_app. cbn. lia.
  - subst rc arr'. cbn.
    split; [done |]. split; [done |]. split; [done |]. split; done.
Qed.

Lemma add_peer_keeps_positions_witness :
  indexed [sample_stat 512]
  /\ fst (ngx_http_healthcheck_add_peer (sample_conf 64)
            (Some (sample_code_stat 7)) true [sample_stat 512]) = 1
  /\ indexed (snd (ngx_http_healthcheck_add_peer (sample_conf 64)
                     (Some (sample_code_stat 7)) true [sample_stat 512])).
Proof.
  assert (Hidx : indexed [sample_stat 512]).
  { intros [| i] st Hl; [| done]. by injection Hl as <-. }
  split; [exact Hidx |].
  split; [reflexivity |].
  exact (proj1 (add_peer_keeps_positions (sample_conf 64)
                  (Some (sample_code_stat 7)) true [sample_stat 512] Hidx)).
Defined.

(** The position that a successful registration returns is the index under
    which [ngx_http_healthcheck_is_down] answers for the new peer: down
    exactly when its upstream has healthchecks enabled and the slot of that
    position is marked down.  The answers for the peers registered before
    are the same as without the new one. *)
Theorem add_peer_then_is_down (uscf : ngx_http_upstream_srv_conf_t)
    (raw : Stat.t) (arr : list Stat.t) (tbl : list Shm.t) :
  let rc := fst (ngx_http_healthcheck_add_peer uscf (Some raw) true arr) in
  let arr' := snd (ngx_http_healthcheck_add_peer uscf (Some raw) true arr) in
  (ngx_http_healthcheck_is_down arr' tbl (Z.to_nat rc) = 1 <->
   healthcheck_enabled uscf = true
   /\ exists s, tbl !! length arr = Some s /\ Shm.down s <> 0)
  /\ (ngx_http_healthcheck_is_down arr' tbl (Z.to_nat rc) <> 1 ->
      ngx_http_healthcheck_is_down arr' tbl (Z.to_nat rc) = 0)
  /\ forall j : nat, (j < length arr)%nat ->
       ngx_http_healthcheck_is_down arr' tbl j
       = ngx_http_healthcheck_is_down arr tbl j.
Proof.
  intros rc arr'.
  destruct (add_peer_pushed uscf raw true arr) as (Harr & Hrc).
  fold arr' in Harr. fold rc in Hrc.
  destruct (set_index_conf uscf (length arr) raw) as (Hc & _).
  assert (Hnew : ngx_http_healthcheck_is_down arr' tbl (Z.to_nat rc)
                 = if healthcheck_enabled uscf then
                     match tbl !! length arr with
                     | Some s => if Shm.down s =? 0 then 0 else 1
                     | None => 0
                     end
                   else 0).
  { rewrite Hrc, Nat2Z.id, Harr.
    unfold ngx_http_healthcheck_is_down.
    rewrite length_app. cbn [length].
    destruct (Nat.ltb_spec (length arr) (length arr + 1)); [| lia].
    rewrite lookup_app_r by lia.
    rewrite Nat.sub_diag. cbn [lookup list_lookup].
    by rewrite Hc. }
  split; [| split].
  - rewrite Hnew. split.
    + destruct (healthcheck_enabled uscf); [| done].
      destruct (tbl !! length arr) as [s |]; [| done].
      destruct (Z.eqb_spec (Shm.down s) 0); [done |].
      intros _. split; [done |]. by exists s.
    + intros (-> & s & -> & Hd).
      by destruct (Z.eqb_spec (Shm.down s) 0).
  - rewrite Hnew.
    destruct (healthcheck_enabled uscf); [| done].
    destruct (tbl !! length arr) as [s |]; [| done].
    by destruct (Shm.down s =? 0).
  - intros j Hj. rewrite Harr.
    unfold ngx_http_healthcheck_is_down.
    rewrite length_app. cbn [length].
    destruct (Nat.ltb_spec j (length arr + 1)); [| lia].
    destruct (Nat.ltb_spec j (length arr)); [| lia].
    by rewrite lookup_app_l by done.
Qed.

End Registry.

(** ** The worker's start *)

Section ProcInit.

Variable P : ptr_size.

Lemma to_int32_small (x : Z) : 0 <= x < 2 ^ 31 -> to_int32 x = x.
Proof.
  intros H. unfold to_int32.
  rewrite Z.mod_small; lia.
Qed.

Lemma first_timer (random : nat -> Z) (k : nat) (delay : Z) :
  0 < delay < word_modulus P ->
  0 <= random k < 2 ^ 31 ->
  to_uint P (Z.abs (to_int32 (to_uint P (random k) mod delay)))
  = random k mod delay
  /\ 0 <= random k mod delay < delay.
Proof.
  intros Hd Hr.
  pose proof (word_modulus_large P) as Hw.
  assert (Hm : 0 <= random k mod delay < delay)
    by (apply Z.mod_pos_bound; lia).
  assert (Hle : random k mod delay <= random k)
    by (apply Z.mod_le; lia).
  split; [| done].
  rewrite (to_uint_small P (random k)) by lia.
  rewrite to_int32_small by lia.
  rewrite Z.abs_eq by lia.
  apply to_uint_small. lia.
Qed.

Lemma procinit_loop_timers (random : nat -> Z) (arr : list Stat.t) :
  (forall k, 0 <= random k < 2 ^ 31) ->
  Forall (fun st => healthcheck_enabled (Stat.conf st) = true ->
                    0 < health_delay (Stat.conf st) < word_modulus P) arr ->
  forall i k,
    procinit_loop P random i k arr = Some (start_timers random i k arr).
Proof.
  intros Hr Hall. induction Hall as [| st rest Hst _ IH]; intros i k.
  - done.
  - cbn [procinit_loop start_timers].
    destruct (healthcheck_enabled (Stat.conf st)) eqn:Hen.
    + specialize (Hst eq_refl).
      destruct (Z.eqb_spec (health_delay (Stat.conf st)) 0); [lia |].
      rewrite IH.
      by destruct (first_timer random k _ Hst (Hr k)) as (-> & _).
    + apply IH.
Qed.

Lemma start_timers_in (random : nat -> Z) (arr : list Stat.t) :
  forall i k e, In e (start_timers random i k arr) ->
    exists (j : nat) (st : Stat.t) (r : Z),
      arr !! j = Some st
      /\ healthcheck_enabled (Stat.conf st) = true
      /\ e = ngx_add_timer (ownership_ev (i + j))
               (r mod health_delay (Stat.conf st))
      /\ exists k', r = random k'.
Proof.
  induction arr as [| st rest IH]; intros i k e Hin; [done |].
  cbn [start_timers] in Hin.
  destruct (healthcheck_enabled (Stat.conf st)) eqn:Hen.
  - destruct Hin as [<- | Hin].
    + exists 0%nat, st, (random k).
      rewrite Nat.add_0_r. by eauto.
    + destruct (IH _ _ _ Hin) as (j & st' & r & Hl & He & -> & Hk).
      exists (S j), st', r.
      replace (i + S j)%nat with (S i + j)%nat by lia. done.
  - destruct (IH _ _ _ Hin) as (j & st' & r & Hl & He & -> & Hk).
    exists (S j), st', r.
    replace (i + S j)%nat with (S i + j)%nat by lia. done.
Qed.

Lemma start_timers_each (random : nat -> Z) (arr : list Stat.t) :
  forall i k j st, arr !! j = Some st ->
    healthcheck_enabled (Stat.conf st) = true ->
    exists t, In (ngx_add_timer (ownership_ev (i + j)) t)
                 (start_timers random i k arr).
Proof.
  induction arr as [| st0 rest IH]; intros i k j st Hl Hen; [done |].
  cbn [start_timers].
  destruct j as [| j].
  - injection Hl as ->. rewrite Hen, Nat.add_0_r.
    eexists. by left.
  - cbn in Hl.
    replace (i + S j)%nat with (S i + j)%nat by lia.
    destruct (healthcheck_enabled (Stat.conf st0)).
    + destruct (IH (S i) (S k) j st Hl Hen) as (t & Hin).
      exists t. by right.
    + exact (IH (S i) k j st Hl Hen).
Qed.

Lemma start_timers_length (random : nat -> Z) (arr : list Stat.t) :
  forall i k,
    length (start_timers random i k arr)
    = length (List.filter (fun st => healthcheck_enabled (Stat.conf st)) arr).
Proof.
  induction arr as [| st rest IH]; intros i k; [done |].
  cbn [start_timers List.filter].
  destruct (healthcheck_enabled (Stat.conf st)); cbn [length]; by rewrite IH.
Qed.

(** A starting worker arms one timer for each peer with healthchecks
    enabled and nothing else: the ownership timer of that peer, with a
    time from zero up to, not including, the peer's delay.  No probe timer
    is armed and a peer without healthchecks gets no timer. *)
Theorem procinit_arms_one_claim_timer_each (random : nat -> Z)
    (arr : list Stat.t) :
  (forall k, 0 <= random k < 2 ^ 31) ->
  Forall (fun st => healthcheck_enabled (Stat.conf st) = true ->
                    0 < health_delay (Stat.conf st) < word_modulus P) arr ->
  exists tr,
    ngx_http_healthcheck_procinit P random arr = Some tr
    /\ (forall e, In e tr ->
          exists (j : nat) (st : Stat.t) (t : Z),
            e = ngx_add_timer (ownership_ev j) t
            /\ arr !! j = Some st
            /\ healthcheck_enabled (Stat.conf st) = true
            /\ 0 <= t < health_delay (Stat.conf st))
    /\ (forall (j : nat) (st : Stat.t),
          arr !! j = Some st ->
          healthcheck_enabled (Stat.conf st) = true ->
          exists t, In (ngx_add_timer (ownership_ev j) t) tr)
    /\ length tr
       = length (List.filter
                   (fun st => healthcheck_enabled (Stat.conf st)) arr).
Proof.
  intros Hr Hall.
  exists (start_timers random 0 0 arr).
  split; [| split; [| split]].
  - unfold ngx_http_healthcheck_procinit.
    destruct arr as [| st rest]; [done |].
    cbn [length Nat.eqb].
    by apply procinit_loop_timers.
  - intros e Hin.
    destruct (start_timers_in _ _ _ _ _ Hin)
      as (j & st & r & Hl & Hen & -> & _).
    exists j, st, (r mod health_delay (Stat.conf st)).
    split; [done |]. split; [done |]. split; [done |].
    apply Z.mod_pos_bound.
    rewrite Forall_forall in Hall.
    apply list_elem_of_lookup_2 in Hl.
    specialize (Hall _ Hl Hen). lia.
  - intros j st Hl Hen.
    exact (start_timers_each random arr 0 0 j st Hl Hen).
  - apply start_timers_length.
Qed.

(** A peer with healthchecks enabled and a delay of zero leaves the start
    of the worker without a defined result: the time of its first timer is
    a remainder by zero. *)
Theorem procinit_zero_delay (random : nat -> Z) (arr : list Stat.t)
    (j : nat) (st : Stat.t) :
  arr !! j = Some st ->
  healthcheck_enabled (Stat.conf st) = true ->
  health_delay (Stat.conf st) = 0 ->
  ngx_http_healthcheck_procinit P random arr = None.
Proof.
  intros Hl Hen Hz.
  unfold ngx_http_healthcheck_procinit.
  destruct arr as [| st0 rest] eqn:Harr; [done |].
  cbn [length Nat.eqb]. rewrite <- Harr in *. clear Harr st0 rest.
  generalize 0%nat at 1 as i. generalize 0%nat as k.
  revert j Hl.
  induction arr as [| st0 rest IH]; intros j Hl k i; [done |].
  cbn [procinit_loop].
  destruct j as [| j].
  - injection Hl as ->. by rewrite Hen, Hz.
  - cbn in Hl.
    destruct (healthcheck_enabled (Stat.conf st0)).
    + destruct (health_delay (Stat.conf st0) =? 0); [done |].
      by rewrite (IH j Hl).
    + by apply (IH j Hl).
Qed.

End ProcInit.


(** ** The request of the [healthcheck_send] directive *)

Section SendDirective.

Lemma joined_cons (v : list byte) (rest : list (list byte)) :
  joined (v :: rest) = v ++ continued rest.
Proof.
  revert v. induction rest as [| v' rest IH]; intros v.
  - cbn. by rewrite app_nil_r.
  - change (joined (v :: v' :: rest)) with (v ++ [CR; LF] ++ joined (v' :: rest)).
    rewrite IH. unfold continued. cbn [map concat]. by rewrite <- !app_assoc.
Qed.

Lemma send_length_continued (value : list (list byte)) :
  forall i len, (1 < i)%nat ->
    send_length i value len = (len + length (continued value))%nat.
Proof.
  induction value as [| v rest IH]; intros i len Hi.
  - cbn [send_length]. unfold continued. cbn [map concat length]. lia.
  - cbn [send_length].
    destruct (Nat.eqb_spec i 1) as [| _]; [lia |].
    cbn [negb].
    rewrite IH by lia.
    unfold continued. cbn [map concat app length].
    rewrite ?length_app. cbn [length]. lia.
Qed.

Lemma send_length_joined (args : list (list byte)) :
  send_length 1 args 0 = length (joined args).
Proof.
  destruct args as [| v rest]; [done |].
  cbn [send_length Nat.eqb negb].
  rewrite send_length_continued by lia.
  rewrite joined_cons, length_app. lia.
Qed.

Lemma memcpy_at_inside (data : list byte) (at_ : nat) (src : list byte) :
  (at_ + length src <= length data)%nat ->
  memcpy_at data at_ src
  = Some (take at_ data ++ src ++ drop (at_ + length src) data).
Proof.
  intros H. unfold memcpy_at.
  by destruct (Nat.leb_spec (at_ + length src) (length data)); [| lia].
Qed.

(** Copying [src] behind the [at_] bytes written so far. *)
Lemma memcpy_at_next (done_ rest_ src : list byte) :
  (length src <= length rest_)%nat ->
  memcpy_at (done_ ++ rest_) (length done_) src
  = Some ((done_ ++ src) ++ drop (length src) rest_).
Proof.
  intros H.
  rewrite memcpy_at_inside by (rewrite length_app; lia).
  rewrite take_app_length.
  rewrite drop_app_ge by lia.
  replace (length done_ + length src - length done_)%nat
    with (length src) by lia.
  by rewrite <- app_assoc.
Qed.

Lemma send_copy_continued (value : list (list byte)) :
  forall i done_ rest_, (1 < i)%nat ->
    (length (continued value) <= length rest_)%nat ->
    send_copy i value (done_ ++ rest_) (length done_)
    = Some ((done_ ++ continued value)
              ++ drop (length (continued value)) rest_,
            (length done_ + length (continued value))%nat).
Proof.
  induction value as [| v rest IH]; intros i done_ rest_ Hi Hlen.
  - cbn. by rewrite app_nil_r, Nat.add_0_r.
  - unfold continued in Hlen. cbn [map concat] in Hlen.
    rewrite !length_app in Hlen. cbn [length] in Hlen.
    fold (continued rest) in Hlen.
    cbn [send_copy].
    destruct (Nat.eqb_spec i 1) as [| _]; [lia |].
    cbn [negb].
    rewrite (memcpy_at_next done_ rest_ [CR; LF]) by (cbn [length]; lia).
    cbn [length].
    replace (length done_ + 2)%nat with (length (done_ ++ [CR; LF]))
      by (rewrite length_app; cbn; lia).
    rewrite (memcpy_at_next (done_ ++ [CR; LF]) (drop 2 rest_) v)
      by (rewrite length_drop; lia).
    replace (length (done_ ++ [CR; LF]) + length v)%nat
      with (length ((done_ ++ [CR; LF]) ++ v))
      by (rewrite !length_app; cbn; lia).
    rewrite IH by (rewrite ?length_drop; lia).
    rewrite !drop_drop.
    assert (Hc : continued (v :: rest) = ([CR; LF] ++ v) ++ continued rest)
      by done.
    rewrite Hc, !length_app. cbn [length].
    rewrite <- !app_assoc.
    replace (2 + (length v + length (continued rest)))%nat
      with (2 + length v + length (continued rest))%nat by lia.
    do 2 f_equal. lia.
Qed.

Lemma send_copy_joined (args : list (list byte)) (block : list byte) :
  (length (joined args) <= length block)%nat ->
  send_copy 1 args block 0
  = Some (joined args ++ drop (length (joined args)) block,
          length (joined args)).
Proof.
  intros Hlen.
  destruct args as [| v rest]; [done |].
  rewrite joined_cons in *. rewrite length_app in Hlen.
  cbn [send_copy Nat.eqb negb].
  pose proof (memcpy_at_next [] block v ltac:(lia)) as Hfirst.
  cbn [app length] in Hfirst. rewrite Hfirst.
  pose proof (send_copy_continued rest 2 v (drop (length v) block)
                ltac:(lia) ltac:(rewrite length_drop; lia)) as Hrest.
  change (0 + length v)%nat with (length v).
  rewrite Hrest, drop_drop.
  by rewrite length_app, <- app_assoc.
Qed.

(** The directive stores the arguments as the lines of a request: joined
    by line breaks and closed by an empty line, with a zero byte behind
    that is not counted.  All of it is written inside the block asked for,
    the stored length is the length of the request, and the answer is
    never the one about lengths that do not match. *)
Theorem send_directive_builds_request (args : list (list byte))
    (block : list byte) :
  length block = S (send_length 1 args 0 + 2 * 2) ->
  ngx_http_healthcheck_send args (Some block)
  = Some (NGX_CONF_OK,
          length (joined args ++ [CR; LF; CR; LF]),
          Some ((joined args ++ [CR; LF; CR; LF]) ++ [x00])).
Proof.
  intros Hblock.
  rewrite send_length_joined in Hblock.
  unfold ngx_http_healthcheck_send.
  rewrite send_length_joined.
  rewrite send_copy_joined by lia.
  set (rest_ := drop (length (joined args)) block).
  assert (Hrest : length rest_ = 5%nat)
    by (unfold rest_; rewrite length_drop; lia).
  rewrite (memcpy_at_next (joined args) rest_ [CR; LF; CR; LF])
    by (cbn [length]; lia).
  cbn [length].
  destruct (drop 4 rest_) as [| z tail] eqn:Hd;
    [apply (f_equal length) in Hd; rewrite length_drop in Hd; cbn in Hd; lia |].
  assert (tail = []) as ->.
  { apply (f_equal length) in Hd. rewrite length_drop in Hd. cbn in Hd.
    apply nil_length_inv. lia. }
  rewrite !length_app. cbn [length].
  destruct (Nat.ltb_spec (length (joined args) + 2 * 2)
              (length (joined args) + 4 + 1)); [| lia].
  rewrite Nat.eqb_refl. cbn [negb].
  change (2 * 2)%nat with 4%nat.
  replace (<[(length (joined args) + 4)%nat := x00]>
             ((joined args ++ [CR; LF; CR; LF]) ++ [z]))
    with ((joined args ++ [CR; LF; CR; LF]) ++ [x00]); [done |].
  replace (length (joined args) + 4)%nat
    with (length (joined args ++ [CR; LF; CR; LF]) + 0)%nat
    by (rewrite length_app; cbn; lia).
  by rewrite insert_app_r.
Qed.

Lemma send_directive_builds_request_witness :
  let args := [bytes "GET /health HTTP/1.0"; bytes "Host: peer"] in
  length (repeat x01 37) = S (send_length 1 args 0 + 2 * 2)
  /\ ngx_http_healthcheck_send args (Some (repeat x01 37))
     = Some (NGX_CONF_OK, 36%nat,
             Some (bytes "GET /health HTTP/1.0" ++ [CR; LF]
                   ++ bytes "Host: peer" ++ [CR; LF; CR; LF; x00])).
Proof.
  split; [reflexivity |].
  exact (send_directive_builds_request
           [bytes "GET /health HTTP/1.0"; bytes "Host: peer"]
           (repeat x01 37) eq_refl).
Defined.

End SendDirective.

(** ** The status page *)

Section StatusPage.

Variable alloc : Z -> bool.

Lemma buf_append_cases (dst src : page_buf) :
  page_ok dst ->
  match ngx_http_healthcheck_buf_append alloc dst src with
  | Some b =>
      written b = written dst ++ written src
      /\ page_ok b
      /\ (page_last dst + Z.of_nat (length (written src)) <= size dst ->
          lead b = lead dst /\ size b = size dst)
  | None =>
      size dst < page_last dst + Z.of_nat (length (written src))
      /\ alloc ((Z.of_nat (length (written dst))
                 + Z.of_nat (length (written src))) * 2 + 1) = false
  end.
Proof.
  intros (Hlead & Hlast).
  unfold ngx_http_healthcheck_buf_append, page_ok, page_last in *.
  destruct (Z.gtb_spec (lead dst + Z.of_nat (length (written dst))
                        + Z.of_nat (length (written src))) (size dst))
    as [Hgt | Hle].
  - destruct (alloc _) eqn:Ha.
    + cbn [written lead size]. rewrite length_app.
      split; [done |]. split; [lia |]. lia.
    + split; [lia | done].
  - cbn [written lead size]. rewrite length_app.
    split; [done |]. split; [lia |]. done.
Qed.

(** Appending keeps what the buffer held and puts the new bytes behind it,
    inside the buffer that is returned; that is the buffer given when the
    bytes fit, and a larger one otherwise.  There is no result only when a
    larger buffer is needed and cannot be had. *)
Theorem buf_append_appends_in_bounds (dst src : page_buf) :
  page_ok dst ->
  match ngx_http_healthcheck_buf_append alloc dst src with
  | Some b =>
      written b = written dst ++ written src
      /\ page_ok b
      /\ (page_last dst + Z.of_nat (length (written src)) <= size dst ->
          lead b = lead dst /\ size b = size dst)
  | None =>
      size dst < page_last dst + Z.of_nat (length (written src))
      /\ alloc ((Z.of_nat (length (written dst))
                 + Z.of_nat (length (written src))) * 2 + 1) = false
  end.
Proof. apply buf_append_cases. Qed.

Lemma append_all_written (pieces : list (list byte)) :
  forall b, page_ok b ->
    match append_all alloc b pieces with
    | Some b' => written b' = written b ++ concat pieces /\ page_ok b'
    | None => exists n, alloc n = false
    end.
Proof.
  induction pieces as [| piece rest IH]; intros b Hok.
  - cbn. by rewrite app_nil_r.
  - cbn [append_all concat].
    pose proof (buf_append_cases b
                  {| lead := 0; written := piece; size := 1000 |} Hok) as H.
    destruct (ngx_http_healthcheck_buf_append alloc b _) as [b' |].
    + destruct H as (Hw & Hok' & _).
      specialize (IH b' Hok').
      destruct (append_all alloc b' rest) as [b'' |]; [| done].
      destruct IH as (-> & Hok'').
      split; [| done].
      rewrite Hw. cbn [written]. by rewrite app_assoc.
    + destruct H as (_ & Ha). eauto.
Qed.

(** The body of the status page is the pieces in the order they were
    written, whatever their number and sizes, and lies inside the buffer
    that is sent; the handler gives up only when an allocation fails. *)
Theorem status_page_is_all_pieces (pieces : list (list byte)) :
  match append_all alloc (temp_buf 10) pieces with
  | Some b => written b = concat pieces /\ page_ok b
  | None => exists n, alloc n = false
  end.
Proof.
  assert (Hok : page_ok (temp_buf 10)) by (by vm_compute).
  exact (append_all_written pieces (temp_buf 10) Hok).
Qed.

End StatusPage.

(** The text for the outcome of a probe tells the outcome: two final
    states never share a text, and no state but [NGX_HEALTH_OK] reads as
    "OK".  A state that is not final reads as unknown. *)
Theorem statestr_tells_the_state :
  (forall a b, terminal a = true -> terminal b = true ->
     ngx_http_healthcheck_statestr a = ngx_http_healthcheck_statestr b ->
     a = b)
  /\ (forall a, ngx_http_healthcheck_statestr a = "OK"%string <->
                a = NGX_HEALTH_OK)
  /\ (forall a, terminal a = false ->
                ngx_http_healthcheck_statestr a = "Unknown state"%string).
Proof.
  split; [| split].
  - intros a b Ha Hb H.
    destruct a; try discriminate Ha; destruct b; try discriminate Hb;
      first [reflexivity | discriminate H].
  - intros a. split.
    + by destruct a.
    + by intros ->.
  - intros a Ha. by destruct a.
Qed.


(** ** A probe without a request *)

Section EmptyRequest.
Variable P : ptr_size.
Variable p : process.

Lemma empty_request_loop (w : world) (c : outgoing) (e : send_event)
    (s : list send_event) (fuel : nat) :
  health_send (Stat.conf (stat w)) = [] ->
  sends c = e :: s ->
  e <> send_again ->
  fst (write_loop P p (S fuel) w c)
  = with_shm (Shm.set_action_time (ngx_current_msec p))
      (ngx_http_healthcheck_mark_finished P p
         (with_stat (Stat.set_state NGX_HEALTH_BAD_CONN) w)).
Proof.
  intros Hempty Hsends He.
  cbn [write_loop]. unfold send, unsent.
  rewrite Hsends, Hempty, drop_nil.
  destruct e as [| | n]; [done | done |].
  by rewrite take_nil.
Qed.

(** With an empty request there is nothing to send, and a [send] that
    fails or takes nothing ends the probe as a bad connection: the
    connection is closed and the verdict filter runs.  The state the
    finished probe was given is then overwritten: the handler leaves the
    probe waiting for a status line, and the next start of a probe finds a
    state that is not the waiting one and logs the warning. *)
Theorem empty_request_failed_send (w : world) (c : outgoing)
    (e : send_event) (s : list send_event) :
  Stat.state (stat w) = NGX_HEALTH_SENDING_CHECK ->
  health_send (Stat.conf (stat w)) = [] ->
  Stat.send_pos (stat w) = 0 ->
  sends c = e :: s ->
  e <> send_again ->
  let w' := fst (ngx_http_healthcheck_write_handler P p w c) in
  Stat.state (stat w') = NGX_HEALTH_READING_STAT_LINE
  /\ emitted w w'
     = finished_events p (Stat.set_state NGX_HEALTH_BAD_CONN (stat w))
  /\ Shm.down_code (shm w') = NGX_HEALTH_BAD_CONN
  /\ Shm.last_down (shm w') = true
  /\ forall (sock : list recv_event) (script : list send_event),
       emitted w'
         (fst (ngx_http_healthcheck_begin_healthcheck p sock script w'))
       = [log_warn;
          ngx_add_timer (read_ev (Stat.index (stat w)))
            (health_timeout (Stat.conf (stat w)))].
Proof.
  intros Hst Hempty Hpos Hsends He w'.
  pose proof (empty_request_loop w c e s
                (Z.to_nat (send_len (stat w) - Stat.send_pos (stat w)))
                Hempty Hsends He) as Hloop.
  set (w1 := with_shm (Shm.set_action_time (ngx_current_msec p))
               (ngx_http_healthcheck_mark_finished P p
                  (with_stat (Stat.set_state NGX_HEALTH_BAD_CONN) w)))
    in *.
  destruct (mark_finished_stat P p
              (with_stat (Stat.set_state NGX_HEALTH_BAD_CONN) w))
    as (Hstat & _).
  assert (Hstat1 : stat w1
                   = Stat.set_state NGX_HEALTH_WAITING (stat w))
    by (unfold w1; cbn [stat with_shm]; rewrite Hstat;
        cbn [stat with_stat]; by destruct (stat w)).
  assert (Htr1 : trace w1
                 = trace w
                   ++ finished_events p
                        (Stat.set_state NGX_HEALTH_BAD_CONN (stat w)))
    by (unfold w1; cbn [trace with_shm];
        by rewrite mark_finished_trace).
  assert (Hshm1 : Shm.down_code (shm w1) = NGX_HEALTH_BAD_CONN
                  /\ Shm.last_down (shm w1) = true).
  { unfold w1. cbn [shm with_shm]. rewrite mark_finished_shm.
    cbn [stat with_stat].
    unfold count_verdict, publish_down.
    destruct (stat w); cbn.
    repeat case_match; by cbn. }
  assert (Hw' : w' = with_stat (Stat.set_state NGX_HEALTH_READING_STAT_LINE)
                       w1).
  { unfold w', ngx_http_healthcheck_write_handler.
    rewrite Hst. cbn [state_eqb health_state_value Z.eqb Pos.eqb negb].
    destruct (write_loop P p _ w c) as [wl cl] eqn:Hrun.
    cbn [fst] in Hloop. subst wl.
    rewrite Hstat1. unfold send_len.
    replace (Stat.conf (Stat.set_state NGX_HEALTH_WAITING (stat w)))
      with (Stat.conf (stat w)) by (by destruct (stat w)).
    replace (Stat.send_pos (Stat.set_state NGX_HEALTH_WAITING (stat w)))
      with (Stat.send_pos (stat w)) by (by destruct (stat w)).
    by rewrite Hempty, Hpos. }
  clearbody w1. clearbody w'. subst w'.
  cbn [stat shm trace with_stat]. rewrite Hstat1.
  split; [by destruct (stat w) |].
  split; [by apply emitted_app |].
  split; [apply Hshm1 |]. split; [apply Hshm1 |].
  intros sock script.
  apply emitted_app.
  unfold ngx_http_healthcheck_begin_healthcheck.
  destruct w1 as [s1 sh1 so1 tr1]. cbn [stat] in Hstat1. subst s1.
  cbn. by rewrite <- app_assoc.
Qed.

End EmptyRequest.


(** ** A worker that is shutting down *)

Section ShuttingDown.
Variable P : ptr_size.
Variable p : process.

(** A worker that is terminating, exiting or quitting only cancels: an
    ownership attempt takes no lock, not even a held one, touches neither
    the slot nor the private entry, and a probe that ends then is counted
    and closed as ever but not scheduled again.  In both cases the two
    timers of every peer are cancelled and no timer is armed. *)
Theorem shutting_down_worker_only_cancels (w : world) :
  shutting_down p = true ->
  let cancels :=
    flat_map (fun i => [ngx_del_timer (health_ev i);
                        ngx_del_timer (ownership_ev i)])
      (seq 0 (nelts p)) in
  (exists w',
     ngx_http_healthcheck_try_for_ownership P p w = Some w'
     /\ shm w' = shm w /\ stat w' = stat w /\ socket w' = socket w
     /\ emitted w w' = cancels)
  /\ emitted w (ngx_http_healthcheck_mark_finished P p w)
     = log_finished (Stat.state (stat w)) :: ngx_close_connection :: cancels
  /\ (forall i : nat, (i < nelts p)%nat ->
        In (ngx_del_timer (health_ev i)) cancels
        /\ In (ngx_del_timer (ownership_ev i)) cancels)
  /\ (forall (ev : ngx_event_t) (t : Z), ~ In (ngx_add_timer ev t) cancels).
Proof.
  intros Hdown cancels.
  split; [| split; [| split]].
  - exists (ngx_http_healthcheck_clear_events p w).
    unfold ngx_http_healthcheck_try_for_ownership. rewrite Hdown.
    destruct (clear_events_frame p w) as (Hs & Hst & Hso).
    split; [done |]. split; [done |]. split; [done |]. split; [done |].
    apply emitted_app, clear_events_trace.
  - apply emitted_app. rewrite mark_finished_trace.
    unfold finished_events. by rewrite Hdown.
  - intros i Hi. unfold cancels.
    split; apply in_flat_map; exists i;
      (split; [apply in_seq; lia | cbn; tauto]).
  - intros ev t Hin. unfold cancels in Hin.
    apply in_flat_map in Hin as (i & _ & [H | [H | []]]); discriminate H.
Qed.

End ShuttingDown.


(** ** A connection that is lost *)

Section LostConnection.
Variable P : ptr_size.
Variable p : process.

Lemma read_once_lost (w : world) (c : list recv_event) (e : recv_event) :
  socket w = e :: c ->
  e = recv_error \/ e = segment [] ->
  read_once w
  = with_stat (Stat.set_state NGX_HEALTH_BAD_CONN)
      (emit (recv_call (capacity (Stat.read_buffer (stat w))
                        - buf_pos (Stat.read_buffer (stat w)))
               (match e with recv_error => NGX_ERROR | _ => 0 end))
         (with_socket c w)).
Proof.
  intros Hsock He. unfold read_once, recv. rewrite Hsock.
  destruct He as [-> | ->]; [done |].
  by rewrite take_nil, drop_nil.
Qed.

(** When [recv] fails, or returns 0 because the peer has closed, the
    probe ends as a bad connection whatever the buffer holds: the
    recognizer is not asked, not even when the bytes received so far are a
    good reply up to the last byte of the body.  The peer counts as having
    answered badly. *)
Theorem lost_connection_is_bad_conn (w : world) (c : list recv_event)
    (e : recv_event) :
  timed_out P p w = false ->
  socket w = e :: c ->
  e = recv_error \/ e = segment [] ->
  let room := capacity (Stat.read_buffer (stat w))
              - buf_pos (Stat.read_buffer (stat w)) in
  let w' := ngx_http_healthcheck_read_handler P p w in
  socket w' = c
  /\ Shm.down_code (shm w') = NGX_HEALTH_BAD_CONN
  /\ Shm.last_down (shm w') = true
  /\ stat w' = Stat.set_state NGX_HEALTH_WAITING (stat w)
  /\ emitted w w'
     = recv_call room (match e with recv_error => NGX_ERROR | _ => 0 end)
       :: finished_events p (Stat.set_state NGX_HEALTH_BAD_CONN (stat w)).
Proof.
  intros Ht Hsock He room w'.
  assert (Hw' : w' = ngx_http_healthcheck_mark_finished P p
                       (with_stat (Stat.set_state NGX_HEALTH_BAD_CONN)
                          (emit (recv_call room
                                   (match e with
                                    | recv_error => NGX_ERROR
                                    | _ => 0
                                    end))
                             (with_socket c
                                (with_shm
                                   (Shm.set_action_time (ngx_current_msec p))
                                   w))))).
  { unfold w'. rewrite read_handler_unfold. cbv zeta. rewrite Ht.
    rewrite (read_once_lost _ c e) by done.
    by rewrite judge_bad_conn by (by destruct (stat w)). }
  clearbody w'. subst w'.
  match goal with
  | |- context [ngx_http_healthcheck_mark_finished P p ?x] =>
      destruct (mark_finished_stat P p x) as (Hstat & Hso);
      pose proof (mark_finished_shm P p x) as Hshm;
      pose proof (mark_finished_trace P p x) as Htr
  end.
  rewrite Hso, Hstat, Hshm.
  split; [done |].
  split; [done |].
  split.
  { cbn [stat shm with_stat with_shm emit with_socket Shm.last_down
         Shm.set_action_time Shm.set_down_code].
    unfold publish_down, count_verdict.
    replace (Stat.state (Stat.set_state NGX_HEALTH_BAD_CONN (stat w)))
      with NGX_HEALTH_BAD_CONN by (by destruct (stat w)).
    cbn [state_eqb health_state_value Z.eqb Pos.eqb].
    repeat case_match; by cbn. }
  split; [cbn [stat with_stat emit with_socket with_shm];
          by destruct (stat w) |].
  unfold emitted. rewrite Htr.
  cbn [trace stat with_stat emit with_socket with_shm].
  rewrite <- app_assoc. by rewrite drop_app_length.
Qed.

End LostConnection.

(** * Concrete runs of the rest of the module *)

(** The request goes out in two [send] calls; the second call fails;
    the second call would block. *)
Lemma write_handler_outcomes_witness :
  Stat.state (stat sample_sending) = NGX_HEALTH_SENDING_CHECK
  /\ sent_so_far sample_sending sample_outgoing
  /\ stat (fst (ngx_http_healthcheck_write_handler PTR8 (sample_process false)
                  sample_sending sample_outgoing))
     = Stat.set_state NGX_HEALTH_READING_STAT_LINE
         (set_send_pos 24 (stat sample_sending))
  /\ wire (snd (ngx_http_healthcheck_write_handler PTR8 (sample_process false)
                  sample_sending sample_outgoing))
     = health_send (sample_conf 64)
  /\ Shm.down_code
       (shm (fst (ngx_http_healthcheck_write_handler PTR8
                    (sample_process false) sample_sending
                    {| sends := [accept 10; send_error]; wire := [] |})))
     = NGX_HEALTH_BAD_CONN
  /\ stat (fst (ngx_http_healthcheck_write_handler PTR8
                  (sample_process false) sample_sending
                  {| sends := [accept 10; send_again; accept 100];
                     wire := [] |}))
     = set_send_pos 10 (stat sample_sending).
Proof.
  assert (Hsent : forall s, sent_so_far sample_sending
                              {| sends := s; wire := [] |})
    by (intros s; split; [by vm_compute | reflexivity]).
  split; [reflexivity |]. split; [exact (Hsent _) |].
  split; [| split; [| split]].
  - refine (proj1 (proj1 (write_handler_outcomes PTR8 (sample_process false)
                            sample_sending sample_outgoing [10; 100]%nat []
                            eq_refl (Hsent _) eq_refl _)
                     [10%nat] 100%nat eq_refl _)).
    + repeat (apply List.Forall_cons; [lia |]). apply List.Forall_nil.
    + by vm_compute.
  - refine (proj1 (proj2 (proj1 (write_handler_outcomes PTR8
                                   (sample_process false)
                                   sample_sending sample_outgoing
                                   [10; 100]%nat []
                                   eq_refl (Hsent _) eq_refl _)
                            [10%nat] 100%nat eq_refl _))).
    + repeat (apply List.Forall_cons; [lia |]). apply List.Forall_nil.
    + by vm_compute.
  - refine (proj1 (proj2 (proj2 (proj2 (proj2
              (proj2 (proj2 (write_handler_outcomes PTR8
                               (sample_process false) sample_sending
                               {| sends := [accept 10; send_error];
                                  wire := [] |}
                               [10%nat] [send_error]
                               eq_refl (Hsent _) eq_refl _))
                 _ [] (or_introl eq_refl))))))).
    + repeat (apply List.Forall_cons; [lia |]). apply List.Forall_nil.
    + by vm_compute.
  - refine (proj1 (proj1 (proj2 (write_handler_outcomes PTR8
                                   (sample_process false) sample_sending
                                   {| sends := [accept 10; send_again;
                                                accept 100];
                                      wire := [] |}
                                   [10%nat] [send_again; accept 100]
                                   eq_refl (Hsent _) eq_refl _))
                     _ (or_intror (ex_intro _ [accept 100] eq_refl)))).
    + repeat (apply List.Forall_cons; [lia |]). apply List.Forall_nil.
    + by vm_compute.
Defined.

Lemma write_handler_keeps_prefix_witness :
  sent_so_far sample_sending sample_outgoing
  /\ Stat.conf (stat (fst (ngx_http_healthcheck_write_handler PTR8
                             (sample_process false) sample_sending
                             sample_outgoing)))
     = Stat.conf (stat sample_sending).
Proof.
  assert (Hsent : sent_so_far sample_sending sample_outgoing)
    by (split; [by vm_compute | reflexivity]).
  split; [exact Hsent |].
  exact (proj2 (write_handler_keeps_prefix PTR8 (sample_process false)
                  sample_sending sample_outgoing Hsent)).
Defined.

(** A new probe on an entry that still holds the reply of the last one. *)
Lemma begin_then_send_is_fresh_witness :
  let b := ngx_http_healthcheck_begin_healthcheck (sample_process false)
             sample_segments [accept 100] sample_waiting in
  let r := ngx_http_healthcheck_write_handler PTR8 (sample_process false)
             (fst b) (snd b) in
  received (Stat.read_buffer (stat sample_waiting)) = bytes "HTTP/1.1 200"
  /\ health_send (Stat.conf (stat sample_waiting)) <> []
  /\ Stat.state (stat (fst r)) = NGX_HEALTH_READING_STAT_LINE
  /\ fresh (stat (fst r)).
Proof.
  assert (Hne : health_send (Stat.conf (stat sample_waiting)) <> [])
    by (by vm_compute).
  split; [reflexivity |]. split; [exact Hne |]. split; [reflexivity |].
  exact (proj1 (begin_then_send_is_fresh PTR8 (sample_process false)
                  sample_segments [accept 100] sample_waiting Hne eq_refl)).
Defined.

Lemma empty_request_failed_send_witness :
  Stat.state (stat sample_silent) = NGX_HEALTH_SENDING_CHECK
  /\ health_send (Stat.conf (stat sample_silent)) = []
  /\ Stat.state
       (stat (fst (ngx_http_healthcheck_write_handler PTR8
                     (sample_process false) sample_silent
                     {| sends := [accept 5]; wire := [] |})))
     = NGX_HEALTH_READING_STAT_LINE.
Proof.
  split; [reflexivity |]. split; [reflexivity |].
  exact (proj1 (empty_request_failed_send PTR8 (sample_process false)
                  sample_silent {| sends := [accept 5]; wire := [] |}
                  (accept 5) [] eq_refl eq_refl eq_refl eq_refl
                  ltac:(discriminate))).
Defined.

(** The whole reply in one chunk, and the same bytes while the request
    is still being sent. *)
Lemma feed_answers_witness :
  caught_up (sample_stat 64)
  /\ verdict (feed PTR8 (sample_stat 64) sample_reply)
     = (NGX_OK, NGX_HEALTH_OK)
  /\ verdict (feed PTR8 (stat sample_sending) sample_reply)
     = (NGX_ERROR, NGX_HEALTH_BAD_STATE).
Proof.
  split; [reflexivity |]. split.
  - destruct (proj1 (feed_answers PTR8 (sample_stat 64) sample_reply
                       eq_refl) eq_refl)
      as [[H1 H2] | [[H1 _] | [H1 _]]].
    + unfold verdict. by rewrite H1, H2.
    + by vm_compute in H1.
    + by vm_compute in H1.
  - exact (proj1 (proj2 (feed_answers PTR8 (stat sample_sending)
                           sample_reply eq_refl))
             eq_refl ltac:(discriminate)).
Defined.

Lemma stale_stat_code_is_ignored_witness :
  Stat.state (deliver sample_reply (sample_stat 64))
  = NGX_HEALTH_READING_STAT_LINE
  /\ verdict (ngx_http_healthcheck_process_recv PTR8
                (Stat.set_stat_code 404
                   (deliver sample_reply (sample_stat 64))))
     = verdict (ngx_http_healthcheck_process_recv PTR8
                  (deliver sample_reply (sample_stat 64))).
Proof.
  split; [reflexivity |].
  exact (stale_stat_code_is_ignored PTR8
           (deliver sample_reply (sample_stat 64)) 404 eq_refl).
Defined.

Ltac each_byte tac :=
  repeat (apply List.Forall_cons; [tac |]); apply List.Forall_nil.

Ltac some_digit := unfold is_digit; by vm_compute.

(** A reply with the code 404 and a good body. *)
Lemma bad_status_line_witness :
  token (bytes "HTTP/1.1")
  /\ Forall is_digit (bytes "404")
  /\ verdict (feed PTR8 (sample_stat 64)
                (bytes "HTTP/1.1" ++ [SP] ++ bytes "404" ++ [SP]
                 ++ bytes "Not Found" ++ [CR; LF; CR; LF] ++ bytes "pong"))
     = (NGX_ERROR, NGX_HEALTH_BAD_CODE).
Proof.
  assert (Ht : token (bytes "HTTP/1.1"))
    by (unfold token; each_byte ltac:(by repeat split)).
  assert (Hd : Forall is_digit (bytes "404")) by (each_byte some_digit).
  split; [exact Ht |]. split; [exact Hd |].
  apply (bad_status_line PTR8 (sample_stat 64) (bytes "HTTP/1.1")
           (bytes "404")
           (bytes "Not Found" ++ [CR; LF; CR; LF] ++ bytes "pong")
           eq_refl eq_refl Ht Hd).
  by vm_compute.
Defined.

(** A reply with two header lines and the expected body. *)
Lemma good_reply_verdict_witness :
  let head := reply_head (bytes "HTTP/1.1") (bytes "200")
                (bytes "OK" ++ [CR])
                [bytes "Server: x" ++ [CR]; bytes "Content-Length: 4" ++ [CR]]
                [CR] in
  token (bytes "HTTP/1.1")
  /\ Forall is_digit (bytes "200")
  /\ decimal (bytes "200") mod word_modulus PTR8 = 200
  /\ health_expected (Stat.conf (sample_stat 64)) = Some (bytes "pong")
  /\ verdict (feed PTR8 (sample_stat 64) (head ++ bytes "pong"))
     = (NGX_OK, NGX_HEALTH_OK)
  /\ verdict (feed PTR8 (sample_stat 64) (head ++ bytes "po"))
     = (NGX_AGAIN, NGX_HEALTH_READING_BODY)
  /\ verdict (feed PTR8 (sample_stat 64) (head ++ bytes "ping"))
     = (NGX_ERROR, NGX_HEALTH_BAD_BODY).
Proof.
  intros head.
  assert (Ht : token (bytes "HTTP/1.1"))
    by (unfold token; each_byte ltac:(by repeat split)).
  assert (Hd : Forall is_digit (bytes "200")) by (each_byte some_digit).
  assert (Hc : decimal (bytes "200") mod word_modulus PTR8 = 200)
    by (by vm_compute).
  assert (Hr : line (bytes "OK" ++ [CR]))
    by (unfold line; each_byte ltac:(discriminate)).
  assert (Hh : Forall (fun h => line h /\ ~ blank h)
                 [bytes "Server: x" ++ [CR];
                  bytes "Content-Length: 4" ++ [CR]]).
  { each_byte ltac:(split;
                    [unfold line; each_byte ltac:(discriminate)
                    | intros Hb; apply Forall_cons in Hb as [Hb _];
                      discriminate Hb]). }
  assert (Hb : blank [CR]) by (unfold blank; each_byte ltac:(reflexivity)).
  split; [exact Ht |]. split; [exact Hd |]. split; [exact Hc |].
  split; [reflexivity |].
  split; [| split].
  - exact (proj1 (proj2 (good_reply_verdict PTR8 (sample_stat 64)
                           (bytes "HTTP/1.1") (bytes "200")
                           (bytes "OK" ++ [CR]) _ [CR] (bytes "pong")
                           eq_refl eq_refl eq_refl Ht Hd Hc Hr Hh Hb)
                    (bytes "pong") eq_refl) eq_refl).
  - refine (proj1 (proj2 (proj2 (good_reply_verdict PTR8 (sample_stat 64)
                                   (bytes "HTTP/1.1") (bytes "200")
                                   (bytes "OK" ++ [CR]) _ [CR] (bytes "po")
                                   eq_refl eq_refl eq_refl Ht Hd Hc Hr Hh Hb)
                            (bytes "pong") eq_refl)) _ _).
    + by exists (bytes "ng").
    + discriminate.
  - refine (proj2 (proj2 (proj2 (good_reply_verdict PTR8 (sample_stat 64)
                                   (bytes "HTTP/1.1") (bytes "200")
                                   (bytes "OK" ++ [CR]) _ [CR] (bytes "ping")
                                   eq_refl eq_refl eq_refl Ht Hd Hc Hr Hh Hb)
                            (bytes "pong") eq_refl)) _).
    intros [k Hk]. discriminate Hk.
Defined.

(** The first part of a reply arrives: the probe reads on. *)
Lemma read_handler_feeds_witness :
  let w := sample_world 64 4242 sample_segments in
  let w' := ngx_http_healthcheck_read_handler PTR8 (sample_process false) w in
  timed_out PTR8 (sample_process false) w = false
  /\ fst (feed PTR8 (stat w) (bytes "HTTP/1.1 ")) = NGX_AGAIN
  /\ socket w' = tl sample_segments
  /\ stat w' = snd (feed PTR8 (stat w) (bytes "HTTP/1.1 "))
  /\ emitted w w' = [recv_call 64 9].
Proof.
  intros w w'.
  assert (Ht : timed_out PTR8 (sample_process false) w = false)
    by reflexivity.
  assert (Hs : Stat.state (stat w) <> NGX_HEALTH_BAD_CONN) by discriminate.
  assert (Hn : bytes "HTTP/1.1 " <> []) by discriminate.
  assert (Hroom : Z.of_nat (length (bytes "HTTP/1.1 "))
                  <= capacity (Stat.read_buffer (stat w))
                     - buf_pos (Stat.read_buffer (stat w)))
    by (by vm_compute).
  destruct (read_handler_feeds PTR8 (sample_process false) w
              (bytes "HTTP/1.1 ") (tl sample_segments)
              Ht Hs eq_refl Hn Hroom) as (Hsock & _ & Hmore & _).
  destruct (Hmore eq_refl ltac:(by vm_compute)) as (Hstat & _ & Hev).
  split; [exact Ht |]. split; [reflexivity |].
  split; [exact Hsock |]. split; [exact Hstat |]. exact Hev.
Defined.

Lemma read_handler_stays_in_buffer_witness :
  let w := sample_world 16 4242 [segment sample_reply] in
  buffer_ok (stat w)
  /\ buffer_ok
       (stat (ngx_http_healthcheck_read_handler PTR8 (sample_process false)
                w)).
Proof.
  intros w.
  assert (Hok : buffer_ok (stat w))
    by (split; [split |]; by vm_compute).
  split; [exact Hok |].
  exact (proj1 (read_handler_stays_in_buffer PTR8 (sample_process false)
                  w Hok)).
Defined.

(** The peer closes two bytes before the end of a good reply. *)
Lemma lost_connection_is_bad_conn_witness :
  let w := with_stat (deliver (firstn 21 sample_reply))
             (sample_world 64 4242 [segment []]) in
  timed_out PTR8 (sample_process false) w = false
  /\ verdict (feed PTR8 (stat w) (skipn 21 sample_reply))
     = (NGX_OK, NGX_HEALTH_OK)
  /\ Shm.down_code
       (shm (ngx_http_healthcheck_read_handler PTR8 (sample_process false) w))
     = NGX_HEALTH_BAD_CONN.
Proof.
  intros w.
  split; [reflexivity |]. split; [by vm_compute |].
  exact (proj1 (proj2 (lost_connection_is_bad_conn PTR8
                         (sample_process false) w [] (segment [])
                         eq_refl eq_refl (or_intror eq_refl)))).
Defined.

(** Two bad probes in a row on a healthy peer with a failcount of 2. *)
Lemma like_verdicts_publish_witness :
  let w := sample_world 64 4242 [] in
  let ends := [(sample_process false, NGX_HEALTH_BAD_CONN);
               (sample_rival, NGX_HEALTH_TIMEOUT)] in
  Shm.down (shm w) = 0
  /\ health_failcount (Stat.conf (stat w)) = 2
  /\ Shm.down (shm (finish_probes PTR8 w ends)) = 1.
Proof.
  intros w ends.
  split; [reflexivity |]. split; [reflexivity |].
  refine (proj1 (like_verdicts_publish PTR8 w ends true _ _ _ _ _)).
  - discriminate.
  - repeat (apply List.Forall_cons; [reflexivity |]). apply List.Forall_nil.
  - by vm_compute.
  - by vm_compute.
  - by vm_compute.
Defined.

(** One bad probe on the same peer. *)
Lemma one_unlike_verdict_is_filtered_witness :
  let w := sample_world 64 4242 [] in
  let e := (sample_process false, NGX_HEALTH_BAD_CODE) in
  bad_end (snd e) <> Shm.last_down (shm w)
  /\ Shm.down (shm (finish_probe PTR8 w e)) = 0
  /\ Shm.concurrent (shm (finish_probe PTR8 w e)) = 1.
Proof.
  intros w e.
  assert (Hne : bad_end (snd e) <> Shm.last_down (shm w)) by discriminate.
  split; [exact Hne |].
  destruct (one_unlike_verdict_is_filtered PTR8 w e Hne
              ltac:(by vm_compute)) as (Hd & Hc & _).
  split; [exact Hd | exact Hc].
Defined.

(** Slots that held a set [down] flag before the zone was initialised. *)
Lemma fresh_zone_reports_no_peer_down_witness :
  exists tbl : list Shm.t,
    ngx_http_healthcheck_init_zone 77 2 None (Some sample_raw)
      {| ngx_http_healthchecks_shm := None; zone_data := None |}
    = (NGX_OK, {| ngx_http_healthchecks_shm := Some tbl;
                  zone_data := Some tbl |})
    /\ ngx_http_healthcheck_is_down [sample_stat 64; sample_stat 32]
         sample_raw 1 = 1
    /\ ngx_http_healthcheck_is_down [sample_stat 64; sample_stat 32]
         tbl 1 = 0.
Proof.
  eexists. split; [reflexivity |]. split; [reflexivity |].
  exact (fresh_zone_reports_no_peer_down 77
           [sample_stat 64; sample_stat 32] sample_raw
           {| ngx_http_healthchecks_shm := None; zone_data := None |}
           _ _ 1%nat eq_refl eq_refl).
Defined.

(** ** Ownership *)

Lemma reading_owner_is_not_robbed_witness :
  Shm.owner (shm (sample_world 64 4242 sample_segments))
  = ngx_pid (sample_process false)
  /\ ngx_pid sample_rival <> ngx_pid (sample_process false)
  /\ exists wb',
       ngx_http_healthcheck_try_for_ownership PTR8 sample_rival
         sample_rival_world = Some wb'
       /\ Shm.owner (shm wb') = 4242
       /\ Stat.state (stat wb') = NGX_HEALTH_UNINIT_STATE.
Proof.
  assert (Hne : ngx_pid sample_rival <> ngx_pid (sample_process false))
    by discriminate.
  split; [reflexivity |]. split; [exact Hne |].
  destruct (reading_owner_is_not_robbed PTR8 (sample_process false)
              sample_rival (sample_world 64 4242 sample_segments)
              sample_rival_world eq_refl eq_refl Hne eq_refl eq_refl
              ltac:(by vm_compute))
    as (wb' & Hrun & _ & Ho & Hst & _).
  exists wb'. split; [exact Hrun |]. split; [exact Ho |].
  by rewrite Hst.
Defined.

(** The owner 7 has not been heard of for 5 seconds: the worker 4242
    takes the peer, and the worker 5000, a tenth of a second later, does
    not take it from 4242. *)
Lemma new_owner_is_not_robbed_witness :
  stale PTR8 (sample_process false) (sample_world 64 7 []) = true
  /\ shutting_down sample_rival = false
  /\ exists wa' wb',
       ngx_http_healthcheck_try_for_ownership PTR8 (sample_process false)
         (sample_world 64 7 []) = Some wa'
       /\ Shm.owner (shm wa') = 4242
       /\ shm sample_taken_world = shm wa'
       /\ ngx_http_healthcheck_try_for_ownership PTR8 sample_rival
            sample_taken_world = Some wb'
       /\ shm wb' = shm wa'
       /\ stat wb' = stat sample_taken_world
       /\ emitted sample_taken_world wb'
          = [ngx_spinlock 5000; ngx_atomic_cmp_set 5000 0 true;
             ngx_add_timer (ownership_ev 0) 10000].
Proof.
  split; [reflexivity |]. split; [reflexivity |].
  destruct (new_owner_is_not_robbed PTR8 (sample_process false)
              sample_rival (sample_world 64 7 []) sample_taken_world
              eq_refl eq_refl ltac:(discriminate) eq_refl
              ltac:(discriminate) eq_refl ltac:(by vm_compute))
    as (wa' & Hrun & Ho & Hrob).
  assert (Heq : shm sample_taken_world = shm wa').
  { pose proof Hrun as Hval. vm_compute in Hval.
    injection Hval as <-. reflexivity. }
  destruct (Hrob Heq) as (wb' & Hrunb & Hshm & Hstat & Hev).
  exists wa', wb'.
  split; [exact Hrun |]. split; [exact Ho |]. split; [exact Heq |].
  split; [exact Hrunb |]. split; [exact Hshm |]. split; [exact Hstat |].
  exact Hev.
Defined.

Lemma attempt_leaves_lock_free_witness :
  shutting_down sample_rival = false
  /\ exists w',
       ngx_http_healthcheck_try_for_ownership PTR8 sample_rival
         (sample_world 64 7 []) = Some w'
       /\ Shm.lock (shm w') = 0
       /\ socket w' = [].
Proof.
  split; [reflexivity |].
  eexists. split; [reflexivity |].
  match goal with
  | |- Shm.lock (shm ?w') = 0 /\ _ =>
      destruct (attempt_leaves_lock_free PTR8 sample_rival
                  (sample_world 64 7 []) w' eq_refl eq_refl)
        as (Hl & _ & _ & _ & _ & Hs)
  end.
  split; [exact Hl | exact Hs].
Defined.

Lemma shutting_down_worker_only_cancels_witness :
  shutting_down (sample_process true) = true
  /\ emitted (sample_world 64 4242 [])
       (ngx_http_healthcheck_mark_finished PTR8 (sample_process true)
          (sample_world 64 4242 []))
     = [log_finished NGX_HEALTH_READING_STAT_LINE; ngx_close_connection;
        ngx_del_timer (health_ev 0); ngx_del_timer (ownership_ev 0)].
Proof.
  split; [reflexivity |].
  exact (proj1 (proj2 (shutting_down_worker_only_cancels PTR8
                         (sample_process true) (sample_world 64 4242 [])
                         eq_refl))).
Defined.

(** ** The worker's start *)

Lemma procinit_arms_one_claim_timer_each_witness :
  (forall k, 0 <= sample_random k < 2 ^ 31)
  /\ ngx_http_healthcheck_procinit PTR8 sample_random
       [sample_stat 64; sample_disabled; sample_stat 32]
     = Some [ngx_add_timer (ownership_ev 0) 383;
             ngx_add_timer (ownership_ev 2) 886]
  /\ exists tr,
       ngx_http_healthcheck_procinit PTR8 sample_random
         [sample_stat 64; sample_disabled; sample_stat 32] = Some tr
       /\ length tr = 2%nat.
Proof.
  assert (Hr : forall k, 0 <= sample_random k < 2 ^ 31).
  { intros k. unfold sample_random. destruct (Nat.even k); by vm_compute. }
  assert (Hall : Forall
                   (fun st => healthcheck_enabled (Stat.conf st) = true ->
                              0 < health_delay (Stat.conf st)
                              < word_modulus PTR8)
                   [sample_stat 64; sample_disabled; sample_stat 32]).
  { repeat (apply List.Forall_cons;
            [intros He; first [discriminate He | by vm_compute] |]).
    apply List.Forall_nil. }
  split; [exact Hr |]. split; [reflexivity |].
  destruct (procinit_arms_one_claim_timer_each PTR8 sample_random
              [sample_stat 64; sample_disabled; sample_stat 32] Hr Hall)
    as (tr & Hrun & _ & _ & Hlen).
  exists tr. split; [exact Hrun | exact Hlen].
Defined.

Lemma procinit_zero_delay_witness :
  [sample_stat 64; sample_no_delay] !! 1%nat = Some sample_no_delay
  /\ healthcheck_enabled (Stat.conf sample_no_delay) = true
  /\ health_delay (Stat.conf sample_no_delay) = 0
  /\ ngx_http_healthcheck_procinit PTR8 sample_random
       [sample_stat 64; sample_no_delay] = None.
Proof.
  split; [reflexivity |]. split; [reflexivity |]. split; [reflexivity |].
  exact (procinit_zero_delay PTR8 sample_random
           [sample_stat 64; sample_no_delay] 1 sample_no_delay
           eq_refl eq_refl eq_refl).
Defined.

(** ** The status page *)

(** Sixteen bytes into a buffer of ten: a buffer of 33 takes them. *)
Lemma buf_append_appends_in_bounds_witness :
  let src := {| lead := 0; written := bytes "<table border=1>";
                size := 1000 |} in
  page_ok (temp_buf 10)
  /\ exists b,
       ngx_http_healthcheck_buf_append (fun _ => true) (temp_buf 10) src
       = Some b
       /\ written b = bytes "<table border=1>"
       /\ size b = 33
       /\ page_ok b.
Proof.
  intros src.
  assert (Hok : page_ok (temp_buf 10)) by (split; by vm_compute).
  split; [exact Hok |].
  pose proof (buf_append_appends_in_bounds (fun _ => true) (temp_buf 10)
                src Hok) as H.
  destruct (ngx_http_healthcheck_buf_append (fun _ => true) (temp_buf 10)
              src) as [b |] eqn:Hrun; [| by destruct H].
  exists b. destruct H as (Hw & Hb & _).
  split; [reflexivity |]. split; [exact Hw |].
  split; [| exact Hb].
  injection Hrun as <-. reflexivity.
Defined.
